(** * InferOps browser frontend: a shallow embedding of its JavaScript modules

    The development follows the source files of the frontend:
    - [JS]       the fragment of the JavaScript platform the modules rely on
                 (strings, [JSON.parse], property access, truthiness, [+=]);
    - [Api]      [frontend/js/api.js];
    - [Ui]       the UI management module ([updateAlerts]);
    - [Main]     [frontend/js/main.js] ([appTick]);
    - [Dataset]  [frontend/js/dataset.js];
    - [Chat]     [frontend/js/chat.js];
    - [Dashboard] the UI management module again: node cards, charts and
                 the model selector;
    - [Tick]     what [appTick] does to the page with the values it got.

    JavaScript strings are kept as byte strings holding the UTF-8 text;
    asynchronous functions are cut at their [await] points into a part that
    runs up to the request and a part that resumes with the outcome of the
    request. *)

From Stdlib Require Import String Ascii List Bool Arith NArith ZArith Lia DecimalString.
From Stdlib Require DecimalPos.
Import ListNotations.

Local Open Scope string_scope.
Local Open Scope list_scope.

(* ================================================================== *)
(** * The JavaScript platform                                          *)
(* ================================================================== *)

Module JS.

(** ** Strings *)

Definition LF : ascii := ascii_of_nat 10.
Definition DQUOTE : ascii := ascii_of_nat 34.
Definition BACKSLASH : ascii := ascii_of_nat 92.

Definition nl : string := String LF EmptyString.

(** Source text of the examples: [lit] reads a single quote as a double
    quote and backslash-n as a line feed, so that JSON payloads can be
    written the way they appear on the wire. *)
Fixpoint lit (s : string) : string :=
  match s with
  | EmptyString => EmptyString
  | String c r =>
      if Ascii.eqb c "'" then String DQUOTE (lit r)
      else if Ascii.eqb c BACKSLASH then
        match r with
        | String "n" r' => String LF (lit r')
        | _ => String c (lit r)
        end
      else String c (lit r)
  end.

(** [s.startsWith(p)] *)
Fixpoint has_prefix (p s : string) : bool :=
  match p with
  | EmptyString => true
  | String a p' =>
      match s with
      | String b s' => Ascii.eqb a b && has_prefix p' s'
      | EmptyString => false
      end
  end.

Definition startsWith (s p : string) : bool := has_prefix p s.

(** [s.substring(n)] with [n] a non-negative integer: the text from
    position [n] on, empty when [n] is past the end. *)
Fixpoint substring_from (n : nat) (s : string) : string :=
  match n, s with
  | O, _ => s
  | S _, EmptyString => EmptyString
  | S n', String _ r => substring_from n' r
  end.

(** [s.split('\n')]: the segments between line feeds; always at least one
    segment, the last one being the text after the last line feed. *)
Fixpoint split_nl (s : string) : list string :=
  match s with
  | EmptyString => [EmptyString]
  | String c r =>
      if Ascii.eqb c LF then EmptyString :: split_nl r
      else match split_nl r with
           | [] => [String c EmptyString]
           | seg :: segs => String c seg :: segs
           end
  end.

(** [lines.pop()]: the array without its last element together with the
    element removed; [None] stands for the [undefined] that [pop] returns on
    an empty array. *)
Fixpoint pop {A : Type} (l : list A) : option (list A * A) :=
  match l with
  | [] => None
  | x :: r =>
      match pop r with
      | None => Some ([], x)
      | Some (i, a) => Some (x :: i, a)
      end
  end.

(** [lines.indexOf(line)]: the first position holding [line], [-1] when
    there is none. *)
Fixpoint indexOf (lines : list string) (line : string) : Z :=
  match lines with
  | [] => (-1)%Z
  | l :: r =>
      if String.eqb l line then 0%Z
      else let i := indexOf r line in
           if (i <? 0)%Z then (-1)%Z else (i + 1)%Z
  end.

(** [lines[i]] for an integer [i]: [None] ([undefined]) out of range. *)
Definition at_index {A : Type} (l : list A) (i : Z) : option A :=
  if (i <? 0)%Z then None else nth_error l (Z.to_nat i).

(** [String.prototype.trim]: white space and line terminators of
    ECMAScript, as they appear in UTF-8. [ws_width s] is the number of
    bytes of the white-space character [s] starts with, [0] when it starts
    with none. *)
Definition byte_is (c : ascii) (k : nat) : bool := Nat.eqb (nat_of_ascii c) k.

Definition byte_in (c : ascii) (lo hi : nat) : bool :=
  Nat.leb lo (nat_of_ascii c) && Nat.leb (nat_of_ascii c) hi.

Definition ws_width (s : string) : nat :=
  match s with
  | String c r =>
      if byte_in c 9 13 || byte_is c 32 then 1
      else match r with
           | String c1 r1 =>
               if byte_is c 194 && byte_is c1 160 then 2            (* U+00A0 *)
               else match r1 with
                    | String c2 _ =>
                        if byte_is c 239 && byte_is c1 187 && byte_is c2 191 then 3
                                                         (* U+FEFF *)
                        else if byte_is c 225 && byte_is c1 154 && byte_is c2 128 then 3
                                                         (* U+1680 *)
                        else if byte_is c 226 && byte_is c1 128
                                && (byte_in c2 128 138 || byte_in c2 168 169 || byte_is c2 175)
                             then 3    (* U+2000..U+200A, U+2028, U+2029, U+202F *)
                        else if byte_is c 226 && byte_is c1 129 && byte_is c2 159 then 3
                                                         (* U+205F *)
                        else if byte_is c 227 && byte_is c1 128 && byte_is c2 128 then 3
                                                         (* U+3000 *)
                        else 0
                    | EmptyString => 0
                    end
           | EmptyString => 0
           end
  | EmptyString => 0
  end.

(** [all_ws s]: [s] is a sequence of white-space characters. *)
Fixpoint all_ws (s : string) : bool :=
  match s with
  | EmptyString => true
  | String _ r =>
      match ws_width s with
      | 0 => false
      | 1 => all_ws r
      | 2 => match r with String _ r1 => all_ws r1 | EmptyString => false end
      | _ => match r with String _ (String _ r2) => all_ws r2 | _ => false end
      end
  end.

Fixpoint trim_start (s : string) : string :=
  match s with
  | EmptyString => EmptyString
  | String _ r =>
      match ws_width s with
      | 0 => s
      | 1 => trim_start r
      | 2 => match r with String _ r1 => trim_start r1 | EmptyString => s end
      | _ => match r with String _ (String _ r2) => trim_start r2 | _ => s end
      end
  end.

Fixpoint trim_end (s : string) : string :=
  match s with
  | EmptyString => EmptyString
  | String c r => if all_ws s then EmptyString else String c (trim_end r)
  end.

Definition trim (s : string) : string := trim_end (trim_start s).

(** ** JSON values *)

(** The values [JSON.parse] produces. A number keeps the literal it was
    written with: its value as an IEEE-754 double, and so whether it is
    zero and how it prints, belongs to the platform (see [Numbers]). *)
#[local] Set Warnings "-register-all".
Inductive json : Type :=
| JNull
| JBool (b : bool)
| JNumber (literal : string)
| JString (s : string)
| JArray (elements : list json)
| JObject (members : list (string * json)).

(** A JavaScript value that may be [undefined]. *)
Definition value : Type := option json.
Definition undefined : value := None.

(** ** [JSON.parse] *)

Inductive parse_result (A : Type) : Type :=
| Parsed (a : A) (rest : string)
| SyntaxError
| OutOfFuel.
Arguments Parsed {A} a rest.
Arguments SyntaxError {A}.
Arguments OutOfFuel {A}.

Definition parsed_map {A B : Type} (f : A -> B) (r : parse_result A) : parse_result B :=
  match r with
  | Parsed a rest => Parsed (f a) rest
  | SyntaxError => SyntaxError
  | OutOfFuel => OutOfFuel
  end.

(** JSON white space: tab, line feed, carriage return, space. *)
Definition is_json_ws (c : ascii) : bool :=
  byte_is c 9 || byte_is c 10 || byte_is c 13 || byte_is c 32.

Fixpoint skip_ws (s : string) : string :=
  match s with
  | String c r => if is_json_ws c then skip_ws r else s
  | EmptyString => EmptyString
  end.

Definition is_digit (c : ascii) : bool := byte_in c 48 57.

(** The longest prefix of digits and what follows it. *)
Fixpoint take_digits (s : string) : string * string :=
  match s with
  | String c r =>
      if is_digit c then let (d, rest) := take_digits r in (String c d, rest)
      else (EmptyString, s)
  | EmptyString => (EmptyString, EmptyString)
  end.

(** JSONNumber: an optional minus sign; then a single zero, or a non-zero
    digit and any digits; then optionally a dot and one or more digits; then
    optionally an exponent: e or E, an optional sign, one or more digits. *)
Definition lex_sign (s : string) : string * string :=
  match s with
  | String c r => if byte_is c 45 then (String c EmptyString, r) else (EmptyString, s)
  | EmptyString => (EmptyString, s)
  end.

Definition lex_int (s : string) : option (string * string) :=
  match s with
  | String c r =>
      if byte_is c 48 then Some (String c EmptyString, r)
      else if is_digit c then Some (take_digits s)
      else None
  | EmptyString => None
  end.

Definition lex_frac (s : string) : option (string * string) :=
  match s with
  | String c r =>
      if byte_is c 46 then
        match take_digits r with
        | (EmptyString, _) => None
        | (d, rest) => Some (String c d, rest)
        end
      else Some (EmptyString, s)
  | EmptyString => Some (EmptyString, s)
  end.

Definition lex_exp (s : string) : option (string * string) :=
  match s with
  | String c r =>
      if byte_is c 101 || byte_is c 69 then
        let (sg, r1) :=
          match r with
          | String c1 r' =>
              if byte_is c1 43 || byte_is c1 45 then (String c1 EmptyString, r')
              else (EmptyString, r)
          | EmptyString => (EmptyString, r)
          end in
        match take_digits r1 with
        | (EmptyString, _) => None
        | (d, rest) => Some (String c (sg ++ d), rest)
        end
      else Some (EmptyString, s)
  | EmptyString => Some (EmptyString, s)
  end.

Definition lex_number (s : string) : parse_result string :=
  let (sg, r0) := lex_sign s in
  match lex_int r0 with
  | None => SyntaxError
  | Some (i, r1) =>
      match lex_frac r1 with
      | None => SyntaxError
      | Some (f, r2) =>
          match lex_exp r2 with
          | None => SyntaxError
          | Some (e, r3) => Parsed (sg ++ i ++ f ++ e)%string r3
          end
      end
  end.

(** Escapes of JSON strings. A [\uXXXX] escape names a UTF-16 code unit;
    a high surrogate followed by an escaped low surrogate is one code
    point. The text is stored in UTF-8. *)
Definition hex_digit (c : ascii) : option N :=
  let n := N_of_ascii c in
  if byte_in c 48 57 then Some (n - 48)%N
  else if byte_in c 97 102 then Some (n - 87)%N
  else if byte_in c 65 70 then Some (n - 55)%N
  else None.

Definition hex4 (a b c d : ascii) : option N :=
  match hex_digit a, hex_digit b, hex_digit c, hex_digit d with
  | Some x, Some y, Some z, Some w => Some (((x * 16 + y) * 16 + z) * 16 + w)%N
  | _, _, _, _ => None
  end.

Definition byteN (n : N) : ascii := ascii_of_N n.

Definition utf8 (cp : N) : string :=
  if (cp <? 128)%N then String (byteN cp) EmptyString
  else if (cp <? 2048)%N then
    String (byteN (192 + cp / 64)) (String (byteN (128 + cp mod 64)) EmptyString)
  else if (cp <? 65536)%N then
    String (byteN (224 + cp / 4096))
      (String (byteN (128 + (cp / 64) mod 64))
         (String (byteN (128 + cp mod 64)) EmptyString))
  else
    String (byteN (240 + cp / 262144))
      (String (byteN (128 + (cp / 4096) mod 64))
         (String (byteN (128 + (cp / 64) mod 64))
            (String (byteN (128 + cp mod 64)) EmptyString))).

Definition is_high_surrogate (cu : N) : bool := (55296 <=? cu)%N && (cu <=? 56319)%N.
Definition is_low_surrogate (cu : N) : bool := (56320 <=? cu)%N && (cu <=? 57343)%N.

(** The text of a pending high surrogate that found no partner. *)
Definition flush (hi : option N) : string :=
  match hi with
  | Some h => utf8 h
  | None => EmptyString
  end.

(** A code unit arrives after the pending [hi]: the text to emit and the
    new pending high surrogate. *)
Definition emit_unit (hi : option N) (cu : N) : string * option N :=
  match hi with
  | Some h =>
      if is_low_surrogate cu then
        (utf8 (65536 + (h - 55296) * 1024 + (cu - 56320))%N, None)
      else if is_high_surrogate cu then (utf8 h, Some cu)
      else ((utf8 h ++ utf8 cu)%string, None)
  | None =>
      if is_high_surrogate cu then (EmptyString, Some cu) else (utf8 cu, None)
  end.

Definition simple_escape (e : ascii) : option ascii :=
  if byte_is e 34 then Some DQUOTE
  else if byte_is e 92 then Some BACKSLASH
  else if byte_is e 47 then Some "/"%char
  else if byte_is e 98 then Some (ascii_of_nat 8)
  else if byte_is e 102 then Some (ascii_of_nat 12)
  else if byte_is e 110 then Some LF
  else if byte_is e 114 then Some (ascii_of_nat 13)
  else if byte_is e 116 then Some (ascii_of_nat 9)
  else None.

Definition prepend (p : string) (r : parse_result string) : parse_result string :=
  parsed_map (String.append p) r.

(** The characters of a JSON string after its opening quote, up to and
    including the closing quote. *)
Fixpoint lex_chars (hi : option N) (s : string) : parse_result string :=
  match s with
  | EmptyString => SyntaxError
  | String c r =>
      if byte_is c 34 then Parsed (flush hi) r
      else if byte_is c 92 then
        match r with
        | String e r1 =>
            if byte_is e 117 then
              match r1 with
              | String h1 (String h2 (String h3 (String h4 r2))) =>
                  match hex4 h1 h2 h3 h4 with
                  | Some cu =>
                      let (txt, hi') := emit_unit hi cu in
                      prepend txt (lex_chars hi' r2)
                  | None => SyntaxError
                  end
              | _ => SyntaxError
              end
            else
              match simple_escape e with
              | Some ch => prepend (flush hi ++ String ch EmptyString) (lex_chars None r1)
              | None => SyntaxError
              end
        | EmptyString => SyntaxError
        end
      else if Nat.ltb (nat_of_ascii c) 32 then SyntaxError
      else prepend (flush hi ++ String c EmptyString) (lex_chars None r)
  end.

(** JSONValue, its array elements and its object members. Each call
    spends one unit of fuel; [JSON_parse] supplies enough of it
    ([JSFacts.JSON_parse_total]). *)
Fixpoint parse_value (fuel : nat) (s : string) : parse_result json :=
  match fuel with
  | O => OutOfFuel
  | S f =>
      match s with
      | EmptyString => SyntaxError
      | String c r =>
          if byte_is c 123 then
            match skip_ws r with
            | String c1 r1 =>
                if byte_is c1 125 then Parsed (JObject []) r1
                else parsed_map JObject (parse_members f (skip_ws r))
            | EmptyString => SyntaxError
            end
          else if byte_is c 91 then
            match skip_ws r with
            | String c1 r1 =>
                if byte_is c1 93 then Parsed (JArray []) r1
                else parsed_map JArray (parse_elements f (skip_ws r))
            | EmptyString => SyntaxError
            end
          else if byte_is c 34 then parsed_map JString (lex_chars None r)
          else if byte_is c 45 || is_digit c then parsed_map JNumber (lex_number s)
          else if startsWith s "true" then Parsed (JBool true) (substring_from 4 s)
          else if startsWith s "false" then Parsed (JBool false) (substring_from 5 s)
          else if startsWith s "null" then Parsed JNull (substring_from 4 s)
          else SyntaxError
      end
  end

with parse_elements (fuel : nat) (s : string) : parse_result (list json) :=
  match fuel with
  | O => OutOfFuel
  | S f =>
      match parse_value f s with
      | Parsed v r =>
          match skip_ws r with
          | String c r1 =>
              if byte_is c 44 then parsed_map (cons v) (parse_elements f (skip_ws r1))
              else if byte_is c 93 then Parsed [v] r1
              else SyntaxError
          | EmptyString => SyntaxError
          end
      | SyntaxError => SyntaxError
      | OutOfFuel => OutOfFuel
      end
  end

with parse_members (fuel : nat) (s : string) : parse_result (list (string * json)) :=
  match fuel with
  | O => OutOfFuel
  | S f =>
      match s with
      | String q r =>
          if byte_is q 34 then
            match lex_chars None r with
            | Parsed k r1 =>
                match skip_ws r1 with
                | String c1 r2 =>
                    if byte_is c1 58 then
                      match parse_value f (skip_ws r2) with
                      | Parsed v r3 =>
                          match skip_ws r3 with
                          | String c2 r4 =>
                              if byte_is c2 44 then
                                parsed_map (cons (k, v)) (parse_members f (skip_ws r4))
                              else if byte_is c2 125 then Parsed [(k, v)] r4
                              else SyntaxError
                          | EmptyString => SyntaxError
                          end
                      | SyntaxError => SyntaxError
                      | OutOfFuel => OutOfFuel
                      end
                    else SyntaxError
                | EmptyString => SyntaxError
                end
            | SyntaxError => SyntaxError
            | OutOfFuel => OutOfFuel
            end
          else SyntaxError
      | EmptyString => SyntaxError
      end
  end.

(** JSONText: one value between white space, nothing after it. *)
Definition parse_text (s : string) : parse_result json :=
  match parse_value (2 * String.length s + 1) (skip_ws s) with
  | Parsed v r =>
      match skip_ws r with
      | EmptyString => Parsed v EmptyString
      | String _ _ => SyntaxError
      end
  | SyntaxError => SyntaxError
  | OutOfFuel => OutOfFuel
  end.

(** [JSON.parse(text)]: [None] when it throws a [SyntaxError]. *)
Definition JSON_parse (s : string) : option json :=
  match parse_text s with
  | Parsed v _ => Some v
  | _ => None
  end.

(** ** Numbers *)

(** What the platform does with a number: whether the double a literal
    denotes is zero (the only falsy numbers [JSON.parse] can produce) and
    how the double prints. Floating point is not modelled; the frontend is
    verified for every platform. *)
Class Numbers : Type := {
  number_is_zero : string -> bool;
  number_to_string : string -> string
}.

(** A platform for worked examples: a literal is zero when all the digits
    before its exponent are zeros, and prints as it is written (as
    JavaScript prints an integer written without sign, leading zeros,
    fraction or exponent, below 2^53). *)
Fixpoint mantissa_is_zero (l : string) : bool :=
  match l with
  | EmptyString => true
  | String c r =>
      if byte_is c 101 || byte_is c 69 then true
      else if is_digit c then byte_is c 48 && mantissa_is_zero r
      else mantissa_is_zero r
  end.

Definition literal_numbers : Numbers :=
  {| number_is_zero := mantissa_is_zero; number_to_string := fun l => l |}.

(** ** Completions, property access, truthiness, string conversion *)

Inductive error : Type :=
| ETypeError
| ESyntaxError
| EError (message : string).

Inductive completion (A : Type) : Type :=
| Normal (a : A)
| Throw (e : error).
Arguments Normal {A} a.
Arguments Throw {A} e.

(** The last member named [k]: a later duplicate overrides an earlier one. *)
Fixpoint lookup_last (k : string) (ms : list (string * json)) : value :=
  match ms with
  | [] => undefined
  | (k', v) :: r =>
      match lookup_last k r with
      | Some w => Some w
      | None => if String.eqb k' k then Some v else undefined
      end
  end.

Fixpoint digits_value (acc : nat) (s : string) : option nat :=
  match s with
  | EmptyString => Some acc
  | String c r =>
      if is_digit c then digits_value (10 * acc + (nat_of_ascii c - 48)) r else None
  end.

(** A property key that is an array index: a canonical decimal numeral. *)
Definition array_index (k : string) : option nat :=
  match k with
  | EmptyString => None
  | String c r =>
      if byte_is c 48 then match r with EmptyString => Some 0 | String _ _ => None end
      else digits_value 0 k
  end.

(** [v[k]] and [v.k] on a value that came from [JSON.parse]: reading a
    property of [undefined] or [null] throws a [TypeError]; objects hold
    their members, arrays and strings their indices (a string is indexed
    here by byte, in JavaScript by UTF-16 code unit: either way the result
    is a string, which has none of the members read). Inherited properties
    ([length], the methods of the prototypes) are left out: the frontend
    reads [choices], [0], [delta], [content], [node_name], [level] and
    [message] only. *)
Definition get (v : value) (k : string) : completion value :=
  match v with
  | None | Some JNull => Throw ETypeError
  | Some (JObject ms) => Normal (lookup_last k ms)
  | Some (JArray xs) =>
      Normal (match array_index k with Some i => nth_error xs i | None => undefined end)
  | Some (JString s) =>
      Normal (match array_index k with
              | Some i =>
                  match String.get i s with
                  | Some c => Some (JString (String c EmptyString))
                  | None => undefined
                  end
              | None => undefined
              end)
  | Some (JBool _) | Some (JNumber _) => Normal undefined
  end.

(** [Array.prototype.join] with a comma, [element] being the conversion
    of an element, which may throw. *)
Fixpoint join_with {A : Type} (element : A -> completion string) (l : list A)
  : completion string :=
  match l with
  | [] => Normal EmptyString
  | x :: r =>
      match element x with
      | Throw e => Throw e
      | Normal t =>
          match r with
          | [] => Normal t
          | _ :: _ =>
              match join_with element r with
              | Throw e => Throw e
              | Normal u => Normal (t ++ "," ++ u)%string
              end
          end
      end
  end.

Section WithNumbers.
Context {num : Numbers}.

(** ToBoolean *)
Definition truthy (v : value) : bool :=
  match v with
  | None | Some JNull => false
  | Some (JBool b) => b
  | Some (JNumber l) => negb (number_is_zero l)
  | Some (JString s) => negb (String.eqb s EmptyString)
  | Some (JArray _) | Some (JObject _) => true
  end.

(** ToString, as string concatenation and template literals apply it to
    a value that came from [JSON.parse]. An array prints its elements
    joined by commas, [null] elements as nothing. An object prints as
    [[object Object]] through the [toString] it inherits; when it has a
    member of its own named [toString], that member is what is looked up,
    it is no function, the inherited [valueOf] returns the object itself,
    and the conversion throws a [TypeError] (a member named [valueOf]
    changes nothing: the inherited [toString] still answers). So does the
    conversion of an array that holds such an object. *)
Fixpoint to_string (v : json) : completion string :=
  match v with
  | JNull => Normal "null"
  | JBool true => Normal "true"
  | JBool false => Normal "false"
  | JNumber l => Normal (number_to_string l)
  | JString s => Normal s
  | JArray xs =>
      join_with (fun x => match x with JNull => Normal EmptyString | _ => to_string x end) xs
  | JObject ms =>
      match lookup_last "toString" ms with
      | Some _ => Throw ETypeError
      | None => Normal "[object Object]"
      end
  end.

(** [s + v] and [`s${v}`] for a string [s]; [undefined] prints as its
    name. *)
Definition concat_value (s : string) (v : value) : completion string :=
  match v with
  | Some j =>
      match to_string j with
      | Normal t => Normal (s ++ t)%string
      | Throw e => Throw e
      end
  | None => Normal (s ++ "undefined")%string
  end.

End WithNumbers.

(** A non-negative integer inside a template literal. *)
Definition string_of_nat (n : nat) : string := NilZero.string_of_uint (Nat.to_uint n).

(** [try { body } catch (e) { handler e }] where no state is involved. *)
Definition catch {A : Type} (body : completion A) (handler : error -> completion A)
  : completion A :=
  match body with
  | Normal a => Normal a
  | Throw e => handler e
  end.

(** ** State and exceptions *)

(** A computation over a state [S] that completes normally or throws; the
    state it leaves behind survives the throw. *)
Definition M (S A : Type) : Type := S -> completion A * S.

Definition ret {S A : Type} (a : A) : M S A := fun s => (Normal a, s).

Definition bind {S A B : Type} (m : M S A) (k : A -> M S B) : M S B :=
  fun s =>
    match m s with
    | (Normal a, s') => k a s'
    | (Throw e, s') => (Throw e, s')
    end.

Definition throw {S A : Type} (e : error) : M S A := fun s => (Throw e, s).

Definition lift {S A : Type} (c : completion A) : M S A := fun s => (c, s).

Definition modify {S : Type} (f : S -> S) : M S unit := fun s => (Normal tt, f s).

Definition read {S A : Type} (f : S -> A) : M S A := fun s => (Normal (f s), s).

(** [try { body } catch (e) { handler e }] *)
Definition try_catch {S A : Type} (body : M S A) (handler : error -> M S A) : M S A :=
  fun s =>
    match body s with
    | (Normal a, s') => (Normal a, s')
    | (Throw e, s') => handler e s'
    end.

(** [try { body } finally { cleanup }] *)
Definition try_finally {S A : Type} (body : M S A) (cleanup : M S unit) : M S A :=
  fun s =>
    match body s with
    | (c, s') =>
        match cleanup s' with
        | (Normal _, s'') => (c, s'')
        | (Throw e, s'') => (Throw e, s'')
        end
    end.

(** [for (const x of l) { body x }] *)
Fixpoint for_of {S A : Type} (l : list A) (body : A -> M S unit) : M S unit :=
  match l with
  | [] => ret tt
  | x :: r => bind (body x) (fun _ => for_of r body)
  end.

Declare Scope js_scope.
Notation "x <- m ;; k" := (bind m (fun x => k))
  (at level 61, m at next level, right associativity) : js_scope.
Notation "m ;; k" := (bind m (fun _ => k))
  (at level 61, right associativity) : js_scope.

End JS.


(* ================================================================== *)
(** * Requests to the gateway                                          *)
(* ================================================================== *)

Module Http.
Import JS.

(** A chat message, [{ role, content }]. *)
Record message : Type := { role : string; content : string }.

Inductive http_method : Type := GET | POST.

(** A value of a [FormData] entry: a file or a text. *)
Inductive form_value : Type :=
| FormFile (name : string)
| FormText (text : string).

Inductive request_body : Type :=
| NoBody
| ChatBody (messages : list message) (model : option string) (stream : bool)
      (* JSON.stringify({ messages, model, stream }) with its Content-Type header *)
| FormBody (entries : list (string * form_value)).

Record request : Type := {
  method : http_method;
  url : string;
  body : request_body
}.

(** The JSON bodies of the dataset endpoints, read at the types the
    data model gives them. *)
Record job_result : Type := { original : json; output : json }.

(** The members of a status answer that the frontend reads. A member that
    is absent or [null] is [None], and so is an entry of [results] that is
    [null]. *)
Record job_snapshot : Type := {
  status : option string;
  total_items : option nat;
  processed_items : option nat;
  results : option (list (option job_result))
}.

(** The body of a status answer: the JSON [null], or a value with its
    members. *)
Inductive status_body : Type :=
| BodyNull
| BodyOf (snap : job_snapshot).

(** The answer to an upload: [{ job_id }], or an error with its
    [{ detail }]; an absent member is [None]. *)
Record upload_response : Type := {
  job_id : option string;
  detail : option string
}.

(** What the frontend sees of a [fetch] whose body it reads with
    [response.json()]: the promise rejects, or it resolves to a response
    with its [ok] flag and status, whose [json()] resolves to a value of
    type [B] or rejects ([None]). *)
Inductive fetch_result (B : Type) : Type :=
| Rejected
| Response (ok : bool) (status : nat) (json_body : option B).
Arguments Rejected {B}.
Arguments Response {B} ok status json_body.

(** An asynchronous function with one request: the request it issues and
    how it goes on once the request has an outcome. *)
Record call (B A : Type) : Type := {
  issued : request;
  resume : fetch_result B -> completion A
}.
Arguments issued {B A} c.
Arguments resume {B A} c r.

(** The table of the public API, base path [/api/v1]: four GET
    endpoints, the chat completions with their JSON body, the upload with
    its form data of a file and, optionally, a count. *)
Definition api_endpoint (r : request) : Prop :=
  (method r = GET /\ body r = NoBody /\
   (url r = "/api/v1/status/all" \/ url r = "/api/v1/alerts" \/ url r = "/api/v1/models"
    \/ exists job_id, url r = ("/api/v1/dataset/status/" ++ job_id)%string))
  \/ (method r = POST /\ url r = "/api/v1/chat/completions" /\
      exists ms model stream, body r = ChatBody ms model stream)
  \/ (method r = POST /\ url r = "/api/v1/dataset/upload" /\
      exists f rest,
        body r = FormBody (("file", FormFile f) :: rest) /\
        (rest = [] \/ exists c, c <> EmptyString /\ rest = [("data_count", FormText c)])).

(** The GET that an event source opens on the chat endpoint. *)
Definition event_source_request : request :=
  {| method := GET; url := "/api/v1/chat/completions"; body := NoBody |}.

End Http.

(* ================================================================== *)
(** * api.js                                                           *)
(* ================================================================== *)

Module Api.
Import JS Http.

Definition API_BASE_URL : string := "/api/v1".

(** [fetch(url)] with no options: a GET without a body. *)
Definition fetch_get (u : string) : request :=
  {| method := GET; url := u; body := NoBody |}.

(** [await fetch(...)]: a rejected promise throws at the [await]. *)
Definition await_fetch {B : Type} (r : fetch_result B) : completion (bool * nat * option B) :=
  match r with
  | Rejected => Throw ETypeError
  | Response ok status b => Normal (ok, status, b)
  end.

(** [await response.json()] *)
Definition await_json {B : Type} (b : option B) : completion B :=
  match b with
  | Some v => Normal v
  | None => Throw ESyntaxError
  end.

Definition fetchNodeStatuses : call json json :=
  {| issued := fetch_get (API_BASE_URL ++ "/status/all");
     resume := fun r =>
       catch
         (match await_fetch r with
          | Normal (ok, status, b) =>
              if negb ok then Throw (EError ("API Error: " ++ string_of_nat status))
              else await_json b
          | Throw e => Throw e
          end)
         (fun _ => Normal (JArray [])) |}.

Definition fetchAlerts : call json json :=
  {| issued := fetch_get (API_BASE_URL ++ "/alerts");
     resume := fun r =>
       catch
         (match await_fetch r with
          | Normal (ok, status, b) =>
              if negb ok then Throw (EError ("API Error: " ++ string_of_nat status))
              else await_json b
          | Throw e => Throw e
          end)
         (fun _ => Normal (JArray [])) |}.

Definition fetchAvailableModels : call json json :=
  {| issued := fetch_get (API_BASE_URL ++ "/models");
     resume := fun r =>
       catch
         (match await_fetch r with
          | Normal (ok, status, b) =>
              if negb ok then Throw (EError ("API Error: " ++ string_of_nat status))
              else await_json b
          | Throw e => Throw e
          end)
         (fun _ => Normal (JArray [])) |}.

Definition uploadDataset (formData : list (string * form_value))
  : call upload_response upload_response :=
  {| issued := {| method := POST;
                  url := API_BASE_URL ++ "/dataset/upload";
                  body := FormBody formData |};
     resume := fun r =>
       match await_fetch r with
       | Normal (_, _, b) => await_json b
       | Throw e => Throw e
       end |}.

Definition fetchJobStatus (jobId : string) : call status_body status_body :=
  {| issued := fetch_get (API_BASE_URL ++ "/dataset/status/" ++ jobId);
     resume := fun r =>
       match await_fetch r with
       | Normal (ok, _, b) =>
           if negb ok
           then Throw (EError ("Failed to fetch status for job " ++ jobId))
           else await_json b
       | Throw e => Throw e
       end |}.

End Api.

(* ================================================================== *)
(** * The UI management module                                         *)
(* ================================================================== *)

Module Ui.
Import JS.

(** A child of the alerts container: the [div] built for an alert, with
    its class attribute and the two interpolated texts of its markup, or
    the paragraph shown when there is no alert. *)
Inductive alert_node : Type :=
| AlertDiv (className : string) (level_text : string) (message_text : string)
| NoAlertParagraph.

Definition CRITICAL_LEVEL : string := "严重".

Definition red_classes : string := "bg-red-900 border border-red-700".
Definition yellow_classes : string := "bg-yellow-900 border border-yellow-700".

(** [v === s] for a string [s]: strict equality, no conversion. *)
Definition strict_eq_string (v : value) (s : string) : bool :=
  match v with
  | Some (JString t) => String.eqb t s
  | _ => false
  end.

Section WithNumbers.
Context {num : Numbers}.

(** The body of the [forEach] callback: the element built for one alert.
    The class attribute is computed first; the template of the markup then
    converts the level and the message to strings, in that order. *)
Definition alert_element (alert : json) : completion alert_node :=
  match get (Some alert) "level" with
  | Throw e => Throw e
  | Normal level =>
      let className :=
        ("p-3 rounded-lg mb-2 flex items-center "
           ++ (if strict_eq_string level CRITICAL_LEVEL
               then red_classes else yellow_classes))%string in
      match concat_value EmptyString level with
      | Throw e => Throw e
      | Normal level_text =>
          match get (Some alert) "message" with
          | Throw e => Throw e
          | Normal message =>
              match concat_value EmptyString message with
              | Throw e => Throw e
              | Normal message_text =>
                  Normal (AlertDiv className level_text message_text)
              end
          end
      end
  end.

(** [alerts.length === 0] *)
Definition length_is_zero (alerts : json) : completion bool :=
  match alerts with
  | JNull => Throw ETypeError
  | JArray xs => Normal (Nat.eqb (List.length xs) 0)
  | JString t => Normal (Nat.eqb (String.length t) 0)
  | JObject ms =>
      Normal (match lookup_last "length" ms with
              | Some (JNumber l) => number_is_zero l
              | _ => false
              end)
  | JBool _ | JNumber _ => Normal false
  end.

(** [updateAlerts(alerts)] on the children of the alerts container, when
    the page has one ([None]: the function returns at once). Only an
    array has a [forEach]. *)
Definition updateAlerts (alerts : json) : M (option (list alert_node)) unit :=
  fun alertsContainer =>
    match alertsContainer with
    | None => (Normal tt, None)
    | Some _ =>
        let cleared : list alert_node := [] in
        match length_is_zero alerts with
        | Throw e => (Throw e, Some cleared)
        | Normal true => (Normal tt, Some [NoAlertParagraph])
        | Normal false =>
            match alerts with
            | JArray xs =>
                for_of xs
                  (fun alert container =>
                     match alert_element alert with
                     | Normal el =>
                         (Normal tt, option_map (fun c => c ++ [el]) container)
                     | Throw e => (Throw e, container)
                     end)
                  (Some cleared)
            | _ => (Throw ETypeError, Some cleared)
            end
        end
    end.

End WithNumbers.

(** The styling of a rendered alert. *)
Definition styled_critical (n : alert_node) : Prop :=
  match n with
  | AlertDiv cls _ _ => cls = ("p-3 rounded-lg mb-2 flex items-center " ++ red_classes)%string
  | NoAlertParagraph => False
  end.

Definition styled_warning (n : alert_node) : Prop :=
  match n with
  | AlertDiv cls _ _ => cls = ("p-3 rounded-lg mb-2 flex items-center " ++ yellow_classes)%string
  | NoAlertParagraph => False
  end.

End Ui.

(* ================================================================== *)
(** * main.js                                                          *)
(* ================================================================== *)

Module Main.
Import JS Http.

(** The three values [appTick] destructures from [Promise.all] and hands
    to the UI. *)
Record dashboard_data : Type := {
  nodes : json;
  alerts : json;
  models : json
}.

(** The requests one tick issues, in the order of the calls. *)
Definition appTick_requests : list request :=
  [issued Api.fetchNodeStatuses; issued Api.fetchAlerts; issued Api.fetchAvailableModels].

(** [await Promise.all([...])]: the three results, or the first
    rejection. *)
Definition appTick_data (rn ra rm : fetch_result json) : completion dashboard_data :=
  match resume Api.fetchNodeStatuses rn with
  | Throw e => Throw e
  | Normal n =>
      match resume Api.fetchAlerts ra with
      | Throw e => Throw e
      | Normal a =>
          match resume Api.fetchAvailableModels rm with
          | Throw e => Throw e
          | Normal m => Normal {| nodes := n; alerts := a; models := m |}
          end
      end
  end.

End Main.

(* ================================================================== *)
(** * dataset.js                                                       *)
(* ================================================================== *)

Module Dataset.
Import JS Http.
Local Open Scope js_scope.

(** A child of the results container: the [div] built for one result; its
    markup interpolates [JSON.stringify] of the two members. *)
Record result_node : Type := {
  className : string;
  shown_original : json;
  shown_output : json
}.

(** [jobProgress.style.width]: the percentage computed from the two
    counters, the first of which may be missing, or zero when there is no
    item. *)
Inductive progress_width : Type :=
| WidthZero
| WidthRatio (processed : option nat) (total : nat).

(** A text made by a template literal: its fixed parts and the values it
    interpolates, a counter or a status of the body, either of which may
    be missing. *)
Inductive text_part : Type :=
| Fixed (text : string)
| Counter (n : option nat)
| Word (w : option string).

(** The module's variables, the elements of the page it touches, and the
    part of the browser it drives: the table of active intervals with
    their periods, the [alert] boxes shown, the requests sent. *)
Record state : Type := {
  currentJobId : option string;
  jobStatusInterval : option positive;
  fileInput_files : list string;
  dataCountInput_value : string;
  jobStatusContainer_hidden : bool;
  jobProgress_width : progress_width;
  jobProgressText : list text_part;
  jobResults : list result_node;
  intervals : list (positive * nat);
  next_handle : positive;
  alerts : list string;
  requests : list request
}.

Definition initial : state :=
  {| currentJobId := None; jobStatusInterval := None;
     fileInput_files := []; dataCountInput_value := EmptyString;
     jobStatusContainer_hidden := true;
     jobProgress_width := WidthZero; jobProgressText := [];
     jobResults := []; intervals := []; next_handle := 1%positive;
     alerts := []; requests := [] |}.

Definition set_currentJobId (v : option string) (s : state) : state :=
  {| currentJobId := v; jobStatusInterval := jobStatusInterval s;
     fileInput_files := fileInput_files s; dataCountInput_value := dataCountInput_value s;
     jobStatusContainer_hidden := jobStatusContainer_hidden s;
     jobProgress_width := jobProgress_width s; jobProgressText := jobProgressText s;
     jobResults := jobResults s; intervals := intervals s; next_handle := next_handle s;
     alerts := alerts s; requests := requests s |}.

Definition set_jobStatusInterval (v : option positive) (s : state) : state :=
  {| currentJobId := currentJobId s; jobStatusInterval := v;
     fileInput_files := fileInput_files s; dataCountInput_value := dataCountInput_value s;
     jobStatusContainer_hidden := jobStatusContainer_hidden s;
     jobProgress_width := jobProgress_width s; jobProgressText := jobProgressText s;
     jobResults := jobResults s; intervals := intervals s; next_handle := next_handle s;
     alerts := alerts s; requests := requests s |}.

Definition set_inputs (files : list string) (count : string) (s : state) : state :=
  {| currentJobId := currentJobId s; jobStatusInterval := jobStatusInterval s;
     fileInput_files := files; dataCountInput_value := count;
     jobStatusContainer_hidden := jobStatusContainer_hidden s;
     jobProgress_width := jobProgress_width s; jobProgressText := jobProgressText s;
     jobResults := jobResults s; intervals := intervals s; next_handle := next_handle s;
     alerts := alerts s; requests := requests s |}.

Definition set_jobStatusContainer_hidden (v : bool) (s : state) : state :=
  {| currentJobId := currentJobId s; jobStatusInterval := jobStatusInterval s;
     fileInput_files := fileInput_files s; dataCountInput_value := dataCountInput_value s;
     jobStatusContainer_hidden := v;
     jobProgress_width := jobProgress_width s; jobProgressText := jobProgressText s;
     jobResults := jobResults s; intervals := intervals s; next_handle := next_handle s;
     alerts := alerts s; requests := requests s |}.

Definition set_jobProgress_width (v : progress_width) (s : state) : state :=
  {| currentJobId := currentJobId s; jobStatusInterval := jobStatusInterval s;
     fileInput_files := fileInput_files s; dataCountInput_value := dataCountInput_value s;
     jobStatusContainer_hidden := jobStatusContainer_hidden s;
     jobProgress_width := v; jobProgressText := jobProgressText s;
     jobResults := jobResults s; intervals := intervals s; next_handle := next_handle s;
     alerts := alerts s; requests := requests s |}.

Definition set_jobProgressText (v : list text_part) (s : state) : state :=
  {| currentJobId := currentJobId s; jobStatusInterval := jobStatusInterval s;
     fileInput_files := fileInput_files s; dataCountInput_value := dataCountInput_value s;
     jobStatusContainer_hidden := jobStatusContainer_hidden s;
     jobProgress_width := jobProgress_width s; jobProgressText := v;
     jobResults := jobResults s; intervals := intervals s; next_handle := next_handle s;
     alerts := alerts s; requests := requests s |}.

Definition set_jobResults (v : list result_node) (s : state) : state :=
  {| currentJobId := currentJobId s; jobStatusInterval := jobStatusInterval s;
     fileInput_files := fileInput_files s; dataCountInput_value := dataCountInput_value s;
     jobStatusContainer_hidden := jobStatusContainer_hidden s;
     jobProgress_width := jobProgress_width s; jobProgressText := jobProgressText s;
     jobResults := v; intervals := intervals s; next_handle := next_handle s;
     alerts := alerts s; requests := requests s |}.

Definition set_intervals (v : list (positive * nat)) (n : positive) (s : state) : state :=
  {| currentJobId := currentJobId s; jobStatusInterval := jobStatusInterval s;
     fileInput_files := fileInput_files s; dataCountInput_value := dataCountInput_value s;
     jobStatusContainer_hidden := jobStatusContainer_hidden s;
     jobProgress_width := jobProgress_width s; jobProgressText := jobProgressText s;
     jobResults := jobResults s; intervals := v; next_handle := n;
     alerts := alerts s; requests := requests s |}.

Definition set_alerts (v : list string) (s : state) : state :=
  {| currentJobId := currentJobId s; jobStatusInterval := jobStatusInterval s;
     fileInput_files := fileInput_files s; dataCountInput_value := dataCountInput_value s;
     jobStatusContainer_hidden := jobStatusContainer_hidden s;
     jobProgress_width := jobProgress_width s; jobProgressText := jobProgressText s;
     jobResults := jobResults s; intervals := intervals s; next_handle := next_handle s;
     alerts := v; requests := requests s |}.

Definition set_requests (v : list request) (s : state) : state :=
  {| currentJobId := currentJobId s; jobStatusInterval := jobStatusInterval s;
     fileInput_files := fileInput_files s; dataCountInput_value := dataCountInput_value s;
     jobStatusContainer_hidden := jobStatusContainer_hidden s;
     jobProgress_width := jobProgress_width s; jobProgressText := jobProgressText s;
     jobResults := jobResults s; intervals := intervals s; next_handle := next_handle s;
     alerts := alerts s; requests := v |}.

(** ** The browser *)

(** [setInterval(callback, period)]: a fresh handle, greater than zero. *)
Definition setInterval (period : nat) (s : state) : positive * state :=
  let h := next_handle s in
  (h, set_intervals (intervals s ++ [(h, period)]) (Pos.succ h) s).

(** [clearInterval(handle)]: nothing happens for [null]. *)
Definition clearInterval (handle : option positive) (s : state) : state :=
  match handle with
  | Some h =>
      set_intervals (filter (fun e => negb (Pos.eqb (fst e) h)) (intervals s))
                    (next_handle s) s
  | None => s
  end.

(** [alert(text)] *)
Definition alert (text : string) (s : state) : state :=
  set_alerts (alerts s ++ [text]) s.

(** A [fetch] leaves the page. *)
Definition send (r : request) (s : state) : state :=
  set_requests (requests s ++ [r]) s.

(** A string in a condition: the empty string is falsy. *)
Definition nonempty (t : string) : bool := negb (String.eqb t EmptyString).

(** ** renderJobResults *)

Definition resultEl (result : job_result) : result_node :=
  {| className := "p-3 bg-gray-700 rounded-md text-sm";
     shown_original := original result;
     shown_output := output result |}.

(** The loop [for (let i = ...; i < results.length; i++)]; [trips] bounds
    the number of iterations. *)
Fixpoint render_loop (trips i : nat) (results : list job_result)
    (children : list result_node) : list result_node :=
  match trips with
  | O => children
  | S t =>
      if Nat.ltb i (List.length results) then
        match nth_error results i with
        | Some result => render_loop t (S i) results (children ++ [resultEl result])
        | None => children
        end
      else children
  end.

Definition renderJobResults (results : list job_result) (s : state) : state :=
  let renderedCount := List.length (jobResults s) in
  set_jobResults
    (render_loop (List.length results - renderedCount) renderedCount results (jobResults s))
    s.

(** The same loop over the entries of a status body, which may be
    [null]: reading [result.original] of such an entry throws, when the
    entries before it have been appended. *)
Fixpoint render_entries (trips i : nat) (results : list (option job_result))
    (children : list result_node) : completion unit * list result_node :=
  match trips with
  | O => (Normal tt, children)
  | S t =>
      if Nat.ltb i (List.length results) then
        match nth_error results i with
        | Some (Some result) =>
            render_entries t (S i) results (children ++ [resultEl result])
        | Some None => (Throw ETypeError, children)
        | None => (Normal tt, children)
        end
      else (Normal tt, children)
  end.

(** [renderJobResults(status.results)], as [updateJobStatus] calls it:
    without the member, reading [results.length] throws before anything is
    appended. On an array of result objects this is [renderJobResults]. *)
Definition renderJobResults_member (results : option (list (option job_result)))
  : M state unit :=
  fun s =>
    let renderedCount := List.length (jobResults s) in
    match results with
    | Some entries =>
        let (c, children) :=
          render_entries (List.length entries - renderedCount) renderedCount entries
                         (jobResults s) in
        (c, set_jobResults children s)
    | None => (Throw ETypeError, s)
    end.

(** ** startJobMonitoring *)

Definition startJobMonitoring (s : state) : state :=
  let s1 :=
    match jobStatusInterval s with
    | Some h => clearInterval (Some h) s
    | None => s
    end in
  let (h, s2) := setInterval 2000 s1 in
  set_jobStatusInterval (Some h) s2.

(** ** handleFormSubmit *)

(** The form data that is uploaded. *)
Definition formData_of (s : state) : list (string * form_value) :=
  match fileInput_files s with
  | [] => []
  | f :: _ =>
      [("file", FormFile f)]
        ++ (if nonempty (dataCountInput_value s)
            then [("data_count", FormText (dataCountInput_value s))]
            else [])
  end.

(** Up to [await uploadDataset(formData)]. *)
Definition handleFormSubmit_begin (s : state) : state :=
  match fileInput_files s with
  | [] => alert "请选择一个数据集文件 (JSON)." s
  | _ :: _ => send (issued (Api.uploadDataset (formData_of s))) s
  end.

(** From the outcome of the upload on. The form data plays no part in
    how [uploadDataset] resumes. The text of an error of the platform (a
    rejected fetch, an unreadable body) is not modelled. *)
Definition handleFormSubmit_resume (r : fetch_result upload_response) (s : state) : state :=
  let body : completion state :=
    match resume (Api.uploadDataset []) r with
    | Throw e => Throw e
    | Normal response =>
        match job_id response with
        | Some id =>
            if nonempty id then
              Normal (startJobMonitoring
                        (set_jobResults []
                           (set_jobStatusContainer_hidden false
                              (set_currentJobId (Some id) s))))
            else
              Throw (EError (match detail response with
                             | Some d => if nonempty d then d else "Failed to start job."
                             | None => "Failed to start job."
                             end))
        | None =>
            Throw (EError (match detail response with
                           | Some d => if nonempty d then d else "Failed to start job."
                           | None => "Failed to start job."
                           end))
        end
    end in
  match body with
  | Normal s' => s'
  | Throw (EError m) => alert ("Error: " ++ m) s
  | Throw _ => alert "Error: " s
  end.

(** ** updateJobStatus *)

(** Up to [await fetchJobStatus(currentJobId)]: nothing is sent without a
    job. *)
Definition updateJobStatus_begin (s : state) : state :=
  match currentJobId s with
  | Some id => if nonempty id then send (issued (Api.fetchJobStatus id)) s else s
  | None => s
  end.

Definition terminal (st : string) : bool :=
  String.eqb st "completed" || String.eqb st "failed".

(** [status.status === 'completed' || status.status === 'failed'] *)
Definition terminal_status (st : option string) : bool :=
  match st with
  | Some t => terminal t
  | None => false
  end.

(** Reading a member of the body: [null] has none. *)
Definition members (b : status_body) : completion job_snapshot :=
  match b with
  | BodyOf snap => Normal snap
  | BodyNull => Throw ETypeError
  end.

(** The text of the progress line, after its heading. *)
Definition progress_line (heading : string) (status : job_snapshot) : list text_part :=
  [Fixed heading; Counter (processed_items status); Fixed " / ";
   Counter (total_items status); Fixed " ("; Word (Http.status status); Fixed ")"].

(** The [try] block, from the outcome of the status request on. *)
Definition updateJobStatus_try (jobId : string) (r : fetch_result status_body)
  : M state unit :=
  body <- lift (resume (Api.fetchJobStatus jobId) r) ;;
  status <- lift (members body) ;;
  let progressPercent :=
    match total_items status with
    | Some total =>
        if Nat.ltb 0 total then WidthRatio (processed_items status) total else WidthZero
    | None => WidthZero
    end in
  modify (set_jobProgress_width progressPercent) ;;
  modify (set_jobProgressText (progress_line "处理中: " status)) ;;
  renderJobResults_member (results status) ;;
  if terminal_status (Http.status status) then
    modify (fun s => clearInterval (jobStatusInterval s) s) ;;
    modify (set_jobStatusInterval None) ;;
    modify (set_jobProgressText (progress_line "任务完成: " status))
  else ret tt.

(** The [catch] block: whatever was thrown, by the request, by reading
    the body or by the rendering, the polling stops. *)
Definition updateJobStatus_catch (e : error) : M state unit :=
  modify (fun s => clearInterval (jobStatusInterval s) s) ;;
  modify (set_jobStatusInterval None) ;;
  modify (set_jobProgressText [Fixed "错误: 无法获取任务状态"]).

(** From the outcome of the status request on; [jobId] is the job the
    request was sent for. *)
Definition updateJobStatus_resume (jobId : string) (r : fetch_result status_body)
    (s : state) : state :=
  snd (try_catch (updateJobStatus_try jobId r) updateJobStatus_catch s).

(** ** The module at work *)

(** What happens to the module: the user fills in the form or submits
    it, the browser runs the callback of an interval, a pending request
    settles. *)
Inductive event : Type :=
| FillsIn (files : list string) (count : string)
| Submits
| UploadSettles (r : fetch_result upload_response)
| IntervalFires (h : positive)
| StatusSettles (jobId : string) (r : fetch_result status_body).

(** An interval that was cleared does not fire. *)
Definition active (h : positive) (s : state) : bool :=
  existsb (fun e => Pos.eqb (fst e) h) (intervals s).

Definition step (e : event) (s : state) : state :=
  match e with
  | FillsIn files count => set_inputs files count s
  | Submits => handleFormSubmit_begin s
  | UploadSettles r => handleFormSubmit_resume r s
  | IntervalFires h => if active h s then updateJobStatus_begin s else s
  | StatusSettles jobId r => updateJobStatus_resume jobId r s
  end.

Definition run (es : list event) (s : state) : state :=
  fold_left (fun s e => step e s) es s.



(** ** The vocabulary of the properties *)

(** The results array of each snapshot extends the one before it. *)
Fixpoint append_only (prev : list job_result) (snaps : list (list job_result)) : Prop :=
  match snaps with
  | [] => True
  | r :: rest => (exists ext, r = prev ++ ext) /\ append_only r rest
  end.

(** The children of the results container after each poll of a sequence. *)
Fixpoint displays (snaps : list (list job_result)) (s : state) : list (list result_node) :=
  match snaps with
  | [] => []
  | r :: rest =>
      let s' := renderJobResults r s in
      jobResults s' :: displays rest s'
  end.

(** The interval of the module is the only one it has running, with a
    period of two seconds. *)
Definition one_interval (s : state) : Prop :=
  intervals s = match jobStatusInterval s with
                | Some h => [(h, 2000)]
                | None => []
                end.


(** What [updateJobStatus] observes: the fetch fails (the promise rejects,
    the response is not ok, or its body is not readable), or it delivers a
    body, [null] or a snapshot. *)
Definition fetch_fails (r : fetch_result status_body) : Prop :=
  r = Rejected \/ (exists code b, r = Response false code b)
  \/ (exists code, r = Response true code None).

Definition delivers_null (r : fetch_result status_body) : Prop :=
  exists code, r = Response true code (Some BodyNull).

Definition delivers (r : fetch_result status_body) (snap : job_snapshot) : Prop :=
  exists code, r = Response true code (Some (BodyOf snap)).

(** An entry that is a result object. *)
Definition present {A : Type} (entry : option A) : bool :=
  match entry with
  | Some _ => true
  | None => false
  end.

(** The results of a snapshot can be rendered on the page as it is: the
    member is there, and none of its entries from the number of children
    on is [null]. *)
Definition renderable (snap : job_snapshot) (s : state) : bool :=
  match results snap with
  | Some entries => forallb present (skipn (List.length (jobResults s)) entries)
  | None => false
  end.

(** A job of three items, for worked examples. *)
Definition item (n : string) : job_result :=
  {| original := JObject [("q", JString n)]; output := JString n |}.

Definition snapshot (st : string) (done : list job_result) : status_body :=
  BodyOf {| status := Some st; total_items := Some 3;
            processed_items := Some (List.length done);
            results := Some (map Some done) |}.


Definition job_started : list event :=
  [FillsIn ["items.json"] "3"; Submits;
   UploadSettles (Response true 200 (Some {| job_id := Some "7f3a"; detail := None |}));
   IntervalFires 1;
   StatusSettles "7f3a" (Response true 200 (Some (snapshot "running" [item "a"])))].

End Dataset.

(* ================================================================== *)
(** * chat.js                                                          *)
(* ================================================================== *)

Module Chat.
Import JS Http.
Local Open Scope js_scope.

(** ** The page, the network and the variables of an invocation *)

(** Markup assigned to [innerHTML]: what [marked.parse] makes of a
    Markdown text, or markup written out in the source. *)
Inductive html : Type :=
| marked_parse (src : string)
| markup (text : string).

(** An element appended to the chat window, as it was when appended: a
    message with the streaming class or without it, or the notification
    of a node assignment with its text. *)
Inductive chat_node : Type :=
| MessageElement (isUser isStreaming : bool) (contentHTML : html)
| Notification (textContent : string).

(** What the module does on the network: [fetch] sends a request,
    [new EventSource(url)] opens a GET stream on [url]; an event source
    can be given handlers and can be closed. *)
Inductive net_effect : Type :=
| Fetch (r : request)
| EventSourceOpen (u : string)
| EventSourceListen (u : string) (type : string)
| EventSourceClose (u : string).

(** The module's variable [conversationHistory], the controls of the page
    and the effects so far. *)
Record state : Type := {
  conversationHistory : list message;
  messageInput_value : string;
  sendButton_disabled : bool;
  modelSelect_value : string;
  chatWindow : list chat_node;
  network : list net_effect
}.

Definition initial : state :=
  {| conversationHistory := []; messageInput_value := EmptyString;
     sendButton_disabled := false; modelSelect_value := EmptyString;
     chatWindow := []; network := [] |}.

(** The variables of one invocation of [sendMessage] that live across its
    [await]s: the assistant message object, the content element and the
    streaming class of its message element, the line buffer. *)
Record locals : Type := {
  assistantMessage : message;
  contentElement_innerHTML : html;
  element_streaming : bool;
  buffer : string
}.

Record world : Type := { page : state; me : locals }.

Definition set_history (v : list message) (s : state) : state :=
  {| conversationHistory := v; messageInput_value := messageInput_value s;
     sendButton_disabled := sendButton_disabled s; modelSelect_value := modelSelect_value s;
     chatWindow := chatWindow s; network := network s |}.

Definition set_messageInput_value (v : string) (s : state) : state :=
  {| conversationHistory := conversationHistory s; messageInput_value := v;
     sendButton_disabled := sendButton_disabled s; modelSelect_value := modelSelect_value s;
     chatWindow := chatWindow s; network := network s |}.

Definition set_sendButton_disabled (v : bool) (s : state) : state :=
  {| conversationHistory := conversationHistory s;
     messageInput_value := messageInput_value s;
     sendButton_disabled := v; modelSelect_value := modelSelect_value s;
     chatWindow := chatWindow s; network := network s |}.

Definition set_chatWindow (v : list chat_node) (s : state) : state :=
  {| conversationHistory := conversationHistory s;
     messageInput_value := messageInput_value s;
     sendButton_disabled := sendButton_disabled s; modelSelect_value := modelSelect_value s;
     chatWindow := v; network := network s |}.

Definition set_network (v : list net_effect) (s : state) : state :=
  {| conversationHistory := conversationHistory s;
     messageInput_value := messageInput_value s;
     sendButton_disabled := sendButton_disabled s; modelSelect_value := modelSelect_value s;
     chatWindow := chatWindow s; network := v |}.

Definition set_content (v : string) (l : locals) : locals :=
  {| assistantMessage := {| role := role (assistantMessage l); content := v |};
     contentElement_innerHTML := contentElement_innerHTML l;
     element_streaming := element_streaming l; buffer := buffer l |}.

Definition set_innerHTML (v : html) (l : locals) : locals :=
  {| assistantMessage := assistantMessage l; contentElement_innerHTML := v;
     element_streaming := element_streaming l; buffer := buffer l |}.

Definition set_streaming (v : bool) (l : locals) : locals :=
  {| assistantMessage := assistantMessage l;
     contentElement_innerHTML := contentElement_innerHTML l;
     element_streaming := v; buffer := buffer l |}.

Definition set_buffer (v : string) (l : locals) : locals :=
  {| assistantMessage := assistantMessage l;
     contentElement_innerHTML := contentElement_innerHTML l;
     element_streaming := element_streaming l; buffer := v |}.

Definition on_page (f : state -> state) : M world unit :=
  modify (fun w => {| page := f (page w); me := me w |}).

Definition on_me (f : locals -> locals) : M world unit :=
  modify (fun w => {| page := page w; me := f (me w) |}).

(** A string in a condition: the empty string is falsy. *)
Definition nonempty (t : string) : bool := negb (String.eqb t EmptyString).

(** ** renderMessage and displayNodeAssignment *)

(** [renderMessage(message, isStreaming)]: the element appended. *)
Definition renderMessage (m : message) (isStreaming : bool) (s : state) : state :=
  let isUser := String.eqb (role m) "user" in
  let contentHTML := marked_parse (if nonempty (content m) then content m else "...") in
  set_chatWindow (chatWindow s ++ [MessageElement isUser isStreaming contentHTML]) s.

Section WithNumbers.
Context {num : Numbers}.

(** [displayNodeAssignment(nodeName)]: the text of the notification is
    made, which converts the name to a string, and the notification is
    appended. Its removal after three seconds is left out. *)
Definition displayNodeAssignment (nodeName : value) : M world unit :=
  textContent <- lift (concat_value "任务已分配至 " nodeName) ;;
  on_page (fun s => set_chatWindow (chatWindow s ++ [Notification textContent]) s).

(** ** The body of the read loop *)

(** [JSON.parse(data)] *)
Definition parse (data : string) : M world json :=
  lift (match JSON_parse data with
        | Some v => Normal v
        | None => Throw ESyntaxError
        end).

(** The member expression [parsed.choices[0].delta.content]. *)
Definition delta_content_of (parsed : json) : completion value :=
  match get (Some parsed) "choices" with
  | Throw e => Throw e
  | Normal choices =>
      match get choices "0" with
      | Throw e => Throw e
      | Normal choice =>
          match get choice "delta" with
          | Throw e => Throw e
          | Normal delta => get delta "content"
          end
      end
  end.

(** The condition [parsed.choices && parsed.choices[0].delta.content]: a
    falsy left operand is the value of the conjunction. *)
Definition condition (parsed : json) : completion value :=
  match get (Some parsed) "choices" with
  | Throw e => Throw e
  | Normal choices => if truthy choices then delta_content_of parsed else Normal choices
  end.

(** A line that starts with [data: ]: the [try] with its empty [catch]. *)
Definition on_data_line (line : string) : M world unit :=
  let data := substring_from 6 line in
  try_catch
    (parsed <- parse data ;;
     test <- lift (condition parsed) ;;
     if truthy test then
       content0 <- read (fun w => content (assistantMessage (me w))) ;;
       fragment <- lift (delta_content_of parsed) ;;
       content' <- lift (concat_value content0 fragment) ;;
       on_me (set_content content') ;;
       on_me (fun l => set_innerHTML (marked_parse (content (assistantMessage l))) l)
     else ret tt)
    (fun _ => ret tt).

(** A line that starts with [event: node_assigned]: the payload is looked
    for on the line after the first line equal to this one, among the lines
    of the current chunk. Nothing catches what [JSON.parse] throws here. *)
Definition on_event_line (lines : list string) (line : string) : M world unit :=
  match at_index lines (indexOf lines line + 1) with
  | Some nextLine =>
      if nonempty nextLine && startsWith nextLine "data: " then
        let data := substring_from 6 nextLine in
        parsed <- parse data ;;
        nodeName <- lift (get (Some parsed) "node_name") ;;
        displayNodeAssignment nodeName
      else ret tt
  | None => ret tt
  end.

Definition on_line (lines : list string) (line : string) : M world unit :=
  if startsWith line "data: " then on_data_line line
  else if startsWith line "event: node_assigned" then on_event_line lines line
  else ret tt.

(** One turn of the loop, for the text [chunk] that
    [decoder.decode(value, { stream: true })] returns: the decoder holds
    back the bytes of an unfinished character, so the texts of the turns
    add up to the text of the stream. [split] returns at least one
    segment, so [pop] finds the new buffer. *)
Definition on_chunk (chunk : string) : M world unit :=
  on_me (fun l => set_buffer (buffer l ++ chunk) l) ;;
  segments <- read (fun w => split_nl (buffer (me w))) ;;
  match pop segments with
  | Some (lines, rest) =>
      on_me (set_buffer rest) ;;
      for_of lines (on_line lines)
  | None => ret tt
  end.

(** How a response body ends: the reader reports [done], or a read
    rejects. *)
Inductive stream_end : Type := Done | Broken.

Record body_stream : Type := { chunks : list string; ending : stream_end }.

(** [while (true) { const { value, done } = await reader.read(); ... }] *)
Fixpoint read_loop (cs : list string) (e : stream_end) : M world unit :=
  match cs with
  | [] =>
      match e with
      | Done => ret tt
      | Broken => throw ETypeError
      end
  | c :: r => on_chunk c ;; read_loop r e
  end.

(** ** sendMessage *)

(** The outcome of the POST: the promise rejects, or a response arrives
    with its [ok] flag, status and body. *)
Inductive chat_response : Type :=
| ChatRejected
| ChatResponse (ok : bool) (status : nat) (body : body_stream).

Definition CHAT_URL : string := "/api/v1/chat/completions".

Definition ERROR_MARKUP : html :=
  markup (lit "<p class='text-red-400'>Error: Could not connect to the InferOps gateway.</p>").

(** From the call to the first [await]: [None] when the function returns
    because the trimmed input is empty; otherwise the page after the
    request is sent and the variables of the invocation. *)
Definition sendMessage_begin (s : state) : option world :=
  let messageText := trim (messageInput_value s) in
  if nonempty messageText then
    let userMessage := {| role := "user"; content := messageText |} in
    let s1 := set_history (conversationHistory s ++ [userMessage]) s in
    let s2 := renderMessage userMessage false s1 in
    let s3 := set_messageInput_value EmptyString s2 in
    let s4 := set_sendButton_disabled true s3 in
    let assistantMessage := {| role := "assistant"; content := EmptyString |} in
    let s5 := renderMessage assistantMessage true s4 in
    let s6 :=
      set_network
        (network s5 ++
           [Fetch {| method := POST; url := CHAT_URL;
                     body := ChatBody (conversationHistory s5)
                                      (if nonempty (modelSelect_value s5)
                                       then Some (modelSelect_value s5) else None)
                                      true |}]) s5 in
    Some {| page := s6;
            me := {| assistantMessage := assistantMessage;
                     contentElement_innerHTML := marked_parse "...";
                     element_streaming := true;
                     buffer := EmptyString |} |}
  else None.

(** The [try] block from the outcome of the POST on. *)
Definition sendMessage_try (r : chat_response) : M world unit :=
  match r with
  | ChatRejected => throw ETypeError
  | ChatResponse ok status body =>
      if negb ok then throw (EError ("HTTP error! status: " ++ string_of_nat status))
      else
        on_me (set_buffer EmptyString) ;;
        on_page (fun s => set_network (network s ++ [EventSourceOpen CHAT_URL]) s) ;;
        read_loop (chunks body) (ending body) ;;
        on_me (fun l => set_innerHTML (marked_parse (content (assistantMessage l))) l)
  end.

(** From the outcome of the POST to the end: [try], [catch], [finally]. *)
Definition sendMessage_resume (r : chat_response) : M world unit :=
  try_finally
    (try_catch
       (sendMessage_try r)
       (fun _ => on_me (set_innerHTML ERROR_MARKUP)))
    (on_page (set_sendButton_disabled false) ;;
     w <- read (fun w => w) ;;
     on_page (set_history (conversationHistory (page w) ++ [assistantMessage (me w)])) ;;
     on_me (set_streaming false)).

(** An invocation that nothing interleaves with. *)
Definition sendMessage (r : chat_response) (s : state) : state :=
  match sendMessage_begin s with
  | Some w => page (snd (sendMessage_resume r w))
  | None => s
  end.

(** ** The module at work *)

(** The page together with the invocations whose POST has not settled. *)
Record system : Type := { now : state; pending : list locals }.

Definition boot : system := {| now := initial; pending := [] |}.

Definition set_modelSelect_value (v : string) (s : state) : state :=
  {| conversationHistory := conversationHistory s;
     messageInput_value := messageInput_value s;
     sendButton_disabled := sendButton_disabled s; modelSelect_value := v;
     chatWindow := chatWindow s; network := network s |}.

(** What happens to the module: the user edits the message or picks a
    model, clicks the send button, presses Enter in the message input; the
    POST of the [i]-th pending invocation settles and its stream is read
    to its end. Between the chunks of a stream the loop touches the
    variables of its invocation and appends to the chat window, so the
    response and its stream are taken in one step. *)
Inductive event : Type :=
| Types (text : string)
| Selects (model : string)
| ClicksSend
| PressesEnter (shiftKey : bool)
| PostSettles (i : nat) (r : chat_response).

Fixpoint remove_nth {A : Type} (i : nat) (l : list A) : list A :=
  match l, i with
  | [], _ => []
  | _ :: r, O => r
  | x :: r, S j => x :: remove_nth j r
  end.

(** A call of [sendMessage] up to its first [await]. *)
Definition invoke (sys : system) : system :=
  match sendMessage_begin (now sys) with
  | Some w => {| now := page w; pending := pending sys ++ [me w] |}
  | None => sys
  end.

(** The listeners of [initChat]: a disabled button receives no click; the
    key listener calls [sendMessage] for Enter without Shift. *)
Definition step (e : event) (sys : system) : system :=
  match e with
  | Types text =>
      {| now := set_messageInput_value text (now sys); pending := pending sys |}
  | Selects model =>
      {| now := set_modelSelect_value model (now sys); pending := pending sys |}
  | ClicksSend => if sendButton_disabled (now sys) then sys else invoke sys
  | PressesEnter shiftKey => if shiftKey then sys else invoke sys
  | PostSettles i r =>
      match nth_error (pending sys) i with
      | Some l =>
          let w := snd (sendMessage_resume r {| page := now sys; me := l |}) in
          {| now := page w; pending := remove_nth i (pending sys) |}
      | None => sys
      end
  end.

Definition run (es : list event) (sys : system) : system :=
  fold_left (fun sys e => step e sys) es sys.

End WithNumbers.

(** The HTTP requests among the effects: an event source opens a GET on
    its URL. *)
Definition request_of (e : net_effect) : option request :=
  match e with
  | Fetch r => Some r
  | EventSourceOpen u => Some {| method := GET; url := u; body := NoBody |}
  | EventSourceListen _ _ | EventSourceClose _ => None
  end.

Fixpoint requests_of (es : list net_effect) : list request :=
  match es with
  | [] => []
  | e :: r =>
      match request_of e with
      | Some q => q :: requests_of r
      | None => requests_of r
      end
  end.

(** The roles of a history alternate, the user first, the assistant
    last. *)
Fixpoint alternates (h : list message) : bool :=
  match h with
  | [] => true
  | u :: r =>
      match r with
      | a :: r' => String.eqb (role u) "user" && String.eqb (role a) "assistant" && alternates r'
      | [] => false
      end
  end.

(** ** The vocabulary of the properties *)

(** A text without line feed. *)
Fixpoint lf_free (s : string) : bool :=
  match s with
  | EmptyString => true
  | String c r => negb (Ascii.eqb c LF) && lf_free r
  end.

(** The text of lines, each with its line feed. *)
Fixpoint unlines (ls : list string) : string :=
  match ls with
  | [] => EmptyString
  | l :: r => (l ++ nl ++ unlines r)%string
  end.

(** The text of the chunks of a stream. *)
Fixpoint text_of (cs : list string) : string :=
  match cs with
  | [] => EmptyString
  | c :: r => (c ++ text_of r)%string
  end.

(** [choices[0]]: the first element of an array, or the member named [0]
    of an object. *)
Definition first_choice (choices : json) : value :=
  match choices with
  | JArray (c :: _) => Some c
  | JObject ms => lookup_last "0" ms
  | _ => undefined
  end.

(** The value at [choices[0].delta.content] of a frame, when the frame has
    one: the frame is an object, its first choice is an object whose
    [delta] is an object with a member [content]. *)
Definition delta_content (frame : json) : value :=
  match frame with
  | JObject ms =>
      match lookup_last "choices" ms with
      | Some choices =>
          match first_choice choices with
          | Some (JObject c) =>
              match lookup_last "delta" c with
              | Some (JObject d) => lookup_last "content" d
              | _ => undefined
              end
          | _ => undefined
          end
      | None => undefined
      end
  | _ => undefined
  end.

Section Statements.
Context {num : Numbers}.

(** The text that the payload of a [data: ] line contributes: its
    fragment as text, when the payload is JSON, the fragment is present
    and not empty (not falsy) and it converts to a string, as every string,
    number and boolean does; nothing otherwise. *)
Definition fragment (payload : string) : string :=
  match JSON_parse payload with
  | Some frame =>
      if truthy (delta_content frame)
      then match concat_value EmptyString (delta_content frame) with
           | Normal text => text
           | Throw _ => EmptyString
           end
      else EmptyString
  | None => EmptyString
  end.

(** What a [data: ] line does to the invocation: the fragment of its
    payload is appended to the content of the assistant message and the
    content element is rendered again. *)
Definition data_step (payload : string) (w : world) : world :=
  match JSON_parse payload with
  | Some frame =>
      if truthy (delta_content frame) then
        match concat_value (content (assistantMessage (me w))) (delta_content frame) with
        | Normal c =>
            {| page := page w; me := set_innerHTML (marked_parse c) (set_content c (me w)) |}
        | Throw _ => w
        end
      else w
  | None => w
  end.

(** A line that is not the line of a [node_assigned] event. *)
Definition benign (line : string) : bool :=
  negb (startsWith line "event: node_assigned") || startsWith line "data: ".

Definition line_step (line : string) (w : world) : world :=
  if startsWith line "data: " then data_step (substring_from 6 line) w else w.

Definition with_buffer (b : string) (w : world) : world :=
  {| page := page w; me := set_buffer b (me w) |}.

(** The history, the network effects, the controls, and the role and the
    streaming class of the invocation's message. *)
Definition frame (w : world)
  : list message * list net_effect * bool * string * string * bool * string :=
  (conversationHistory (page w), network (page w), sendButton_disabled (page w),
   messageInput_value (page w), modelSelect_value (page w),
   element_streaming (me w), role (assistantMessage (me w))).

Definition keeps {A : Type} (m : M world A) : Prop :=
  forall w, frame (snd (m w)) = frame w.

(** The network effects of the [try] block: an event source is opened
    once the response is ok, before the first read. *)
Definition opened (r : chat_response) : list net_effect :=
  match r with
  | ChatResponse true _ _ => [EventSourceOpen CHAT_URL]
  | _ => []
  end.

(** The two effects the module has on the network. *)
Definition chat_effect (e : net_effect) : Prop :=
  (exists ms model,
      e = Fetch {| method := POST; url := CHAT_URL; body := ChatBody ms model true |})
  \/ e = EventSourceOpen CHAT_URL.

End Statements.

(** A stream of three frames and the terminator, cut into chunks inside
    lines, for worked examples. *)
Definition typed_hi : state := set_messageInput_value "hi" initial.

Definition frames_hello : list string :=
  [lit "{'choices':[{'delta':{'content':'Hel'}}]}";
   lit "{'choices':[{'delta':{}}]}";
   lit "{'choices':[{'delta':{'content':'lo'}}]}";
   "[DONE]"].

Definition chunks_hello : list string :=
  [lit "data: {'choices':[{'delta':{'content':'Hel'}}]}\ndata: {'choi";
   lit "ces':[{'delta':{}}]}\ndata: {'choices':[{'delta':{'content':'lo'}}]}";
   lit "\ndata: [DO";
   lit "NE]\n"].

Definition begun_hi : world :=
  match sendMessage_begin typed_hi with
  | Some w => w
  | None => {| page := typed_hi;
               me := {| assistantMessage := {| role := "assistant"; content := EmptyString |};
                        contentElement_innerHTML := marked_parse "...";
                        element_streaming := true; buffer := EmptyString |} |}
  end.

End Chat.

(* ================================================================== *)
(** * The UI management module: node cards, charts, model selector     *)
(* ================================================================== *)

Module Dashboard.
Import JS.

(** ** Nodes *)

(** Floating point belongs to the platform: the numbers of the metrics
    with [Number.prototype.toFixed]; and, for an integer outside the safe
    range (from 2^53 on in absolute value), how a number prints (the
    shortest digits that read back as the number, in exponent form from
    1e21 on) and which number a numeral stands for ([None] when it is no
    finite number). *)
Class Metric : Type := {
  number : Type;
  toFixed : nat -> number -> string;
  unsafe_to_string : Z -> string;
  unsafe_of_numeral : Z -> option Z
}.

Section WithMetric.
Context {metric : Metric}.

(** A node status object, read at the types of the data model; a member
    that is absent, [undefined] or [null] is [None]. *)
Record gpu_metrics : Type := {
  utilization_percent : option number;
  memory_usage_percent : option number;
  temperature_celsius : option number
}.

Record memory_metrics : Type := { percent : option number }.

Record metrics : Type := {
  cpu_usage_percent : option number;
  memory : option memory_metrics;
  gpu : option gpu_metrics;
  locked : bool
}.

Record node : Type := {
  id : Z;
  name : string;
  cpu_model : option string;
  online : bool;
  node_metrics : option metrics
}.

(** ** Element ids *)

(** An integer inside a template literal. *)
Definition string_of_N (n : N) : string := NilZero.string_of_uint (N.to_uint n).

Definition string_of_Z (z : Z) : string :=
  match z with
  | Z0 => "0"
  | Zpos p => string_of_N (Npos p)
  | Zneg p => String "-" (string_of_N (Npos p))
  end.

(** [s.split('-')] *)
Fixpoint split_dash (s : string) : list string :=
  match s with
  | EmptyString => [EmptyString]
  | String c r =>
      if Ascii.eqb c "-" then EmptyString :: split_dash r
      else match split_dash r with
           | [] => [String c EmptyString]
           | seg :: segs => String c seg :: segs
           end
  end.

(** The digits at the head of a text, read in base ten and in base
    sixteen: the value, and whether there was a digit. *)
Fixpoint decimal_digits (acc : N) (seen : bool) (s : string) : N * bool :=
  match s with
  | String c r =>
      if is_digit c then decimal_digits (10 * acc + (N_of_ascii c - 48)) true r
      else (acc, seen)
  | EmptyString => (acc, seen)
  end.

Fixpoint hex_digits (acc : N) (seen : bool) (s : string) : N * bool :=
  match s with
  | String c r =>
      match hex_digit c with
      | Some d => hex_digits (16 * acc + d) true r
      | None => (acc, seen)
      end
  | EmptyString => (acc, seen)
  end.

(** An integer that a number holds exactly, with all its neighbours. *)
Definition safe_integer (z : Z) : bool := (Z.abs z <? 2 ^ 53)%Z.

(** A number that is an integer, inside a template literal: within the
    safe range its decimal digits. *)
Definition string_of_number (z : Z) : string :=
  if safe_integer z then string_of_Z z else unsafe_to_string z.

(** The integer that [parseInt(v)] reads, without a radix, [None] when
    it reads none: leading white space is skipped, a sign is read, [0x]
    announces base sixteen, the digits at the head are the value and what
    follows them is ignored. [undefined] reads as the text of its name. *)
Definition read_integer (v : option string) : option Z :=
  match v with
  | None => None
  | Some t =>
      let t1 := trim_start t in
      let (negative, t2) :=
        match t1 with
        | String c r =>
            if Ascii.eqb c "-" then (true, r)
            else if Ascii.eqb c "+" then (false, r)
            else (false, t1)
        | EmptyString => (false, t1)
        end in
      let (magnitude, seen) :=
        match t2 with
        | String c0 (String x r) =>
            if Ascii.eqb c0 "0" && (Ascii.eqb x "x" || Ascii.eqb x "X")
            then hex_digits 0 false r
            else decimal_digits 0 false t2
        | _ => decimal_digits 0 false t2
        end in
      if seen then Some (if negative then (- Z.of_N magnitude)%Z else Z.of_N magnitude)
      else None
  end.

(** [parseInt(v)]: the number for the integer read, [None] for [NaN] and
    for what is no finite number. *)
Definition parseInt (v : option string) : option Z :=
  match read_integer v with
  | Some z => if safe_integer z then Some z else unsafe_of_numeral z
  | None => None
  end.

(** The id of the card of a node, [`node-card-${node.id}`], and the node
    id read back from the id of a child of the container:
    [parseInt(child.id.split('-')[2])]. *)
Definition card_id_of (node_id : Z) : string := "node-card-" ++ string_of_number node_id.

Definition node_id_of (element_id : string) : option Z :=
  parseInt (nth_error (split_dash element_id) 2).

(** ** Cards *)

(** [classList.add] and [classList.remove]: a class list holds a token
    once. *)
Definition classList_add (tokens : list string) (cl : list string) : list string :=
  fold_left (fun cl t => if existsb (String.eqb t) cl then cl else cl ++ [t]) tokens cl.

Definition classList_remove (tokens : list string) (cl : list string) : list string :=
  filter (fun c => negb (existsb (String.eqb c) tokens)) cl.

(** A child of the node status container: its id, its class list, and
    what its markup holds: the heading, the indicator with its class list,
    the CPU model, the five metric spans, the busy status with its class
    attribute. *)
Record card : Type := {
  card_id : string;
  card_classes : list string;
  nameEl : string;
  indicatorEl : list string;
  cpuModelEl : string;
  gpuUtilEl : string;
  gpuMemEl : string;
  cpuUtilEl : string;
  ramUtilEl : string;
  gpuTempEl : string;
  busyStatusEl : string;
  busyStatus_className : string
}.

Definition createNodeCard (n : node) : card :=
  {| card_id := card_id_of (id n);
     card_classes := ["p-4"; "rounded-lg"; "shadow-md"; "transition-all"; "duration-300"];
     nameEl := EmptyString;
     indicatorEl := ["status-indicator"; "w-4"; "h-4"; "rounded-full"];
     cpuModelEl := EmptyString;
     gpuUtilEl := "N/A"; gpuMemEl := "N/A"; cpuUtilEl := "N/A";
     ramUtilEl := "N/A"; gpuTempEl := "N/A";
     busyStatusEl := EmptyString;
     busyStatus_className := "font-semibold busy-status" |}.

(** [x?.toFixed(digits) ?? 'N/A'] *)
Definition shown (digits : nat) (x : option number) : string :=
  match x with
  | Some v => toFixed digits v
  | None => "N/A"
  end.

(** [metrics.gpu?.member] *)
Definition of_gpu (m : metrics) (member : gpu_metrics -> option number) : option number :=
  match gpu m with
  | Some g => member g
  | None => None
  end.

Definition updateCardContent (c : card) (n : node) : card :=
  let name' := name n in
  let cpu_model' :=
    match cpu_model n with
    | Some t => if String.eqb t EmptyString then "Fetching..." else t
    | None => "Fetching..."
    end in
  if online n then
    let indicator' :=
      classList_add ["bg-green-500"]
        (classList_remove ["bg-red-500"; "animate-pulse"] (indicatorEl c)) in
    let classes' :=
      classList_add ["bg-gray-800"; "border-gray-700"]
        (classList_remove ["bg-gray-700"; "border-gray-600"] (card_classes c)) in
    match node_metrics n with
    | Some m =>
        {| card_id := card_id c; card_classes := classes';
           nameEl := name'; indicatorEl := indicator'; cpuModelEl := cpu_model';
           gpuUtilEl := shown 1 (of_gpu m utilization_percent);
           gpuMemEl := shown 1 (of_gpu m memory_usage_percent);
           cpuUtilEl := shown 1 (cpu_usage_percent m);
           ramUtilEl := shown 1 (match memory m with
                                 | Some mem => percent mem
                                 | None => None
                                 end);
           gpuTempEl := shown 0 (of_gpu m temperature_celsius);
           busyStatusEl := if locked m then "运行中" else "空闲";
           busyStatus_className :=
             if locked m then "font-semibold busy-status text-blue-400"
             else "font-semibold busy-status text-green-400" |}
    | None =>
        {| card_id := card_id c; card_classes := classes';
           nameEl := name'; indicatorEl := indicator'; cpuModelEl := cpu_model';
           gpuUtilEl := gpuUtilEl c; gpuMemEl := gpuMemEl c; cpuUtilEl := cpuUtilEl c;
           ramUtilEl := ramUtilEl c; gpuTempEl := gpuTempEl c;
           busyStatusEl := busyStatusEl c;
           busyStatus_className := busyStatus_className c |}
    end
  else
    {| card_id := card_id c;
       card_classes :=
         classList_add ["bg-gray-700"; "border-gray-600"]
           (classList_remove ["bg-gray-800"; "border-gray-700"] (card_classes c));
       nameEl := name';
       indicatorEl :=
         classList_add ["bg-red-500"; "animate-pulse"]
           (classList_remove ["bg-green-500"] (indicatorEl c));
       cpuModelEl := cpu_model';
       gpuUtilEl := "N/A"; gpuMemEl := "N/A"; cpuUtilEl := "N/A";
       ramUtilEl := "N/A"; gpuTempEl := "N/A";
       busyStatusEl := "离线";
       busyStatus_className := "font-semibold busy-status text-red-500" |}.

(** ** updateNodeCards *)

(** [document.getElementById(eid)] followed by a change of the element
    found: the first child with that id is changed in place; [None] when
    there is none. The ids of cards are taken to occur in the node status
    container only. *)
Fixpoint change_first (eid : string) (f : card -> card) (children : list card)
  : option (list card) :=
  match children with
  | [] => None
  | c :: r =>
      if String.eqb (card_id c) eid then Some (f c :: r)
      else match change_first eid f r with
           | Some r' => Some (c :: r')
           | None => None
           end
  end.

(** The body of the first loop. *)
Definition place_card (children : list card) (n : node) : list card :=
  match change_first (card_id_of (id n)) (fun c => updateCardContent c n) children with
  | Some children' => children'
  | None => children ++ [updateCardContent (createNodeCard n) n]
  end.

(** [!nodeMap.has(nodeId)] for the child at hand. *)
Definition gone (ids : list Z) (c : card) : bool :=
  match node_id_of (card_id c) with
  | Some k => negb (existsb (Z.eqb k) ids)
  | None => true
  end.

Fixpoint remove_at {A : Type} (i : nat) (l : list A) : list A :=
  match l, i with
  | [], _ => []
  | _ :: r, O => r
  | x :: r, S j => x :: remove_at j r
  end.

(** [for (const child of nodeStatusContainer.children)]: the collection
    is live and the iterator goes by index, reading the length anew at each
    step; [child.remove()] takes the child out of the collection while the
    index moves on. [turns] bounds the number of steps. *)
Fixpoint sweep (turns i : nat) (ids : list Z) (children : list card) : list card :=
  match turns with
  | O => children
  | S t =>
      match nth_error children i with
      | Some child =>
          if gone ids child then sweep t (S i) ids (remove_at i children)
          else sweep t (S i) ids children
      | None => children
      end
  end.

(** [updateNodeCards(nodes)] on the children of the node status
    container, when the page has one. *)
Definition updateNodeCards (nodes : list node) (container : option (list card))
  : option (list card) :=
  match container with
  | None => None
  | Some children =>
      let ids := map id nodes in
      let placed := fold_left place_card nodes children in
      Some (sweep (List.length placed) 0 ids placed)
  end.

(** ** updateDashboardCharts *)

(** A chart of the charts module: the labels and the data of its first
    dataset, and how often it was redrawn. A value that is [undefined] is
    [None]. *)
Record chart : Type := {
  labels : list string;
  data : list (option number);
  redrawn : nat
}.

Record charts : Type := {
  cpuChart : chart;
  gpuChart : chart;
  memoryChart : chart;
  gpuMemoryChart : chart
}.

Definition set_labels (v : list string) (c : chart) : chart :=
  {| labels := v; data := data c; redrawn := redrawn c |}.

Definition set_data (v : list (option number)) (c : chart) : chart :=
  {| labels := labels c; data := v; redrawn := redrawn c |}.

Definition update (c : chart) : chart :=
  {| labels := labels c; data := data c; redrawn := S (redrawn c) |}.

Definition on_cpu (f : chart -> chart) : M charts unit :=
  modify (fun s => {| cpuChart := f (cpuChart s); gpuChart := gpuChart s;
                      memoryChart := memoryChart s; gpuMemoryChart := gpuMemoryChart s |}).

Definition on_gpu (f : chart -> chart) : M charts unit :=
  modify (fun s => {| cpuChart := cpuChart s; gpuChart := f (gpuChart s);
                      memoryChart := memoryChart s; gpuMemoryChart := gpuMemoryChart s |}).

Definition on_memory (f : chart -> chart) : M charts unit :=
  modify (fun s => {| cpuChart := cpuChart s; gpuChart := gpuChart s;
                      memoryChart := f (memoryChart s); gpuMemoryChart := gpuMemoryChart s |}).

Definition on_gpuMemory (f : chart -> chart) : M charts unit :=
  modify (fun s => {| cpuChart := cpuChart s; gpuChart := gpuChart s;
                      memoryChart := memoryChart s; gpuMemoryChart := f (gpuMemoryChart s) |}).

(** [onlineNodes.map(read)] for a callback that may throw. *)
Fixpoint map_throwing {A B : Type} (read : A -> completion B) (l : list A)
  : completion (list B) :=
  match l with
  | [] => Normal []
  | x :: r =>
      match read x with
      | Throw e => Throw e
      | Normal y =>
          match map_throwing read r with
          | Throw e => Throw e
          | Normal ys => Normal (y :: ys)
          end
      end
  end.

(** [n.metrics.gpu.member] and [n.metrics.memory.percent]: reading a
    member of a missing object throws. *)
Definition gpu_member (member : gpu_metrics -> option number) (n : node)
  : completion (option number) :=
  match node_metrics n with
  | None => Throw ETypeError
  | Some m =>
      match gpu m with
      | None => Throw ETypeError
      | Some g => Normal (member g)
      end
  end.

Definition memory_percent (n : node) : completion (option number) :=
  match node_metrics n with
  | None => Throw ETypeError
  | Some m =>
      match memory m with
      | None => Throw ETypeError
      | Some mem => Normal (percent mem)
      end
  end.

Definition cpu_usage (n : node) : completion (option number) :=
  match node_metrics n with
  | None => Throw ETypeError
  | Some m => Normal (cpu_usage_percent m)
  end.

Local Open Scope js_scope.

Definition updateDashboardCharts (nodes : list node) : M charts unit :=
  let onlineNodes :=
    filter (fun n => online n && match node_metrics n with Some _ => true | None => false end)
           nodes in
  let labels' := map name onlineNodes in
  (if Nat.eqb (List.length labels') 0 then
     on_cpu (set_labels []) ;; on_cpu (set_data []) ;;
     on_gpu (set_labels []) ;; on_gpu (set_data []) ;;
     on_memory (set_labels []) ;; on_memory (set_data []) ;;
     on_gpuMemory (set_labels []) ;; on_gpuMemory (set_data [])
   else
     on_cpu (set_labels labels') ;;
     d <- lift (map_throwing cpu_usage onlineNodes) ;;
     on_cpu (set_data d) ;;
     on_gpu (set_labels labels') ;;
     d <- lift (map_throwing (gpu_member utilization_percent) onlineNodes) ;;
     on_gpu (set_data d) ;;
     on_memory (set_labels labels') ;;
     d <- lift (map_throwing memory_percent onlineNodes) ;;
     on_memory (set_data d) ;;
     on_gpuMemory (set_labels labels') ;;
     d <- lift (map_throwing (gpu_member memory_usage_percent) onlineNodes) ;;
     on_gpuMemory (set_data d)) ;;
  on_cpu update ;; on_gpu update ;; on_memory update ;; on_gpuMemory update.

End WithMetric.

(** ** updateModelSelector *)

(** The model selector: its options, each with its value and its text,
    and the value of the option that is selected. *)
Record select : Type := {
  options : list (string * string);
  value_selected : string
}.

(** [updateModelSelector(models)] for an array of model names, when the
    page has the selector. Writing the markup of the default option selects
    it; appending an option leaves the selection alone; assigning a value
    selects the option with that value. *)
Definition updateModelSelector (models : list string) (modelSelect : option select)
  : option select :=
  match modelSelect with
  | None => None
  | Some sel =>
      let currentVal := value_selected sel in
      let reset := {| options := [(EmptyString, "默认")]; value_selected := EmptyString |} in
      let filled :=
        fold_left (fun s model =>
                     {| options := options s ++ [(model, model)];
                        value_selected := value_selected s |})
                  models reset in
      if existsb (String.eqb currentVal) models
      then Some {| options := options filled; value_selected := currentVal |}
      else Some filled
  end.

(** ** The vocabulary of the properties *)

(** The value of a sequence of decimal digits read after [acc]. *)
Fixpoint digits_after (d : Decimal.uint) (acc : N) : N :=
  match d with
  | Decimal.Nil => acc
  | Decimal.D0 l => digits_after l (0 + 10 * acc)
  | Decimal.D1 l => digits_after l (1 + 10 * acc)
  | Decimal.D2 l => digits_after l (2 + 10 * acc)
  | Decimal.D3 l => digits_after l (3 + 10 * acc)
  | Decimal.D4 l => digits_after l (4 + 10 * acc)
  | Decimal.D5 l => digits_after l (5 + 10 * acc)
  | Decimal.D6 l => digits_after l (6 + 10 * acc)
  | Decimal.D7 l => digits_after l (7 + 10 * acc)
  | Decimal.D8 l => digits_after l (8 + 10 * acc)
  | Decimal.D9 l => digits_after l (9 + 10 * acc)
  end.

(** A text of decimal digits. *)
Fixpoint all_digits (s : string) : bool :=
  match s with
  | EmptyString => true
  | String c r => is_digit c && all_digits r
  end.

(** [classList.contains(t)] *)
Definition has (t : string) (cl : list string) : bool := existsb (String.eqb t) cl.

(** The children at the second, fourth, ... place. *)
Fixpoint every_other {A : Type} (l : list A) : list A :=
  match l with
  | _ :: y :: r => y :: every_other r
  | _ => []
  end.

Section Terms.
Context {metric : Metric}.

(** No two neighbours among the children are cards to remove. *)
Fixpoint isolated (ids : list Z) (l : list card) : bool :=
  match l with
  | x :: r =>
      match r with
      | y :: _ => negb (gone ids x && gone ids y) && isolated ids r
      | [] => true
      end
  | [] => true
  end.

(** The nodes the charts show, and what is read of each. *)
Definition charted (nodes : list node) : list node :=
  filter (fun n => online n && match node_metrics n with Some _ => true | None => false end)
         nodes.

Definition reading (member : metrics -> option number) (n : node) : option number :=
  match node_metrics n with
  | Some m => member m
  | None => None
  end.

Definition gpu_reading (member : gpu_metrics -> option number) : node -> option number :=
  reading (fun m => of_gpu m member).

Definition memory_reading : node -> option number :=
  reading (fun m => match memory m with Some mem => percent mem | None => None end).

Definition has_gpu (n : node) : bool :=
  match node_metrics n with
  | Some m => match gpu m with Some _ => true | None => false end
  | None => false
  end.

Definition has_memory (n : node) : bool :=
  match node_metrics n with
  | Some m => match memory m with Some _ => true | None => false end
  | None => false
  end.

(** The chart that shows one reading of the charted nodes, redrawn. *)
Definition drawn (nodes : list node) (f : node -> option number) (c : chart) : chart :=
  {| labels := map name (charted nodes);
     data := map f (charted nodes);
     redrawn := S (redrawn c) |}.

End Terms.

(** A platform for the worked examples, whose numbers are integers:
    [toFixed] writes the integer and, when digits are asked for, a point
    and that many zeros. It is exact for the small integers the examples
    hold; outside the safe range it prints and reads all digits, which the
    JavaScript platform does not. *)
Definition integer_metric : Metric :=
  {| number := Z;
     toFixed := fun digits z =>
       match digits with
       | O => string_of_Z z
       | S _ => (string_of_Z z ++ "." ++ string_of_list_ascii (repeat "0"%char digits))%string
       end;
     unsafe_to_string := string_of_Z;
     unsafe_of_numeral := Some |}.

(** A rack of two nodes, and the same rack when the first node reports
    no GPU, for worked examples. *)
Definition busy_node (gpu_part : option (gpu_metrics (metric := integer_metric)))
  : node (metric := integer_metric) :=
  {| id := 1; name := "Node 1"; cpu_model := Some "EPYC 7543"; online := true;
     node_metrics :=
       Some (@Build_metrics integer_metric (Some 37%Z)
               (Some (@Build_memory_metrics integer_metric (Some 52%Z)))
               gpu_part true) |}.

Definition idle_node : node (metric := integer_metric) :=
  {| id := 2; name := "Node 2"; cpu_model := None; online := false;
     node_metrics := None |}.

Definition rack : list (node (metric := integer_metric)) :=
  [busy_node (Some (@Build_gpu_metrics integer_metric (Some 88%Z) (Some 61%Z) (Some 70%Z)));
   idle_node].

Definition rack_without_gpu : list (node (metric := integer_metric)) :=
  [busy_node None; idle_node].

(** A card left over from a node with id 7. *)
Definition stale_card : card :=
  createNodeCard (metric := integer_metric) {| id := 7; name := "Node 7"; cpu_model := None; online := false;
                    node_metrics := None |}.

Definition blank_chart : chart (metric := integer_metric) :=
  {| labels := []; data := []; redrawn := 0 |}.

Definition blank_charts : charts (metric := integer_metric) :=
  {| cpuChart := blank_chart; gpuChart := blank_chart;
     memoryChart := blank_chart; gpuMemoryChart := blank_chart |}.

End Dashboard.

(* ================================================================== *)
(** * Values that convert to strings                                    *)
(* ================================================================== *)

Module JSTerms.
Import JS.

(** A value of [JSON.parse] that converts to a string: it is no object
    with a member [toString] of its own, and no array that holds, at any
    depth of arrays, such an object. *)
Fixpoint printable (v : json) : bool :=
  match v with
  | JArray xs => forallb printable xs
  | JObject ms =>
      match lookup_last "toString" ms with
      | Some _ => false
      | None => true
      end
  | _ => true
  end.

Definition printable_value (v : value) : bool :=
  match v with
  | Some j => printable j
  | None => true
  end.

(** An alert that [updateAlerts] can render: it is not [null], and its
    level and its message convert to strings. *)
Definition renders (alert : json) : bool :=
  match get (Some alert) "level", get (Some alert) "message" with
  | Normal level, Normal message => printable_value level && printable_value message
  | _, _ => false
  end.

End JSTerms.

(* ================================================================== *)
(** * chat.js: further vocabulary                                       *)
(* ================================================================== *)

Module ChatTerms.
Import JS Http Chat.

Section WithNumbers.
Context {num : Numbers}.

(** The text that a line of the stream contributes: the fragment of its
    payload for a [data: ] line, nothing for any other line. *)
Definition line_fragment (line : string) : string :=
  if startsWith line "data: " then fragment (substring_from 6 line) else EmptyString.

(** An answer that is ok, with its stream. *)
Definition streamed (status : nat) (cs : list string) (e : stream_end) : chat_response :=
  ChatResponse true status {| chunks := cs; ending := e |}.

(** The world at the end of an invocation whose read loop left [w]:
    what the [try] block or the [catch] block shows, then the [finally]
    block. *)
Definition finished (e : stream_end) (w : world) : world :=
  let shown :=
    match e with
    | Done => marked_parse (content (assistantMessage (me w)))
    | Broken => ERROR_MARKUP
    end in
  {| page := set_history (conversationHistory (page w) ++ [assistantMessage (me w)])
               (set_sendButton_disabled false (page w));
     me := set_streaming false (set_innerHTML shown (me w)) |}.

(** The event starts an invocation: a listener of [initChat] calls
    [sendMessage], for a click on the button when it is enabled or for
    Enter without Shift, and the trimmed input is not empty, so that the
    call gets past its first test. *)
Definition begins (e : event) (sys : system) : bool :=
  match e with
  | ClicksSend =>
      negb (sendButton_disabled (now sys)) && nonempty (trim (messageInput_value (now sys)))
  | PressesEnter shiftKey =>
      negb shiftKey && nonempty (trim (messageInput_value (now sys)))
  | _ => false
  end.

(** The event finishes an invocation: the answer of one that is pending
    is there and is read to its end, and its [finally] block runs. *)
Definition finishes (e : event) (sys : system) : bool :=
  match e with
  | PostSettles i _ => Nat.ltb i (List.length (pending sys))
  | _ => false
  end.

(** The invocations started and those finished along a run from [sys]. *)
Fixpoint begun (es : list event) (sys : system) : nat :=
  match es with
  | [] => 0
  | e :: r => (if begins e sys then 1 else 0) + begun r (step e sys)
  end.

Fixpoint finished_count (es : list event) (sys : system) : nat :=
  match es with
  | [] => 0
  | e :: r => (if finishes e sys then 1 else 0) + finished_count r (step e sys)
  end.

End WithNumbers.

(** The line that announces a node assignment, and the line that carries
    a payload. *)
Definition NODE_ASSIGNED : string := "event: node_assigned".

Definition data_line (payload : string) : string := ("data: " ++ payload)%string.

(** No event is an Enter without Shift. *)
Definition clicks_only (es : list event) : Prop :=
  Forall (fun e => match e with
                   | PressesEnter false => False
                   | _ => True
                   end) es.

(** The number of messages of a role in a history. *)
Definition count_role (r : string) (h : list message) : nat :=
  List.length (filter (fun m => String.eqb (role m) r) h).

(** With clicks only: either nothing is pending, the button is enabled
    and the history alternates; or one invocation is pending, the button
    is disabled and the history alternates up to the user message that
    waits for its answer. *)
Definition calm (sys : system) : Prop :=
  (pending sys = [] /\ sendButton_disabled (now sys) = false /\
   alternates (conversationHistory (now sys)) = true)
  \/ (exists l h0 u,
         pending sys = [l] /\ sendButton_disabled (now sys) = true /\
         role (assistantMessage l) = "assistant" /\
         conversationHistory (now sys) = h0 ++ [u] /\
         role u = "user" /\ alternates h0 = true).

(** A stream with a comment line, blank lines and an unfinished last
    line, cut into two chunks inside a line; the payloads of two node
    assignments; for worked examples. *)
Definition chunks_mixed : list string :=
  [lit ": keep-alive\ndata: {'choices':[{'delta':{'content':'Hel'}}]}\n\nda";
   lit "ta: {'choices':[{'delta':{'content':'lo'}}]}\ndata: {'cho"].

Definition lines_mixed : list string :=
  [": keep-alive";
   lit "data: {'choices':[{'delta':{'content':'Hel'}}]}";
   EmptyString;
   lit "data: {'choices':[{'delta':{'content':'lo'}}]}"].

Definition rest_mixed : string := lit "data: {'cho".

Definition assigned_1 : string := lit "{'node_id':1,'node_name':'Node 1 (RTX 4090)'}".
Definition assigned_2 : string := lit "{'node_id':2,'node_name':'Node 2 (A100)'}".

Definition members_1 : list (string * json) :=
  [("node_id", JNumber "1"); ("node_name", JString "Node 1 (RTX 4090)")].
Definition members_2 : list (string * json) :=
  [("node_id", JNumber "2"); ("node_name", JString "Node 2 (A100)")].

End ChatTerms.

(* ================================================================== *)
(** * main.js: what a tick does to the page                             *)
(* ================================================================== *)

Module Tick.
Import JS Dashboard.
Local Open Scope js_scope.

Section WithPlatform.
Context {num : Numbers} {metric : Metric}.

(** The parts of the page that the UI module holds: the node status
    container, the four charts, the alerts container and the model
    selector; a container or selector the page lacks is [None]. *)
Record page : Type := {
  nodeStatusContainer : option (list card);
  dashboardCharts : charts;
  alertsContainer : option (list Ui.alert_node);
  modelSelect : option select
}.

Definition on_nodeStatusContainer (f : option (list card) -> option (list card))
  : M page unit :=
  modify (fun p => {| nodeStatusContainer := f (nodeStatusContainer p);
                      dashboardCharts := dashboardCharts p;
                      alertsContainer := alertsContainer p;
                      modelSelect := modelSelect p |}).

Definition on_dashboardCharts {A : Type} (m : M charts A) : M page A :=
  fun p =>
    let (c, s) := m (dashboardCharts p) in
    (c, {| nodeStatusContainer := nodeStatusContainer p;
           dashboardCharts := s;
           alertsContainer := alertsContainer p;
           modelSelect := modelSelect p |}).

Definition on_alertsContainer {A : Type} (m : M (option (list Ui.alert_node)) A)
  : M page A :=
  fun p =>
    let (c, s) := m (alertsContainer p) in
    (c, {| nodeStatusContainer := nodeStatusContainer p;
           dashboardCharts := dashboardCharts p;
           alertsContainer := s;
           modelSelect := modelSelect p |}).

Definition on_modelSelect (f : option select -> option select) : M page unit :=
  modify (fun p => {| nodeStatusContainer := nodeStatusContainer p;
                      dashboardCharts := dashboardCharts p;
                      alertsContainer := alertsContainer p;
                      modelSelect := f (modelSelect p) |}).

(** [appTick] from the values of [Promise.all] on, the nodes and the
    models read at the types of the data model: the four updates in their
    order, inside the [try] whose [catch] logs the error. *)
Definition appTick_update (nodes : list node) (alerts : json) (models : list string)
  : M page unit :=
  try_catch
    (on_nodeStatusContainer (updateNodeCards nodes) ;;
     on_dashboardCharts (updateDashboardCharts nodes) ;;
     on_alertsContainer (Ui.updateAlerts alerts) ;;
     on_modelSelect (updateModelSelector models))
    (fun _ => ret tt).

End WithPlatform.

End Tick.

(* ================================================================== *)
(** * Properties of the platform model                                 *)
(* ================================================================== *)

Module JSFacts.
Import JS.

(** ** [JSON_parse] never runs out of fuel *)

Ltac break_match :=
  match goal with
  | H : context [match ?x with _ => _ end] |- _ => destruct x eqn:?
  | |- context [match ?x with _ => _ end] => destruct x eqn:?
  end.

Lemma substring_from_length (n : nat) (s : string) :
  String.length (substring_from n s) = String.length s - n.
Proof.
  revert s; induction n as [|n IH]; intros [|c r]; simpl; auto.
Qed.

Lemma prefix_length (p s : string) :
  has_prefix p s = true -> String.length p <= String.length s.
Proof.
  revert s; induction p as [|c p IH]; intros [|d s]; simpl; try lia; try discriminate.
  intros H. apply andb_prop in H as [_ H]. apply IH in H; lia.
Qed.

Lemma skip_ws_length (s : string) : String.length (skip_ws s) <= String.length s.
Proof.
  induction s as [|c r IH]; simpl; auto.
  destruct (is_json_ws c); simpl; lia.
Qed.

Lemma take_digits_length (s d r : string) :
  take_digits s = (d, r) -> String.length r <= String.length s.
Proof.
  revert d r; induction s as [|c s IH]; simpl; intros d r H.
  - inversion H; auto.
  - destruct (is_digit c).
    + destruct (take_digits s) as [d' r'] eqn:E. inversion H; subst.
      specialize (IH _ _ eq_refl). lia.
    + inversion H; subst; simpl; lia.
Qed.

Lemma lex_sign_length (s sg r : string) :
  lex_sign s = (sg, r) -> String.length r <= String.length s.
Proof.
  destruct s as [|c s]; simpl.
  - intros H; inversion H; auto.
  - destruct (byte_is c 45); intros H; inversion H; simpl; lia.
Qed.

Lemma lex_int_length (s i r : string) :
  lex_int s = Some (i, r) -> String.length r < String.length s.
Proof.
  destruct s as [|c s]; [discriminate|]. unfold lex_int.
  destruct (byte_is c 48). { intros H; inversion H; simpl; lia. }
  destruct (is_digit c) eqn:D; [|discriminate].
  simpl. rewrite D. destruct (take_digits s) as [d' r'] eqn:E.
  intros H; inversion H; subst. apply take_digits_length in E. lia.
Qed.

Lemma lex_frac_length (s f r : string) :
  lex_frac s = Some (f, r) -> String.length r <= String.length s.
Proof.
  destruct s as [|c s]; simpl.
  - intros H; inversion H; auto.
  - destruct (byte_is c 46).
    + destruct (take_digits s) as [[|d0 d] r'] eqn:E; [discriminate|].
      intros H; inversion H; subst. apply take_digits_length in E. lia.
    + intros H; inversion H; simpl; lia.
Qed.

Lemma lex_exp_length (s e r : string) :
  lex_exp s = Some (e, r) -> String.length r <= String.length s.
Proof.
  destruct s as [|c s]; simpl.
  - intros H; inversion H; auto.
  - destruct (byte_is c 101 || byte_is c 69).
    + destruct s as [|c1 s1].
      * simpl. discriminate.
      * destruct (byte_is c1 43 || byte_is c1 45).
        -- destruct (take_digits s1) as [[|d0 d] r'] eqn:E; [discriminate|].
           intros H; inversion H; subst. apply take_digits_length in E. simpl; lia.
        -- destruct (take_digits (String c1 s1)) as [[|d0 d] r'] eqn:E; [discriminate|].
           intros H; inversion H; subst. apply take_digits_length in E. simpl in *; lia.
    + intros H; inversion H; simpl; lia.
Qed.

Lemma lex_number_length (s l r : string) :
  lex_number s = Parsed l r -> String.length r < String.length s.
Proof.
  unfold lex_number.
  destruct (lex_sign s) as [sg r0] eqn:E0.
  destruct (lex_int r0) as [[i r1]|] eqn:E1; [|discriminate].
  destruct (lex_frac r1) as [[f r2]|] eqn:E2; [|discriminate].
  destruct (lex_exp r2) as [[e r3]|] eqn:E3; [|discriminate].
  intros H; inversion H; subst.
  apply lex_sign_length in E0. apply lex_int_length in E1.
  apply lex_frac_length in E2. apply lex_exp_length in E3. lia.
Qed.

Lemma prepend_Parsed (p : string) (res : parse_result string) (t r : string) :
  prepend p res = Parsed t r -> exists t', res = Parsed t' r.
Proof.
  destruct res; simpl; intros H; inversion H; eauto.
Qed.

Lemma lex_chars_length (s : string) :
  forall hi t r, lex_chars hi s = Parsed t r -> String.length r < String.length s.
Proof.
  induction s as [s IH] using (well_founded_induction
                                 (Wf_nat.well_founded_ltof _ String.length)).
  unfold Wf_nat.ltof in IH.
  intros hi t r H. destruct s as [|c s]; [discriminate|]. simpl in H.
  destruct (byte_is c 34). { inversion H; subst; simpl; lia. }
  destruct (byte_is c 92).
  - destruct s as [|e r1]; [discriminate|].
    destruct (byte_is e 117).
    + destruct r1 as [|h1 [|h2 [|h3 [|h4 r2]]]]; try discriminate.
      destruct (hex4 h1 h2 h3 h4); [|discriminate].
      destruct (emit_unit hi n) as [txt hi'].
      apply prepend_Parsed in H as [t' H]. apply IH in H; simpl in *; lia.
    + destruct (simple_escape e); [|discriminate].
      apply prepend_Parsed in H as [t' H]. apply IH in H; simpl in *; lia.
  - destruct (Nat.ltb (nat_of_ascii c) 32); [discriminate|].
    apply prepend_Parsed in H as [t' H]. apply IH in H; simpl in *; lia.
Qed.

Lemma parsed_map_Parsed {A B : Type} (f : A -> B) (res : parse_result A) b r :
  parsed_map f res = Parsed b r -> exists a, res = Parsed a r.
Proof.
  destruct res; simpl; intros H; inversion H; eauto.
Qed.

Lemma parsed_map_fuel {A B : Type} (f : A -> B) (res : parse_result A) :
  parsed_map f res = OutOfFuel -> res = OutOfFuel.
Proof.
  destruct res; simpl; intros H; inversion H; eauto.
Qed.

Lemma lex_chars_fuel (s : string) :
  forall hi, lex_chars hi s <> OutOfFuel.
Proof.
  induction s as [s IH] using (well_founded_induction
                                 (Wf_nat.well_founded_ltof _ String.length)).
  unfold Wf_nat.ltof in IH.
  intros hi H. destruct s as [|c s]; [discriminate|]. simpl in H.
  destruct (byte_is c 34); [discriminate|].
  destruct (byte_is c 92).
  - destruct s as [|e r1]; [discriminate|].
    destruct (byte_is e 117).
    + destruct r1 as [|h1 [|h2 [|h3 [|h4 r2]]]]; try discriminate.
      destruct (hex4 h1 h2 h3 h4); [|discriminate].
      destruct (emit_unit hi n) as [txt hi'].
      apply parsed_map_fuel in H. apply IH in H; auto. simpl; lia.
    + destruct (simple_escape e); [|discriminate].
      apply parsed_map_fuel in H. apply IH in H; auto. simpl; lia.
  - destruct (Nat.ltb (nat_of_ascii c) 32); [discriminate|].
    apply parsed_map_fuel in H. apply IH in H; auto.
Qed.

Lemma lex_number_fuel (s : string) : lex_number s <> OutOfFuel.
Proof.
  unfold lex_number. intros H. repeat break_match; discriminate.
Qed.

#[local] Arguments substring_from : simpl never.
#[local] Arguments startsWith : simpl never.

(** A parsed value, element list or member list consumed at least one
    character. *)
Lemma parse_consumes (fuel : nat) :
  (forall s v r, parse_value fuel s = Parsed v r -> String.length r < String.length s) /\
  (forall s vs r, parse_elements fuel s = Parsed vs r -> String.length r < String.length s) /\
  (forall s ms r, parse_members fuel s = Parsed ms r -> String.length r < String.length s).
Proof.
  induction fuel as [|f (IHv & IHe & IHm)]; [repeat split; intros; discriminate|].
  repeat split.
  - intros s v r H. simpl in H. destruct s as [|c s]; [discriminate|].
    destruct (byte_is c 123).
    { pose proof (skip_ws_length s) as L.
      destruct (skip_ws s) as [|c1 r1] eqn:E; [discriminate|].
      destruct (byte_is c1 125).
      - inversion H; subst. simpl in *; lia.
      - apply parsed_map_Parsed in H as [a H]. apply IHm in H. simpl in *; lia. }
    destruct (byte_is c 91).
    { pose proof (skip_ws_length s) as L.
      destruct (skip_ws s) as [|c1 r1] eqn:E; [discriminate|].
      destruct (byte_is c1 93).
      - inversion H; subst. simpl in *; lia.
      - apply parsed_map_Parsed in H as [a H]. apply IHe in H. simpl in *; lia. }
    destruct (byte_is c 34).
    { apply parsed_map_Parsed in H as [a H]. apply lex_chars_length in H. simpl; lia. }
    destruct (byte_is c 45 || is_digit c).
    { apply parsed_map_Parsed in H as [a H]. apply lex_number_length in H. simpl in *; lia. }
    unfold startsWith in H.
    destruct (has_prefix "true" (String c s)) eqn:P1.
    { inversion H; subst. apply prefix_length in P1.
      rewrite substring_from_length. simpl in *; lia. }
    destruct (has_prefix "false" (String c s)) eqn:P2.
    { inversion H; subst. apply prefix_length in P2.
      rewrite substring_from_length. simpl in *; lia. }
    destruct (has_prefix "null" (String c s)) eqn:P3; [|discriminate].
    inversion H; subst. apply prefix_length in P3.
    rewrite substring_from_length. simpl in *; lia.
  - intros s vs r H. simpl in H.
    destruct (parse_value f s) as [v r0| |] eqn:E; try discriminate.
    apply IHv in E. pose proof (skip_ws_length r0) as L.
    destruct (skip_ws r0) as [|c r1] eqn:E1; [discriminate|].
    destruct (byte_is c 44).
    + apply parsed_map_Parsed in H as [a H]. apply IHe in H.
      pose proof (skip_ws_length r1). simpl in *; lia.
    + destruct (byte_is c 93); [|discriminate]. inversion H; subst. simpl in *; lia.
  - intros s ms r H. simpl in H. destruct s as [|q s]; [discriminate|].
    destruct (byte_is q 34); [|discriminate].
    destruct (lex_chars None s) as [k r1| |] eqn:E; try discriminate.
    apply lex_chars_length in E. pose proof (skip_ws_length r1) as L1.
    destruct (skip_ws r1) as [|c1 r2] eqn:E1; [discriminate|].
    destruct (byte_is c1 58); [|discriminate].
    destruct (parse_value f (skip_ws r2)) as [v r3| |] eqn:E2; try discriminate.
    apply IHv in E2. pose proof (skip_ws_length r2) as L2.
    pose proof (skip_ws_length r3) as L3.
    destruct (skip_ws r3) as [|c2 r4] eqn:E3; [discriminate|].
    destruct (byte_is c2 44).
    + apply parsed_map_Parsed in H as [a H]. apply IHm in H.
      pose proof (skip_ws_length r4). simpl in *; lia.
    + destruct (byte_is c2 125); [|discriminate]. inversion H; subst. simpl in *; lia.
Qed.

(** Two units of fuel for each character are enough. *)
Lemma parse_fuel (fuel : nat) :
  (forall s, 2 * String.length s + 1 <= fuel -> parse_value fuel s <> OutOfFuel) /\
  (forall s, 2 * String.length s + 2 <= fuel -> parse_elements fuel s <> OutOfFuel) /\
  (forall s, 2 * String.length s + 2 <= fuel -> parse_members fuel s <> OutOfFuel).
Proof.
  induction fuel as [|f (IHv & IHe & IHm)]; [repeat split; intros; lia|].
  repeat split.
  - intros s F H. simpl in H. destruct s as [|c s]; [discriminate|].
    pose proof (skip_ws_length s) as L.
    destruct (byte_is c 123).
    { destruct (skip_ws s) as [|c1 r1] eqn:E; [discriminate|].
      destruct (byte_is c1 125); [discriminate|].
      apply parsed_map_fuel in H. apply IHm in H; auto. simpl in *; lia. }
    destruct (byte_is c 91).
    { destruct (skip_ws s) as [|c1 r1] eqn:E; [discriminate|].
      destruct (byte_is c1 93); [discriminate|].
      apply parsed_map_fuel in H. apply IHe in H; auto. simpl in *; lia. }
    destruct (byte_is c 34).
    { apply parsed_map_fuel in H. apply lex_chars_fuel in H; auto. }
    destruct (byte_is c 45 || is_digit c).
    { apply parsed_map_fuel in H. apply lex_number_fuel in H; auto. }
    repeat break_match; discriminate.
  - intros s F H. simpl in H.
    destruct (parse_value f s) as [v r0| |] eqn:E; try discriminate.
    + apply (proj1 (parse_consumes f)) in E. pose proof (skip_ws_length r0) as L.
      destruct (skip_ws r0) as [|c r1] eqn:E1; [discriminate|].
      destruct (byte_is c 44).
      * apply parsed_map_fuel in H. apply IHe in H; auto.
        pose proof (skip_ws_length r1). simpl in *; lia.
      * destruct (byte_is c 93); discriminate.
    + apply IHv in E; auto. lia.
  - intros s F H. simpl in H. destruct s as [|q s]; [discriminate|].
    destruct (byte_is q 34); [|discriminate].
    destruct (lex_chars None s) as [k r1| |] eqn:E; try discriminate.
    + apply lex_chars_length in E. pose proof (skip_ws_length r1) as L1.
      destruct (skip_ws r1) as [|c1 r2] eqn:E1; [discriminate|].
      destruct (byte_is c1 58); [|discriminate].
      pose proof (skip_ws_length r2) as L2.
      destruct (parse_value f (skip_ws r2)) as [v r3| |] eqn:E2; try discriminate.
      * apply (proj1 (parse_consumes f)) in E2.
        pose proof (skip_ws_length r3) as L3.
        destruct (skip_ws r3) as [|c2 r4] eqn:E3; [discriminate|].
        destruct (byte_is c2 44).
        -- apply parsed_map_fuel in H. apply IHm in H; auto.
           pose proof (skip_ws_length r4). simpl in *; lia.
        -- destruct (byte_is c2 125); discriminate.
      * apply IHv in E2; auto. simpl in *; lia.
    + apply lex_chars_fuel in E; auto.
Qed.

(** [JSON.parse] is total on the model: the text parses or is a syntax
    error, the fuel never runs out. *)
Lemma JSON_parse_total (s : string) : parse_text s <> OutOfFuel.
Proof.
  unfold parse_text. intros H.
  destruct (parse_value (2 * String.length s + 1) (skip_ws s)) eqn:E; try discriminate.
  - destruct (skip_ws rest); discriminate.
  - apply (proj1 (parse_fuel _)) in E; auto.
    pose proof (skip_ws_length s). lia.
Qed.

End JSFacts.

(* ================================================================== *)
(** * api.js and main.js: failures of the dashboard endpoints           *)
(* ================================================================== *)

Module ApiFacts.
Import JS Http.

Lemma helper_total (r : fetch_result json) (f : call json json) :
  (f = Api.fetchNodeStatuses \/ f = Api.fetchAlerts \/ f = Api.fetchAvailableModels) ->
  exists v, resume f r = Normal v.
Proof.
  intros [-> | [-> | ->]]; destruct r as [|[|] status [v|]]; simpl; eauto.
Qed.

(** C8. The dashboard helpers [fetchNodeStatuses], [fetchAlerts] and
    [fetchAvailableModels] never throw to their caller: whatever the outcome
    of the request, each resolves to a value; for a response that is not ok
    and for a rejected fetch that value is the empty array. So [appTick]
    always gets its three values, each being what the helper resolved to:
    a failing endpoint hands the UI empty data and the tick goes on. *)
Theorem dashboard_helpers_never_throw :
  (forall r : fetch_result json,
      (exists v, resume Api.fetchNodeStatuses r = Normal v) /\
      (exists v, resume Api.fetchAlerts r = Normal v) /\
      (exists v, resume Api.fetchAvailableModels r = Normal v)) /\
  (forall (status : nat) (b : option json),
      resume Api.fetchNodeStatuses (Response false status b) = Normal (JArray []) /\
      resume Api.fetchAlerts (Response false status b) = Normal (JArray []) /\
      resume Api.fetchAvailableModels (Response false status b) = Normal (JArray [])) /\
  (resume Api.fetchNodeStatuses Rejected = Normal (JArray []) /\
   resume Api.fetchAlerts Rejected = Normal (JArray []) /\
   resume Api.fetchAvailableModels Rejected = Normal (JArray [])) /\
  (forall rn ra rm : fetch_result json,
      exists n a m,
        Main.appTick_data rn ra rm
          = Normal {| Main.nodes := n; Main.alerts := a; Main.models := m |} /\
        resume Api.fetchNodeStatuses rn = Normal n /\
        resume Api.fetchAlerts ra = Normal a /\
        resume Api.fetchAvailableModels rm = Normal m).
Proof.
  split; [|split; [|split]].
  - intros r; repeat split; apply helper_total; auto.
  - intros status b; repeat split.
  - repeat split.
  - intros rn ra rm.
    destruct (helper_total rn Api.fetchNodeStatuses) as [n Hn]; auto.
    destruct (helper_total ra Api.fetchAlerts) as [a Ha]; auto.
    destruct (helper_total rm Api.fetchAvailableModels) as [m Hm]; auto.
    exists n, a, m. unfold Main.appTick_data. rewrite Hn, Ha, Hm. auto.
Qed.

End ApiFacts.

(* ================================================================== *)
(** * The UI module: the styling of alerts                              *)
(* ================================================================== *)

Module UiFacts.
Import JS.

Section WithNumbers.
Context {num : Numbers}.

Lemma alert_element_class (alert : json) (level : value) (node : Ui.alert_node) :
  get (Some alert) "level" = Normal level ->
  Ui.alert_element alert = Normal node ->
  exists l m,
    node = Ui.AlertDiv
             ("p-3 rounded-lg mb-2 flex items-center "
                ++ (if Ui.strict_eq_string level Ui.CRITICAL_LEVEL
                    then Ui.red_classes else Ui.yellow_classes)) l m.
Proof.
  unfold Ui.alert_element. intros -> H.
  destruct (concat_value EmptyString level) as [l|]; [|discriminate H].
  destruct (get (Some alert) "message") as [message|]; [|discriminate H].
  destruct (concat_value EmptyString message) as [m|]; [|discriminate H].
  inversion H; eauto.
Qed.

Lemma strict_eq_string_true (v : value) (t : string) :
  Ui.strict_eq_string v t = true <-> v = Some (JString t).
Proof.
  destruct v as [[| | |u| |]|]; simpl; split; try discriminate;
    try (intros H; inversion H; fail).
  - intros H; apply String.eqb_eq in H; subst; auto.
  - intros H; inversion H. apply String.eqb_refl.
Qed.

(** The children that the [forEach] of [updateAlerts] appends are the
    elements of the alerts, one for one. *)
Lemma forEach_nodes (xs : list json) :
  forall acc nodes,
    for_of xs
      (fun alert container =>
         match Ui.alert_element alert with
         | Normal el => (Normal tt, option_map (fun c => c ++ [el]) container)
         | Throw e => (Throw e, container)
         end) (Some acc) = (Normal tt, Some nodes) ->
    exists els, nodes = acc ++ els /\
                Forall2 (fun x el => Ui.alert_element x = Normal el) xs els.
Proof.
  induction xs as [|x xs IH]; intros acc nodes H.
  - inversion H; subst. exists []. rewrite app_nil_r. auto.
  - simpl in H. unfold bind in H.
    destruct (Ui.alert_element x) as [el|e] eqn:E; [|discriminate].
    simpl in H. apply IH in H as (els & -> & F).
    exists (el :: els). rewrite <- app_assoc. auto.
Qed.

Lemma updateAlerts_nodes (xs : list json) (c nodes : list Ui.alert_node) :
  xs <> [] ->
  Ui.updateAlerts (JArray xs) (Some c) = (Normal tt, Some nodes) ->
  Forall2 (fun x el => Ui.alert_element x = Normal el) xs nodes.
Proof.
  intros Hne H. unfold Ui.updateAlerts in H. simpl in H.
  destruct xs as [|x xs]; [contradiction|].
  change (Nat.eqb (List.length (x :: xs)) 0) with false in H.
  apply forEach_nodes in H as (els & -> & F). auto.
Qed.

Lemma Forall2_nth {A B : Type} (R : A -> B -> Prop) (xs : list A) (ys : list B) :
  Forall2 R xs ys ->
  forall i x, nth_error xs i = Some x -> exists y, nth_error ys i = Some y /\ R x y.
Proof.
  induction 1 as [|x0 y0 xs ys H0 F IH]; intros [|i] x Hi; try discriminate.
  - inversion Hi; subst. exists y0; auto.
  - apply IH in Hi. exact Hi.
Qed.

(** C7, as the code has it. For every alert that [updateAlerts] renders,
    the element is styled as critical (red) if and only if the level is the
    string 严重, and styled as warning (yellow) if and only if it is
    anything else; in particular an alert whose level is [warning] or
    [critical] is styled as warning (yellow). *)
Theorem alert_styled_by_localized_level
    (xs : list json) (c nodes : list Ui.alert_node)
    (i : nat) (alert : json) (level : value) :
  Ui.updateAlerts (JArray xs) (Some c) = (Normal tt, Some nodes) ->
  nth_error xs i = Some alert ->
  get (Some alert) "level" = Normal level ->
  exists node,
    nth_error nodes i = Some node /\
    (Ui.styled_critical node <-> level = Some (JString Ui.CRITICAL_LEVEL)) /\
    (Ui.styled_warning node <-> level <> Some (JString Ui.CRITICAL_LEVEL)) /\
    (level = Some (JString "warning") \/ level = Some (JString "critical") ->
     Ui.styled_warning node).
Proof.
  intros H Hi Hl.
  assert (Hne : xs <> []) by (intros ->; destruct i; discriminate).
  pose proof (updateAlerts_nodes xs c nodes Hne H) as F.
  destruct (Forall2_nth _ _ _ F i alert Hi) as (node & Hn & Hx).
  exists node. split; [exact Hn|].
  destruct (alert_element_class _ _ _ Hl Hx) as (l & m & ->).
  pose proof (strict_eq_string_true level Ui.CRITICAL_LEVEL) as S.
  destruct (Ui.strict_eq_string level Ui.CRITICAL_LEVEL) eqn:E; simpl.
  - assert (L : level = Some (JString Ui.CRITICAL_LEVEL)) by (apply S; auto).
    repeat split; auto; try discriminate.
    + intros K; contradiction.
    + intros [K | K]; rewrite K in L; discriminate.
  - assert (L : level <> Some (JString Ui.CRITICAL_LEVEL))
      by (intros K; apply S in K; discriminate).
    repeat split; auto; try discriminate.
    intros K; contradiction.
Qed.

End WithNumbers.

(** C7, as stated, fails: an alert of level [critical] is not styled as
    critical. *)
Lemma critical_level_is_not_styled_critical :
  ~ (forall (xs : list json) (c nodes : list Ui.alert_node)
            (i : nat) (alert : json) (level : string) (node : Ui.alert_node),
        (level = "warning" \/ level = "critical") ->
        Ui.updateAlerts (num := literal_numbers) (JArray xs) (Some c)
          = (Normal tt, Some nodes) ->
        nth_error xs i = Some alert ->
        get (Some alert) "level" = Normal (Some (JString level)) ->
        nth_error nodes i = Some node ->
        (Ui.styled_critical node <-> level = "critical") /\
        (Ui.styled_warning node <-> level = "warning")).
Proof.
  intros H.
  pose (alert := JObject [("level", JString "critical");
                          ("message", JString "GPU temperature 91")]).
  destruct (H [alert] [] _ 0 alert "critical" _ (or_intror eq_refl)
              eq_refl eq_refl eq_refl eq_refl) as [[_ K] _].
  specialize (K eq_refl). simpl in K. discriminate K.
Qed.

Lemma alert_styled_by_localized_level_witness :
  exists node,
    nth_error
      [Ui.AlertDiv "p-3 rounded-lg mb-2 flex items-center bg-yellow-900 border border-yellow-700"
         "critical" "GPU temperature 91"] 0 = Some node /\
    (Ui.styled_critical node <-> Some (JString "critical") = Some (JString Ui.CRITICAL_LEVEL)) /\
    (Ui.styled_warning node <-> Some (JString "critical") <> Some (JString Ui.CRITICAL_LEVEL)) /\
    (Some (JString "critical") = Some (JString "warning")
     \/ Some (JString "critical") = Some (JString "critical") ->
     Ui.styled_warning node).
Proof.
  apply (alert_styled_by_localized_level (num := literal_numbers)
           [JObject [("level", JString "critical");
                     ("message", JString "GPU temperature 91")]]
           []
           [Ui.AlertDiv
              "p-3 rounded-lg mb-2 flex items-center bg-yellow-900 border border-yellow-700"
              "critical" "GPU temperature 91"]
           0
           (JObject [("level", JString "critical");
                     ("message", JString "GPU temperature 91")])
           (Some (JString "critical"))); reflexivity.
Defined.

End UiFacts.

(* ================================================================== *)
(** * dataset.js: incremental rendering and polling                     *)
(* ================================================================== *)

Module DatasetFacts.
Import JS Http Dataset.

(** ** renderJobResults *)

Lemma render_loop_skipn (results : list job_result) :
  forall trips i children,
    trips = List.length results - i ->
    render_loop trips i results children
      = children ++ map resultEl (skipn i results).
Proof.
  induction trips as [|t IH]; intros i children Ht; simpl.
  - rewrite skipn_all2 by lia. simpl. now rewrite app_nil_r.
  - assert (Hi : i < List.length results) by lia.
    apply Nat.ltb_lt in Hi as Hb. rewrite Hb.
    destruct (nth_error results i) as [result|] eqn:E.
    + rewrite IH by lia. rewrite <- app_assoc. simpl.
      f_equal. clear - E. revert i E.
      induction results as [|x xs IHx]; intros [|i] E; try discriminate.
      * inversion E; reflexivity.
      * simpl in *. auto.
    + apply nth_error_None in E. lia.
Qed.

Lemma renderJobResults_appends (results : list job_result) (s : state) :
  jobResults (renderJobResults results s)
    = jobResults s ++ map resultEl (skipn (List.length (jobResults s)) results).
Proof.
  unfold renderJobResults. simpl. apply render_loop_skipn. reflexivity.
Qed.

Lemma renderJobResults_extends (prev ext : list job_result) (s : state) :
  jobResults s = map resultEl prev ->
  jobResults (renderJobResults (prev ++ ext) s) = map resultEl (prev ++ ext).
Proof.
  intros H. rewrite renderJobResults_appends, H, length_map.
  rewrite skipn_app, skipn_all, Nat.sub_diag. simpl. now rewrite map_app.
Qed.

Lemma displays_append_only (snaps : list (list job_result)) :
  forall prev s,
    jobResults s = map resultEl prev ->
    append_only prev snaps ->
    displays snaps s = map (map resultEl) snaps.
Proof.
  induction snaps as [|r rest IH]; intros prev s Hs Ha; [reflexivity|].
  destruct Ha as [[ext ->] Ha].
  pose proof (renderJobResults_extends prev ext s Hs) as E.
  cbn [displays map]. rewrite E. f_equal. apply (IH (prev ++ ext)); auto.
Qed.

(** C4. Start from the emptied results container and let the results array
    of each snapshot extend the previous one. After each poll the container
    holds exactly the rendered entries of that snapshot's results, one for
    each element and in the order of the array; and a call of
    [renderJobResults] keeps every child that was there, in place, whatever
    it is given. *)
Theorem results_rendered_incrementally :
  (forall (snaps : list (list job_result)) (s : state),
      jobResults s = [] ->
      append_only [] snaps ->
      displays snaps s = map (map resultEl) snaps) /\
  (forall (results : list job_result) (s : state),
      exists added,
        jobResults (renderJobResults results s) = jobResults s ++ added).
Proof.
  split.
  - intros snaps s Hs Ha. apply (displays_append_only snaps []); auto.
  - intros results s. eexists. apply renderJobResults_appends.
Qed.

(** ** Rendering the results of a body *)

Lemma skipn_nth_error {A : Type} (l : list A) :
  forall i x, nth_error l i = Some x -> skipn i l = x :: skipn (S i) l.
Proof.
  induction l as [|y l IH]; intros [|i] x E; try discriminate E.
  - inversion E; reflexivity.
  - simpl in E. apply (IH i x E).
Qed.

Lemma render_entries_outcome (entries : list (option job_result)) :
  forall trips i children,
    trips = List.length entries - i ->
    fst (render_entries trips i entries children)
      = if forallb present (skipn i entries) then Normal tt else Throw ETypeError.
Proof.
  induction trips as [|t IH]; intros i children Ht; simpl.
  - rewrite skipn_all2 by lia. reflexivity.
  - assert (Hi : i < List.length entries) by lia.
    apply Nat.ltb_lt in Hi as Hb. rewrite Hb.
    destruct (nth_error entries i) as [entry|] eqn:E.
    + rewrite (skipn_nth_error entries i entry E).
      destruct entry as [result|]; simpl; [|reflexivity].
      apply IH. lia.
    + apply nth_error_None in E. lia.
Qed.

Lemma render_entries_array (rs : list job_result) :
  forall trips i children,
    render_entries trips i (map Some rs) children
      = (Normal tt, render_loop trips i rs children).
Proof.
  induction trips as [|t IH]; intros i children; simpl; [reflexivity|].
  rewrite length_map, nth_error_map.
  destruct (Nat.ltb i (List.length rs)); [|reflexivity].
  destruct (nth_error rs i) as [result|]; simpl; [apply IH | reflexivity].
Qed.

Lemma renderJobResults_member_array (rs : list job_result) (s : state) :
  renderJobResults_member (Some (map Some rs)) s = (Normal tt, renderJobResults rs s).
Proof.
  unfold renderJobResults_member, renderJobResults.
  rewrite render_entries_array, length_map. reflexivity.
Qed.

Lemma renderJobResults_member_outcome (snap : job_snapshot) (s : state) :
  fst (renderJobResults_member (results snap) s)
    = if renderable snap s then Normal tt else Throw ETypeError.
Proof.
  unfold renderJobResults_member, renderable.
  destruct (results snap) as [entries|]; [|reflexivity].
  rewrite <- (render_entries_outcome entries
                (List.length entries - List.length (jobResults s))
                (List.length (jobResults s)) (jobResults s) eq_refl).
  destruct (render_entries _ _ _ _); reflexivity.
Qed.

Lemma renderJobResults_member_state results (s : state) :
  exists children, snd (renderJobResults_member results s) = set_jobResults children s.
Proof.
  unfold renderJobResults_member.
  destruct results as [entries|].
  - destruct (render_entries _ _ _ _) as [c children]. exists children. reflexivity.
  - exists (jobResults s). destruct s; reflexivity.
Qed.


(** ** Polling *)

Lemma startJobMonitoring_one_interval (s : state) :
  one_interval s -> one_interval (startJobMonitoring s).
Proof.
  unfold one_interval, startJobMonitoring. intros H.
  destruct (jobStatusInterval s) as [h|] eqn:E; simpl; rewrite H; simpl.
  - rewrite Pos.eqb_refl. reflexivity.
  - reflexivity.
Qed.

Lemma clear_own_interval (s : state) :
  one_interval s -> intervals (clearInterval (jobStatusInterval s) s) = [].
Proof.
  unfold one_interval. intros H.
  destruct (jobStatusInterval s) as [h|]; simpl; rewrite H; simpl; auto.
  rewrite Pos.eqb_refl. reflexivity.
Qed.

(** The three statements that stop the polling. *)
Lemma stop_polling (t : list text_part) (s : state) :
  one_interval s ->
  let s' := set_jobProgressText t
              (set_jobStatusInterval None (clearInterval (jobStatusInterval s) s)) in
  jobStatusInterval s' = None /\ intervals s' = [].
Proof.
  intros H s'. split; [reflexivity|].
  change (intervals (clearInterval (jobStatusInterval s) s) = []).
  apply clear_own_interval. exact H.
Qed.

Lemma stop_polling_frame (t : list text_part) (s : state) :
  let s' := set_jobProgressText t
              (set_jobStatusInterval None (clearInterval (jobStatusInterval s) s)) in
  requests s' = requests s /\ currentJobId s' = currentJobId s.
Proof.
  cbn. destruct (jobStatusInterval s); split; reflexivity.
Qed.

Lemma updateJobStatus_resume_failure jobId (r : fetch_result status_body) (s : state) :
  r = Rejected \/ (exists code b, r = Response false code b)
  \/ (exists code, r = Response true code None)
  \/ (exists code, r = Response true code (Some BodyNull)) ->
  updateJobStatus_resume jobId r s
    = set_jobProgressText [Fixed "错误: 无法获取任务状态"]
        (set_jobStatusInterval None (clearInterval (jobStatusInterval s) s)).
Proof.
  intros [-> | [(code & b & ->) | [(code & ->) | (code & ->)]]]; reflexivity.
Qed.

Lemma updateJobStatus_resume_snapshot jobId code (snap : job_snapshot) (s : state) :
  exists w,
    let s2 := set_jobProgressText (progress_line "处理中: " snap)
                (set_jobProgress_width w s) in
    updateJobStatus_resume jobId (Response true code (Some (BodyOf snap))) s
      = match renderJobResults_member (results snap) s2 with
        | (Normal _, s3) =>
            if terminal_status (status snap)
            then set_jobProgressText (progress_line "任务完成: " snap)
                   (set_jobStatusInterval None (clearInterval (jobStatusInterval s3) s3))
            else s3
        | (Throw _, s3) =>
            set_jobProgressText [Fixed "错误: 无法获取任务状态"]
              (set_jobStatusInterval None (clearInterval (jobStatusInterval s3) s3))
        end.
Proof.
  exists (match total_items snap with
          | Some total =>
              if Nat.ltb 0 total then WidthRatio (processed_items snap) total else WidthZero
          | None => WidthZero
          end).
  intros s2. subst s2.
  cbv [updateJobStatus_resume try_catch updateJobStatus_try updateJobStatus_catch
       bind lift modify ret resume Api.fetchJobStatus Api.await_fetch Api.await_json
       negb members].
  destruct (renderJobResults_member (results snap) _) as [[[]|e] s3].
  - destruct (terminal_status (status snap)); reflexivity.
  - reflexivity.
Qed.

Lemma updateJobStatus_resume_cases jobId r (s : state) :
  one_interval s ->
  let s' := updateJobStatus_resume jobId r s in
  (jobStatusInterval s' = None /\ intervals s' = [] /\
   (fetch_fails r \/ delivers_null r \/
    exists snap, delivers r snap /\
                 (terminal_status (status snap) = true \/ renderable snap s = false)))
  \/ (jobStatusInterval s' = jobStatusInterval s /\ intervals s' = intervals s /\
      exists snap, delivers r snap /\
                   terminal_status (status snap) = false /\ renderable snap s = true).
Proof.
  intros H s'. subst s'.
  destruct r as [|ok code [[|snap]|]].
  - left. rewrite updateJobStatus_resume_failure by auto.
    destruct (stop_polling [Fixed "错误: 无法获取任务状态"] s H) as [A B].
    split; [exact A|]. split; [exact B|]. left. left. reflexivity.
  - destruct ok.
    + left. rewrite updateJobStatus_resume_failure by eauto 6.
      destruct (stop_polling [Fixed "错误: 无法获取任务状态"] s H) as [A B].
      split; [exact A|]. split; [exact B|]. right. left. exists code. reflexivity.
    + left. rewrite updateJobStatus_resume_failure by eauto 6.
      destruct (stop_polling [Fixed "错误: 无法获取任务状态"] s H) as [A B].
      split; [exact A|]. split; [exact B|]. left. right. left. eauto.
  - destruct ok.
    + destruct (updateJobStatus_resume_snapshot jobId code snap s) as [w E].
      cbv zeta in E. rewrite E. clear E.
      set (s2 := set_jobProgressText (progress_line "处理中: " snap)
                   (set_jobProgress_width w s)).
      pose proof (renderJobResults_member_outcome snap s2) as O.
      destruct (renderJobResults_member_state (results snap) s2) as [children St].
      change (renderable snap s2) with (renderable snap s) in O.
      destruct (renderJobResults_member (results snap) s2) as [c s3].
      cbn [fst snd] in O, St. subst c s3.
      assert (H3 : one_interval (set_jobResults children s2)) by exact H.
      destruct (renderable snap s) eqn:R.
      * destruct (terminal_status (status snap)) eqn:T.
        -- left.
           destruct (stop_polling (progress_line "任务完成: " snap) _ H3) as [A B].
           split; [exact A|]. split; [exact B|]. right. right.
           exists snap. split; [exists code; reflexivity | left; exact T].
        -- right. split; [reflexivity|]. split; [reflexivity|].
           exists snap. split; [exists code; reflexivity | split; [exact T | exact R]].
      * left.
        destruct (stop_polling [Fixed "错误: 无法获取任务状态"] _ H3) as [A B].
        split; [exact A|]. split; [exact B|]. right. right.
        exists snap. split; [exists code; reflexivity | right; exact R].
    + left. rewrite updateJobStatus_resume_failure by eauto 6.
      destruct (stop_polling [Fixed "错误: 无法获取任务状态"] s H) as [A B].
      split; [exact A|]. split; [exact B|]. left. right. left. eauto.
  - destruct ok.
    + left. rewrite updateJobStatus_resume_failure by eauto 6.
      destruct (stop_polling [Fixed "错误: 无法获取任务状态"] s H) as [A B].
      split; [exact A|]. split; [exact B|]. left. right. right. eauto.
    + left. rewrite updateJobStatus_resume_failure by eauto 6.
      destruct (stop_polling [Fixed "错误: 无法获取任务状态"] s H) as [A B].
      split; [exact A|]. split; [exact B|]. left. right. left. eauto.
Qed.

Lemma updateJobStatus_resume_one_interval jobId r (s : state) :
  one_interval s -> one_interval (updateJobStatus_resume jobId r s).
Proof.
  intros H.
  destruct (updateJobStatus_resume_cases jobId r s H) as [(A & B & _) | (A & B & _)];
    unfold one_interval; rewrite A, B; auto.
Qed.

(** Whatever the outcome, the requests sent and the current job are as
    they were, and the interval variable is as it was or [null]. *)
Lemma updateJobStatus_resume_frame jobId r (s : state) :
  let s' := updateJobStatus_resume jobId r s in
  requests s' = requests s /\ currentJobId s' = currentJobId s /\
  (jobStatusInterval s' = None \/ jobStatusInterval s' = jobStatusInterval s).
Proof.
  intros s'. subst s'.
  assert (F : r = Rejected \/ (exists code b, r = Response false code b)
              \/ (exists code, r = Response true code None)
              \/ (exists code, r = Response true code (Some BodyNull)) ->
              requests (updateJobStatus_resume jobId r s) = requests s /\
              currentJobId (updateJobStatus_resume jobId r s) = currentJobId s /\
              (jobStatusInterval (updateJobStatus_resume jobId r s) = None \/
               jobStatusInterval (updateJobStatus_resume jobId r s) = jobStatusInterval s)).
  { intros D. rewrite (updateJobStatus_resume_failure jobId r s D).
    destruct (stop_polling_frame [Fixed "错误: 无法获取任务状态"] s) as [A B].
    cbv zeta in A, B. rewrite A, B. auto. }
  destruct r as [|[|] code [[|snap]|]]; try (apply F; eauto 6; fail).
  - clear F.
    destruct (updateJobStatus_resume_snapshot jobId code snap s) as [w E].
    cbv zeta in E. rewrite E. clear E.
    set (s2 := set_jobProgressText (progress_line "处理中: " snap)
                 (set_jobProgress_width w s)).
    destruct (renderJobResults_member_state (results snap) s2) as [children St].
    destruct (renderJobResults_member (results snap) s2) as [c s3].
    cbn [snd] in St. subst s3.
    destruct c as [[]|e].
    + destruct (terminal_status (status snap)).
      * destruct (stop_polling_frame (progress_line "任务完成: " snap)
                    (set_jobResults children s2)) as [A B].
        cbv zeta in A, B. rewrite A, B. auto.
      * auto.
    + destruct (stop_polling_frame [Fixed "错误: 无法获取任务状态"]
                  (set_jobResults children s2)) as [A B].
      cbv zeta in A, B. rewrite A, B. auto.
Qed.

Lemma step_one_interval (e : event) (s : state) :
  one_interval s -> one_interval (step e s).
Proof.
  intros H. destruct e as [files count| |r|h|jobId r]; simpl.
  - exact H.
  - unfold handleFormSubmit_begin. destruct (fileInput_files s); exact H.
  - unfold handleFormSubmit_resume.
    destruct (resume (Api.uploadDataset []) r) as [resp|e].
    + destruct (job_id resp) as [id|].
      * destruct (nonempty id); [|exact H].
        apply startJobMonitoring_one_interval. exact H.
      * exact H.
    + destruct e; exact H.
  - destruct (active h s); [|exact H].
    unfold updateJobStatus_begin. destruct (currentJobId s) as [id|]; [|exact H].
    destruct (nonempty id); exact H.
  - apply updateJobStatus_resume_one_interval. exact H.
Qed.

Lemma run_one_interval (es : list event) :
  forall s, one_interval s -> one_interval (run es s).
Proof.
  induction es as [|e es IH]; intros s H; simpl; auto.
  apply IH. apply step_one_interval. exact H.
Qed.

Lemma updateJobStatus_resume_requests jobId r (s : state) :
  requests (updateJobStatus_resume jobId r s) = requests s.
Proof.
  apply updateJobStatus_resume_frame.
Qed.





Lemma results_rendered_incrementally_witness :
  displays [[item "a"]; [item "a"; item "b"]; [item "a"; item "b"];
            [item "a"; item "b"; item "c"]] initial
    = map (map resultEl)
          [[item "a"]; [item "a"; item "b"]; [item "a"; item "b"];
           [item "a"; item "b"; item "c"]].
Proof.
  apply (proj1 results_rendered_incrementally).
  - reflexivity.
  - simpl. repeat split.
    + exists [item "a"]. reflexivity.
    + exists [item "b"]. reflexivity.
    + exists []. reflexivity.
    + exists [item "c"]. reflexivity.
Defined.


End DatasetFacts.

(* ================================================================== *)
(** * chat.js: lines, chunks and the read loop                          *)
(* ================================================================== *)

Module ChatFacts.
Import JS Http Chat.
Local Open Scope js_scope.

(** ** Text and lines *)

Lemma append_nil_r (s : string) : (s ++ EmptyString)%string = s.
Proof. induction s as [|c s IH]; simpl; congruence. Qed.

Lemma append_assoc (a b c : string) : ((a ++ b) ++ c)%string = (a ++ (b ++ c))%string.
Proof. induction a as [|x a IH]; simpl; congruence. Qed.

Lemma unlines_app (a b : list string) :
  unlines (a ++ b) = (unlines a ++ unlines b)%string.
Proof.
  induction a as [|l a IH]; simpl; auto.
  rewrite IH, !append_assoc. reflexivity.
Qed.

Lemma split_nl_line (l rest : string) :
  lf_free l = true ->
  split_nl (l ++ String LF rest) = l :: split_nl rest.
Proof.
  induction l as [|c l IH]; simpl; intros H.
  - reflexivity.
  - apply andb_prop in H as [Hc Hl].
    destruct (Ascii.eqb c LF); [discriminate|].
    rewrite IH by exact Hl. reflexivity.
Qed.

Lemma split_nl_rest (rest : string) :
  lf_free rest = true -> split_nl rest = [rest].
Proof.
  induction rest as [|c r IH]; simpl; intros H; auto.
  apply andb_prop in H as [Hc Hr].
  destruct (Ascii.eqb c LF); [discriminate|]. rewrite IH by exact Hr. reflexivity.
Qed.

(** [split] on the text of complete lines followed by an unfinished one. *)
Lemma split_nl_unlines (ls : list string) (rest : string) :
  forallb lf_free ls = true -> lf_free rest = true ->
  split_nl (unlines ls ++ rest) = ls ++ [rest].
Proof.
  induction ls as [|l ls IH]; intros Hl Hr.
  - apply split_nl_rest; exact Hr.
  - apply andb_prop in Hl as [H1 H2].
    change (unlines (l :: ls)) with (l ++ String LF (unlines ls))%string.
    rewrite append_assoc.
    change (String LF (unlines ls) ++ rest)%string
      with (String LF (unlines ls ++ rest)).
    rewrite split_nl_line by exact H1. rewrite IH; auto.
Qed.

Lemma pop_snoc {A : Type} (l : list A) (x : A) : pop (l ++ [x]) = Some (l, x).
Proof.
  induction l as [|y l IH]; simpl; auto. rewrite IH. reflexivity.
Qed.

(** Every text is complete lines followed by an unfinished one. *)
Lemma lines_exist (s : string) :
  exists ls rest,
    s = (unlines ls ++ rest)%string /\ forallb lf_free ls = true /\ lf_free rest = true.
Proof.
  induction s as [|c s (ls & rest & E & Hl & Hr)].
  - exists [], EmptyString. auto.
  - destruct (Ascii.eqb c LF) eqn:Ec.
    + apply Ascii.eqb_eq in Ec. subst c.
      exists (EmptyString :: ls), rest. simpl. rewrite Hl. split; [congruence|auto].
    + destruct ls as [|l ls].
      * exists [], (String c rest). simpl in *. rewrite Ec, Hr. split; [congruence|auto].
      * exists (String c l :: ls), rest. simpl in *. rewrite Ec.
        split; [congruence|auto].
Qed.

(** [split] returns at least one segment: [pop] always finds the new
    buffer. *)
Lemma pop_split_nl (s : string) :
  exists lines rest, pop (split_nl s) = Some (lines, rest).
Proof.
  destruct (lines_exist s) as (ls & rest & -> & Hl & Hr).
  exists ls, rest. rewrite split_nl_unlines by assumption. apply pop_snoc.
Qed.

Lemma lines_unique (ls ls' : list string) (rest rest' : string) :
  forallb lf_free ls = true -> lf_free rest = true ->
  forallb lf_free ls' = true -> lf_free rest' = true ->
  (unlines ls ++ rest)%string = (unlines ls' ++ rest')%string ->
  ls = ls' /\ rest = rest'.
Proof.
  intros H1 H2 H3 H4 E. apply (f_equal split_nl) in E.
  rewrite !split_nl_unlines in E by assumption.
  apply app_inj_tail in E. exact E.
Qed.

Lemma lf_free_no_line (ls : list string) (rest b : string) :
  lf_free b = true -> b = (unlines ls ++ rest)%string ->
  forallb lf_free ls = true -> lf_free rest = true ->
  ls = [] /\ rest = b.
Proof.
  intros Hb E Hl Hr.
  apply (lines_unique ls [] rest b); auto.
Qed.

(** ** The fragment of a frame *)

Section WithNumbers.
Context {num : Numbers}.

(** The member expression of the code reads the fragment of the frame. *)
Lemma delta_content_of_spec (parsed : json) :
  match delta_content_of parsed with
  | Normal c => c = delta_content parsed
  | Throw _ => delta_content parsed = undefined
  end.
Proof.
  unfold delta_content_of, delta_content, first_choice, get.
  destruct parsed as [| b | l | t | xs | ms]; try reflexivity.
  destruct (lookup_last "choices" ms) as [[| b | l | t | xs | cs]|]; try reflexivity.
  - simpl. destruct (String.get 0 t); reflexivity.
  - destruct xs as [|[| b | l | t | ys | c] xs]; try reflexivity; simpl.
    destruct (lookup_last "delta" c) as [[| b | l | t | ys | d]|]; reflexivity.
  - destruct (lookup_last "0" cs) as [[| b | l | t | ys | c]|]; try reflexivity; simpl.
    destruct (lookup_last "delta" c) as [[| b | l | t | ys | d]|]; reflexivity.
Qed.

Lemma condition_spec (parsed : json) :
  match condition parsed with
  | Normal test =>
      truthy test = truthy (delta_content parsed) /\
      (truthy test = true -> delta_content_of parsed = Normal (delta_content parsed))
  | Throw _ => truthy (delta_content parsed) = false
  end.
Proof.
  unfold condition.
  pose proof (delta_content_of_spec parsed) as D.
  destruct (get (Some parsed) "choices") as [choices|e] eqn:G.
  - destruct (truthy choices) eqn:T.
    + destruct (delta_content_of parsed) as [c|e]; subst; auto.
      rewrite D. reflexivity.
    + rewrite T. split; [|discriminate].
      destruct parsed as [| b | l | t | xs | ms]; try reflexivity.
      simpl in G. inversion G as [G']. unfold delta_content. rewrite G'.
      destruct choices as [[| [|] | l | t | xs | cs]|]; simpl in *;
        try reflexivity; try discriminate.
  - destruct parsed; simpl in G; try discriminate. reflexivity.
Qed.

Lemma on_data_line_spec (line : string) (w : world) :
  on_data_line line w = (Normal tt, data_step (substring_from 6 line) w).
Proof.
  unfold on_data_line, data_step, try_catch, bind, parse, lift.
  destruct (JSON_parse (substring_from 6 line)) as [frame|]; [|reflexivity].
  pose proof (condition_spec frame) as C.
  destruct (condition frame) as [test|e].
  - destruct C as [C1 C2]. rewrite <- C1.
    destruct (truthy test); [|reflexivity].
    unfold read. cbn [fst snd]. rewrite C2 by reflexivity.
    destruct (concat_value (content (assistantMessage (me w))) (delta_content frame));
      reflexivity.
  - rewrite C. reflexivity.
Qed.

Lemma on_line_benign (lines : list string) (line : string) (w : world) :
  benign line = true ->
  on_line lines line w = (Normal tt, line_step line w).
Proof.
  unfold benign, on_line, line_step. intros H.
  destruct (startsWith line "data: ").
  - apply on_data_line_spec.
  - rewrite orb_false_r in H. apply negb_true_iff in H. rewrite H. reflexivity.
Qed.

Lemma for_of_benign (context : list string) (ls : list string) :
  forall w,
    forallb benign ls = true ->
    for_of ls (on_line context) w
      = (Normal tt, fold_left (fun w l => line_step l w) ls w).
Proof.
  induction ls as [|l ls IH]; intros w H; [reflexivity|].
  simpl in H. apply andb_prop in H as [H1 H2].
  simpl. unfold bind. rewrite on_line_benign by exact H1. apply IH. exact H2.
Qed.

Lemma line_step_with_buffer (b l : string) (w : world) :
  line_step l (with_buffer b w) = with_buffer b (line_step l w).
Proof.
  unfold line_step, data_step.
  destruct (startsWith l "data: "); [|reflexivity].
  destruct (JSON_parse (substring_from 6 l)) as [frame|]; [|reflexivity].
  destruct (truthy (delta_content frame)); [|reflexivity].
  cbn [with_buffer me assistantMessage set_buffer content].
  destruct (concat_value (content (assistantMessage (me w))) (delta_content frame));
    reflexivity.
Qed.

Lemma fold_with_buffer (b : string) (ls : list string) :
  forall w,
    fold_left (fun w l => line_step l w) ls (with_buffer b w)
      = with_buffer b (fold_left (fun w l => line_step l w) ls w).
Proof.
  induction ls as [|l ls IH]; intros w; [reflexivity|].
  simpl. rewrite line_step_with_buffer. apply IH.
Qed.

(** One turn of the loop when the buffer and the chunk make up the lines
    [ls], all benign, and the unfinished line [rest]. *)
Lemma on_chunk_benign (chunk : string) (ls : list string) (rest : string) (w : world) :
  (buffer (me w) ++ chunk)%string = (unlines ls ++ rest)%string ->
  forallb lf_free ls = true -> lf_free rest = true ->
  forallb benign ls = true ->
  on_chunk chunk w
    = (Normal tt, with_buffer rest (fold_left (fun w l => line_step l w) ls w)).
Proof.
  intros E Hl Hr Hb. unfold on_chunk, bind, on_me, modify, read. simpl.
  rewrite E, split_nl_unlines by assumption. rewrite pop_snoc.
  rewrite for_of_benign by exact Hb.
  match goal with
  | |- (_, fold_left _ _ ?x) = _ => change x with (with_buffer rest w)
  end.
  rewrite fold_with_buffer. reflexivity.
Qed.

Lemma with_buffer_same (w : world) : with_buffer (buffer (me w)) w = w.
Proof. destruct w as [p [a h st b]]. reflexivity. Qed.

(** The read loop on a stream without [node_assigned] lines: whatever the
    chunks, the lines of the whole text are handled one after the other,
    and the unfinished end of the text stays in the buffer. *)
Lemma read_loop_benign (cs : list string) :
  forall (w : world) (ls : list string) (rest : string),
    lf_free (buffer (me w)) = true ->
    (buffer (me w) ++ text_of cs)%string = (unlines ls ++ rest)%string ->
    forallb lf_free ls = true -> lf_free rest = true ->
    forallb benign ls = true ->
    read_loop cs Done w
      = (Normal tt, with_buffer rest (fold_left (fun w l => line_step l w) ls w)).
Proof.
  induction cs as [|c cs IH]; intros w ls rest Hb E Hl Hr Hg.
  - simpl in E. rewrite append_nil_r in E.
    destruct (lf_free_no_line ls rest _ Hb E Hl Hr) as [-> ->].
    simpl. rewrite with_buffer_same. reflexivity.
  - destruct (lines_exist (buffer (me w) ++ c)) as (l1 & r1 & E1 & Hl1 & Hr1).
    destruct (lines_exist (r1 ++ text_of cs)) as (l2 & r2 & E2 & Hl2 & Hr2).
    assert (Eall : (unlines ls ++ rest)%string = (unlines (l1 ++ l2) ++ r2)%string).
    { rewrite <- E. simpl. rewrite <- append_assoc, E1, append_assoc, E2.
      rewrite unlines_app, append_assoc. reflexivity. }
    apply lines_unique in Eall; auto;
      [|rewrite forallb_app, Hl1, Hl2; reflexivity].
    destruct Eall as [-> ->].
    rewrite forallb_app in Hg. apply andb_prop in Hg as [Hg1 Hg2].
    simpl. unfold bind. rewrite (on_chunk_benign c l1 r1 w E1 Hl1 Hr1 Hg1).
    rewrite (IH _ l2 r2); auto.
    rewrite fold_left_app, fold_with_buffer. reflexivity.
Qed.

(** ** What the read loop leaves alone *)

Lemma keeps_ret {A : Type} (a : A) : keeps (ret a).
Proof. intros w. reflexivity. Qed.

Lemma keeps_throw {A : Type} (e : error) : keeps (@throw world A e).
Proof. intros w. reflexivity. Qed.

Lemma keeps_lift {A : Type} (c : completion A) : keeps (lift c).
Proof. intros w. reflexivity. Qed.

Lemma keeps_read {A : Type} (f : world -> A) : keeps (read f).
Proof. intros w. reflexivity. Qed.

Lemma keeps_bind {A B : Type} (m : M world A) (k : A -> M world B) :
  keeps m -> (forall a, keeps (k a)) -> keeps (bind m k).
Proof.
  intros Hm Hk w. unfold bind. specialize (Hm w).
  destruct (m w) as [[a|e] w1]; simpl in *; [|exact Hm].
  rewrite Hk. exact Hm.
Qed.

Lemma keeps_try_catch {A : Type} (m : M world A) (h : error -> M world A) :
  keeps m -> (forall e, keeps (h e)) -> keeps (try_catch m h).
Proof.
  intros Hm Hh w. unfold try_catch. specialize (Hm w).
  destruct (m w) as [[a|e] w1]; simpl in *; [exact Hm|].
  rewrite Hh. exact Hm.
Qed.

Lemma keeps_for_of {A : Type} (l : list A) (body : A -> M world unit) :
  (forall a, keeps (body a)) -> keeps (for_of l body).
Proof.
  intros Hb. induction l as [|x l IH]; simpl.
  - apply keeps_ret.
  - apply keeps_bind; auto.
Qed.

Lemma keeps_on_me (f : locals -> locals) :
  (forall l, element_streaming (f l) = element_streaming l /\
             role (assistantMessage (f l)) = role (assistantMessage l)) ->
  keeps (on_me f).
Proof.
  intros H w. unfold frame. simpl. destruct (H (me w)) as [-> ->]. reflexivity.
Qed.

Lemma keeps_displayNodeAssignment (v : value) : keeps (displayNodeAssignment v).
Proof.
  unfold displayNodeAssignment.
  apply keeps_bind; [apply keeps_lift|]. intros text w. reflexivity.
Qed.

Lemma keeps_on_data_line (line : string) : keeps (on_data_line line).
Proof.
  unfold on_data_line. apply keeps_try_catch; [|intros; apply keeps_ret].
  apply keeps_bind; [apply keeps_lift|]. intros parsed.
  apply keeps_bind; [apply keeps_lift|]. intros test.
  destruct (truthy test); [|apply keeps_ret].
  apply keeps_bind; [apply keeps_read|]. intros content0.
  apply keeps_bind; [apply keeps_lift|]. intros f.
  apply keeps_bind; [apply keeps_lift|]. intros content'.
  apply keeps_bind; [|intros _]; apply keeps_on_me; intros l; split; reflexivity.
Qed.

Lemma keeps_on_event_line (lines : list string) (line : string) :
  keeps (on_event_line lines line).
Proof.
  unfold on_event_line.
  destruct (at_index lines (indexOf lines line + 1)) as [nextLine|]; [|apply keeps_ret].
  destruct (nonempty nextLine && startsWith nextLine "data: "); [|apply keeps_ret].
  apply keeps_bind; [apply keeps_lift|]. intros parsed.
  apply keeps_bind; [apply keeps_lift|]. intros name.
  apply keeps_displayNodeAssignment.
Qed.

Lemma keeps_on_line (lines : list string) (line : string) : keeps (on_line lines line).
Proof.
  unfold on_line.
  destruct (startsWith line "data: "); [apply keeps_on_data_line|].
  destruct (startsWith line "event: node_assigned");
    [apply keeps_on_event_line | apply keeps_ret].
Qed.

Lemma keeps_on_chunk (chunk : string) : keeps (on_chunk chunk).
Proof.
  unfold on_chunk.
  apply keeps_bind; [apply keeps_on_me; intros l; split; reflexivity|]. intros _.
  apply keeps_bind; [apply keeps_read|]. intros segments.
  destruct (pop segments) as [[lines rest]|]; [|apply keeps_ret].
  apply keeps_bind; [apply keeps_on_me; intros l; split; reflexivity|]. intros _.
  apply keeps_for_of. intros line. apply keeps_on_line.
Qed.

Lemma keeps_read_loop (cs : list string) (e : stream_end) : keeps (read_loop cs e).
Proof.
  induction cs as [|c cs IH]; simpl.
  - destruct e; [apply keeps_ret | apply keeps_throw].
  - apply keeps_bind; [apply keeps_on_chunk | intros _; exact IH].
Qed.

(** ** sendMessage from the outcome of the POST on *)

Lemma sendMessage_try_frame (r : chat_response) (w : world) :
  frame (snd (sendMessage_try r w))
    = (conversationHistory (page w), network (page w) ++ opened r,
       sendButton_disabled (page w), messageInput_value (page w),
       modelSelect_value (page w), element_streaming (me w),
       role (assistantMessage (me w))).
Proof.
  destruct r as [|[|] status body]; simpl;
    try (unfold frame; simpl; rewrite app_nil_r; reflexivity).
  unfold bind at 1. unfold on_me at 1. unfold modify at 1.
  unfold bind at 1. unfold on_page at 1. unfold modify at 1.
  match goal with
  | |- frame (snd (bind ?m ?k ?w0)) = _ =>
      rewrite (keeps_bind m k (keeps_read_loop _ _)
                 (fun _ => keeps_on_me _ (fun l => conj eq_refl eq_refl)) w0)
  end.
  reflexivity.
Qed.

(** [sendMessage] never throws from its [try] on; the [finally] block
    enables the send button again and pushes the assistant message. *)
Lemma sendMessage_resume_spec (r : chat_response) (w : world) :
  exists c,
    fst (sendMessage_resume r w) = Normal tt /\
    conversationHistory (page (snd (sendMessage_resume r w)))
      = conversationHistory (page w)
          ++ [{| role := role (assistantMessage (me w)); content := c |}] /\
    network (page (snd (sendMessage_resume r w))) = network (page w) ++ opened r /\
    sendButton_disabled (page (snd (sendMessage_resume r w))) = false /\
    messageInput_value (page (snd (sendMessage_resume r w))) = messageInput_value (page w) /\
    modelSelect_value (page (snd (sendMessage_resume r w))) = modelSelect_value (page w).
Proof.
  pose proof (sendMessage_try_frame r w) as F.
  unfold sendMessage_resume, try_finally, try_catch.
  destruct (sendMessage_try r w) as [[u|e] w1]; simpl in F; unfold frame in F;
    inversion F as [[H1 H2 H3 H4 H5 H6 H7]]; clear F;
    exists (content (assistantMessage (me w1))); simpl;
    rewrite H1, H2, H4, H5; repeat split; auto;
    try (destruct u; reflexivity);
    destruct (assistantMessage (me w1)); reflexivity.
Qed.

(** ** Fragments *)

Lemma concat_value_empty (c : string) (v : value) :
  concat_value c v
    = match concat_value EmptyString v with
      | Normal t => Normal (c ++ t)%string
      | Throw e => Throw e
      end.
Proof.
  destruct v as [j|]; simpl; [destruct (to_string j)|]; reflexivity.
Qed.

Lemma data_step_content (p : string) (w : world) :
  content (assistantMessage (me (data_step p w)))
    = (content (assistantMessage (me w)) ++ fragment p)%string.
Proof.
  unfold data_step, fragment.
  destruct (JSON_parse p) as [frame|]; [|now rewrite append_nil_r].
  destruct (truthy (delta_content frame)) eqn:T; [|now rewrite append_nil_r].
  rewrite concat_value_empty.
  destruct (concat_value EmptyString (delta_content frame)); simpl;
    [reflexivity | now rewrite append_nil_r].
Qed.

(** The element shows the content, once a fragment has been appended or
    when it did before. *)
Lemma data_step_rendered (p : string) (w : world) :
  contentElement_innerHTML (me w) = marked_parse (content (assistantMessage (me w))) ->
  contentElement_innerHTML (me (data_step p w))
    = marked_parse (content (assistantMessage (me (data_step p w)))).
Proof.
  unfold data_step. intros H.
  destruct (JSON_parse p) as [frame|]; [|exact H].
  destruct (truthy (delta_content frame)); [|exact H].
  destruct (concat_value _ _); [reflexivity|exact H].
Qed.

(** A frame of the usual shape contributes its text; a frame without the
    member contributes nothing. *)
Lemma fragment_text (p : string) (frame : json) (t : string) :
  JSON_parse p = Some frame ->
  delta_content frame = Some (JString t) ->
  fragment p = t.
Proof.
  unfold fragment. intros -> ->. simpl.
  destruct t; reflexivity.
Qed.

Lemma fragment_absent (p : string) (frame : json) :
  JSON_parse p = Some frame ->
  delta_content frame = undefined ->
  fragment p = EmptyString.
Proof.
  unfold fragment. intros -> ->. reflexivity.
Qed.

Lemma data_lines_fold (frames : list string) :
  forall w,
    content (assistantMessage
               (me (fold_left (fun w l => line_step l w)
                      (map (String.append "data: ") frames) w)))
      = (content (assistantMessage (me w)) ++ text_of (map fragment frames))%string.
Proof.
  induction frames as [|p frames IH]; intros w; simpl.
  - now rewrite append_nil_r.
  - rewrite IH. change (line_step (String "d" (String "a" (String "t" (String "a"
                          (String ":" (String " " p)))))) w) with (data_step p w).
    rewrite data_step_content, append_assoc. reflexivity.
Qed.

Lemma data_lines_lf_free (frames : list string) :
  forallb lf_free frames = true ->
  forallb lf_free (map (String.append "data: ") frames) = true.
Proof.
  induction frames as [|p frames IH]; simpl; auto.
  intros H. apply andb_prop in H as [H1 H2].
  apply andb_true_intro. split; [|auto].
  unfold LF. simpl. exact H1.
Qed.

Lemma data_lines_benign (frames : list string) :
  forallb benign (map (String.append "data: ") frames) = true.
Proof.
  induction frames as [|p frames IH]; simpl; auto.
Qed.

Lemma sendMessage_begin_locals (s : state) (w : world) :
  sendMessage_begin s = Some w ->
  me w = {| assistantMessage := {| role := "assistant"; content := EmptyString |};
            contentElement_innerHTML := marked_parse "...";
            element_streaming := true; buffer := EmptyString |}.
Proof.
  unfold sendMessage_begin.
  destruct (nonempty (trim (messageInput_value s))); [|discriminate].
  intros H; inversion H; reflexivity.
Qed.

(** C2. Let the chunks of a streamed response add up to a sequence of
    lines [data: <payload>], each ended by a line feed, wherever the chunk
    boundaries fall. Then the read loop ends normally and the content of
    the assistant message is the concatenation, in order, of the fragments
    of the payloads: for a payload that is JSON, the value at
    [choices[0].delta.content] as text, when it is present, not empty and
    converts to a string, and nothing for any other payload. That content
    is what the content element shows and what is pushed to the history.
    The fragment of a frame whose [choices[0].delta.content] is a text is
    that text. *)
Theorem content_is_concatenation_of_fragments
    (s : state) (w : world) (status : nat) (cs frames : list string) :
  sendMessage_begin s = Some w ->
  forallb lf_free frames = true ->
  text_of cs = unlines (map (String.append "data: ") frames) ->
  let answer := ChatResponse true status {| chunks := cs; ending := Done |} in
  let w' := snd (sendMessage_resume answer w) in
  content (assistantMessage (me w')) = text_of (map fragment frames) /\
  contentElement_innerHTML (me w') = marked_parse (text_of (map fragment frames)) /\
  conversationHistory (page w')
    = conversationHistory (page w)
        ++ [{| role := "assistant"; content := text_of (map fragment frames) |}] /\
  (forall payload frame text,
      JSON_parse payload = Some frame ->
      delta_content frame = Some (JString text) ->
      fragment payload = text).
Proof.
  intros Hb Hf Ht answer w'.
  assert (Htext : forall payload frame text,
             JSON_parse payload = Some frame ->
             delta_content frame = Some (JString text) ->
             fragment payload = text).
  { intros payload frame text P D. unfold fragment. rewrite P, D.
    destruct text; reflexivity. }
  pose proof (sendMessage_begin_locals s w Hb) as Hme.
  set (w0 := {| page := set_network (network (page w) ++ [EventSourceOpen CHAT_URL]) (page w);
                me := set_buffer EmptyString (me w) |}).
  set (ls := map (String.append "data: ") frames) in *.
  assert (L : read_loop cs Done w0
              = (Normal tt,
                 with_buffer EmptyString (fold_left (fun w l => line_step l w) ls w0))).
  { apply read_loop_benign.
    - reflexivity.
    - simpl. rewrite Ht, append_nil_r. reflexivity.
    - apply data_lines_lf_free. exact Hf.
    - reflexivity.
    - apply data_lines_benign. }
  assert (C : content (assistantMessage (me (fold_left (fun w l => line_step l w) ls w0)))
              = text_of (map fragment frames)).
  { unfold ls. rewrite data_lines_fold. unfold w0. rewrite Hme. reflexivity. }
  assert (T : sendMessage_try answer w
              = (Normal tt,
                 let w1 := with_buffer EmptyString
                             (fold_left (fun w l => line_step l w) ls w0) in
                 {| page := page w1;
                    me := set_innerHTML (marked_parse (content (assistantMessage (me w1))))
                            (me w1) |})).
  { unfold sendMessage_try, answer. simpl.
    unfold bind at 1. unfold on_me at 1. unfold modify at 1.
    unfold bind at 1. unfold on_page at 1. unfold modify at 1.
    match goal with
    | |- bind _ _ ?x = _ => change x with w0
    end.
    unfold bind at 1. rewrite L. reflexivity. }
  unfold w', sendMessage_resume, try_finally, try_catch. rewrite T. simpl.
  rewrite C. split; [reflexivity|]. split; [reflexivity|]. split; [|exact Htext].
  pose proof (keeps_for_of ls (on_line ls) (keeps_on_line ls) w0) as K.
  rewrite for_of_benign in K by apply data_lines_benign. simpl in K.
  unfold frame in K. inversion K as [[K1 K2 K3 K4 K5 K6 K7]].
  f_equal. f_equal.
  destruct (assistantMessage _) as [ro co] eqn:E in |- *.
  simpl in *. rewrite E in C, K7. simpl in *. rewrite Hme in K7. simpl in K7.
  congruence.
Qed.

(** C3. The line [data: [DONE]] is a [data: ] line whose payload is not
    JSON: [JSON.parse] throws, the empty [catch] takes it, and the line is
    done with, normally, the page and the variables of the invocation
    (so the content and what the element shows) being what they were. The
    same holds for the chunk that brings the line with its blank line to an
    empty buffer. *)
Theorem done_line_is_ignored :
  JSON_parse "[DONE]" = None /\
  (forall (lines : list string) (w : world),
      on_line lines "data: [DONE]" w = (Normal tt, w)) /\
  (forall (p : state) (l : locals),
      let w := {| page := p; me := set_buffer EmptyString l |} in
      on_chunk (lit "data: [DONE]\n\n") w = (Normal tt, w)).
Proof.
  assert (P : JSON_parse "[DONE]" = None) by (vm_compute; reflexivity).
  assert (O : forall lines w, on_line lines "data: [DONE]" w = (Normal tt, w)).
  { intros lines w. rewrite on_line_benign by reflexivity.
    change (line_step "data: [DONE]" w) with (data_step "[DONE]" w).
    unfold data_step. rewrite P. reflexivity. }
  split; [exact P | split; [exact O|]].
  intros p l w.
  rewrite (on_chunk_benign _ ["data: [DONE]"; EmptyString] EmptyString) by reflexivity.
  simpl. change (line_step "data: [DONE]" w) with (data_step "[DONE]" w).
  unfold data_step. rewrite P. reflexivity.
Qed.

(** ** The network effects of an invocation *)

Lemma sendMessage_begin_network (s : state) (w : world) :
  sendMessage_begin s = Some w ->
  exists ms model,
    network (page w)
      = network s ++ [Fetch {| method := POST; url := CHAT_URL;
                               body := ChatBody ms model true |}].
Proof.
  unfold sendMessage_begin.
  destruct (nonempty (trim (messageInput_value s))); [|discriminate].
  intros H; inversion H; simpl. eauto.
Qed.

Lemma step_network (e : event) (sys : system) :
  exists added,
    network (now (step e sys)) = network (now sys) ++ added /\ Forall chat_effect added.
Proof.
  assert (I : exists added,
             network (now (invoke sys)) = network (now sys) ++ added /\
             Forall chat_effect added).
  { unfold invoke. destruct (sendMessage_begin (now sys)) as [w|] eqn:B.
    - destruct (sendMessage_begin_network _ _ B) as (ms & model & E).
      eexists. split; [exact E|]. constructor; [left; eauto|constructor].
    - exists []. rewrite app_nil_r. auto. }
  destruct e as [text | model | | shiftKey | i r]; simpl.
  - exists []. rewrite app_nil_r. auto.
  - exists []. rewrite app_nil_r. auto.
  - destruct (sendButton_disabled (now sys)); [|exact I].
    exists []. rewrite app_nil_r. auto.
  - destruct shiftKey; [|exact I]. exists []. rewrite app_nil_r. auto.
  - destruct (nth_error (pending sys) i) as [l|].
    + destruct (sendMessage_resume_spec r {| page := now sys; me := l |})
        as (c & _ & _ & N & _).
      exists (opened r). split; [exact N|].
      destruct r as [|[|] status body]; simpl; auto.
      constructor; [right; reflexivity|constructor].
    + exists []. rewrite app_nil_r. auto.
Qed.

Lemma run_network (es : list event) :
  forall sys,
    Forall chat_effect (network (now sys)) ->
    Forall chat_effect (network (now (run es sys))).
Proof.
  induction es as [|e es IH]; intros sys H; simpl; auto.
  apply IH. destruct (step_network e sys) as (added & -> & A).
  apply Forall_app; auto.
Qed.

Lemma requests_of_app (a b : list net_effect) :
  requests_of (a ++ b) = requests_of a ++ requests_of b.
Proof.
  induction a as [|e a IH]; simpl; auto.
  destruct (request_of e); simpl; congruence.
Qed.

(** C10. An invocation of [sendMessage] that reaches its read loop (the
    POST was answered with an ok response) has, besides the POST, one more
    effect on the network, however the stream goes: an event source is
    opened on [/api/v1/chat/completions], which is one more request, a GET,
    to that endpoint. An invocation whose POST is rejected or answered with
    an error opens none. Nothing the module ever does attaches a handler to
    an event source or closes one. *)
Theorem event_source_opened_and_left_alone (s : state) (w : world) :
  sendMessage_begin s = Some w ->
  (exists ms model,
      network (page w)
        = network s ++ [Fetch {| method := POST; url := CHAT_URL;
                                 body := ChatBody ms model true |}]) /\
  (forall (status : nat) (body : body_stream),
      let w' := snd (sendMessage_resume (ChatResponse true status body) w) in
      network (page w') = network (page w) ++ [EventSourceOpen CHAT_URL] /\
      requests_of (network (page w'))
        = requests_of (network (page w))
            ++ [{| method := GET; url := "/api/v1/chat/completions"; body := NoBody |}]) /\
  (forall (status : nat) (body : body_stream),
      network (page (snd (sendMessage_resume (ChatResponse false status body) w)))
        = network (page w)) /\
  network (page (snd (sendMessage_resume ChatRejected w))) = network (page w) /\
  (forall (es : list event) (e : net_effect),
      In e (network (now (run es boot))) ->
      match e with
      | EventSourceListen _ _ | EventSourceClose _ => False
      | Fetch _ | EventSourceOpen _ => True
      end).
Proof.
  intros B. split; [exact (sendMessage_begin_network s w B)|].
  split; [|split; [|split]].
  - intros status body w'.
    destruct (sendMessage_resume_spec (ChatResponse true status body) w)
      as (c & _ & _ & N & _).
    fold w' in N. simpl in N. split; [exact N|].
    rewrite N, requests_of_app. reflexivity.
  - intros status body.
    destruct (sendMessage_resume_spec (ChatResponse false status body) w)
      as (c & _ & _ & N & _).
    rewrite N. simpl. apply app_nil_r.
  - destruct (sendMessage_resume_spec ChatRejected w) as (c & _ & _ & N & _).
    rewrite N. simpl. apply app_nil_r.
  - intros es e Hin.
    assert (F : Forall chat_effect (network (now (run es boot))))
      by (apply run_network; constructor).
    rewrite Forall_forall in F. destruct (F e Hin) as [(ms & model & ->) | ->]; exact I.
Qed.

(** ** The history *)

Lemma alternates_app (h : list message) (u a : message) :
  role u = "user" -> role a = "assistant" ->
  alternates h = true -> alternates (h ++ [u; a]) = true.
Proof.
  intros Hu Ha.
  induction h as [h IH] using (well_founded_induction
                                 (Wf_nat.well_founded_ltof _ (@List.length message))).
  unfold Wf_nat.ltof in IH.
  destruct h as [|x [|y h]]; simpl; intros H.
  - rewrite Hu, Ha. reflexivity.
  - discriminate.
  - apply andb_prop in H as [H1 H2]. rewrite H1. simpl.
    apply (IH h); [simpl; lia | exact H2].
Qed.

Lemma sendMessage_begin_history (s : state) (w : world) :
  sendMessage_begin s = Some w ->
  nonempty (trim (messageInput_value s)) = true /\
  conversationHistory (page w)
    = conversationHistory s
        ++ [{| role := "user"; content := trim (messageInput_value s) |}] /\
  sendButton_disabled (page w) = true /\
  messageInput_value (page w) = EmptyString.
Proof.
  unfold sendMessage_begin.
  destruct (nonempty (trim (messageInput_value s))); [|discriminate].
  intros H; inversion H; simpl. auto.
Qed.

(** An invocation that runs alone, whatever the outcome of its POST:
    the history grows by the user message and then the assistant message,
    the send button is enabled again, and a history that alternated
    still does. *)
Lemma sendMessage_alone (r : chat_response) (s : state) :
  nonempty (trim (messageInput_value s)) = true ->
  exists c,
    conversationHistory (sendMessage r s)
      = conversationHistory s
          ++ [{| role := "user"; content := trim (messageInput_value s) |};
              {| role := "assistant"; content := c |}] /\
    sendButton_disabled (sendMessage r s) = false /\
    (alternates (conversationHistory s) = true ->
     alternates (conversationHistory (sendMessage r s)) = true).
Proof.
  intros Hn. unfold sendMessage.
  destruct (sendMessage_begin s) as [w|] eqn:B.
  - pose proof (sendMessage_begin_locals s w B) as Hme.
    destruct (sendMessage_begin_history s w B) as (_ & Hh & _).
    destruct (sendMessage_resume_spec r w) as (c & _ & H & _ & D & _).
    rewrite Hh, Hme, <- app_assoc in H. simpl in H.
    exists c. rewrite H. repeat split; auto.
    apply alternates_app; reflexivity.
  - unfold sendMessage_begin in B. rewrite Hn in B. discriminate.
Qed.

(** The invocation started by Enter while another one is pending. *)
Lemma settle_history (i : nat) (r : chat_response) (sys : system) (l : locals) :
  nth_error (pending sys) i = Some l ->
  exists c,
    conversationHistory (now (step (PostSettles i r) sys))
      = conversationHistory (now sys)
          ++ [{| role := role (assistantMessage l); content := c |}] /\
    network (now (step (PostSettles i r) sys)) = network (now sys) ++ opened r /\
    pending (step (PostSettles i r) sys) = remove_nth i (pending sys).
Proof.
  intros H. simpl. rewrite H.
  destruct (sendMessage_resume_spec r {| page := now sys; me := l |})
    as (c & _ & Hh & Hn & _).
  exists c. simpl in *. auto.
Qed.

(** C9 fails when invocations overlap. The key listener calls
    [sendMessage] while the send button is disabled: with a first message
    still pending, a second Enter pushes a second user message, and the two
    assistant messages follow when the requests settle, whatever their
    outcomes. The history reads user, user, assistant, assistant, and the
    second POST carried the two user messages. *)
Theorem overlapping_sends_break_alternation (r1 r2 : chat_response) :
  let sys := run [Types "a"; PressesEnter false;
                  Types "b"; PressesEnter false;
                  PostSettles 0 r1; PostSettles 0 r2] boot in
  map role (conversationHistory (now sys)) = ["user"; "user"; "assistant"; "assistant"] /\
  alternates (conversationHistory (now sys)) = false /\
  In (Fetch {| method := POST; url := CHAT_URL;
               body := ChatBody [{| role := "user"; content := "a" |};
                                 {| role := "user"; content := "b" |}] None true |})
     (network (now sys)).
Proof.
  intros sys.
  set (sys4 := run [Types "a"; PressesEnter false; Types "b"; PressesEnter false] boot).
  set (sys5 := step (PostSettles 0 r1) sys4).
  assert (E : sys = step (PostSettles 0 r2) sys5) by reflexivity.
  destruct (settle_history 0 r1 sys4 _ eq_refl) as (c1 & H1 & N1 & P1).
  fold sys5 in H1, N1, P1.
  assert (P5 : nth_error (pending sys5) 0
               = Some {| assistantMessage := {| role := "assistant"; content := EmptyString |};
                         contentElement_innerHTML := marked_parse "...";
                         element_streaming := true; buffer := EmptyString |})
    by (rewrite P1; reflexivity).
  destruct (settle_history 0 r2 sys5 _ P5) as (c2 & H2 & N2 & _).
  rewrite <- E in H2, N2. rewrite H2, H1, N2, N1.
  repeat split.
  apply in_or_app. left. apply in_or_app. left. simpl. auto.
Qed.

(** C1 fails when the chunk that ends the [event: node_assigned] line does
    not hold the whole payload line. The same stream, first in one chunk:
    the notification is shown once, with the node name. Then cut between
    the two lines: no notification is shown at all; the payload line is
    taken for a [data: ] line without fragment. *)
Theorem node_assignment_lost_across_chunks :
  let answer cs := ChatResponse true 200 {| chunks := cs; ending := Done |} in
  let shown cs :=
    chatWindow (now (run [Types "hi"; PressesEnter false; PostSettles 0 (answer cs)] boot)) in
  let event := lit "event: node_assigned\n" in
  let payload := lit "data: {'node_id':1,'node_name':'Node 1 (RTX 4090)'}\n\n" in
  shown [(event ++ payload)%string]
    = [MessageElement true false (marked_parse "hi");
       MessageElement false true (marked_parse "...");
       Notification "任务已分配至 Node 1 (RTX 4090)"] /\
  shown [event; payload]
    = [MessageElement true false (marked_parse "hi");
       MessageElement false true (marked_parse "...")] /\
  conversationHistory
    (now (run [Types "hi"; PressesEnter false;
               PostSettles 0 (answer [event; payload])] boot))
    = [{| role := "user"; content := "hi" |};
       {| role := "assistant"; content := EmptyString |}].
Proof.
  vm_compute. repeat split.
Qed.

End WithNumbers.

Lemma content_is_concatenation_of_fragments_witness :
  text_of (map (fragment (num := literal_numbers)) frames_hello) = "Hello" /\
  fragment (num := literal_numbers) (lit "{'choices':[{'delta':{'content':{'toString':1}}}]}")
    = EmptyString /\
  let answer := ChatResponse true 200 {| chunks := chunks_hello; ending := Done |} in
  let w' := snd (sendMessage_resume (num := literal_numbers) answer begun_hi) in
  content (assistantMessage (me w'))
    = text_of (map (fragment (num := literal_numbers)) frames_hello) /\
  contentElement_innerHTML (me w')
    = marked_parse (text_of (map (fragment (num := literal_numbers)) frames_hello)) /\
  conversationHistory (page w')
    = conversationHistory (page begun_hi)
        ++ [{| role := "assistant";
               content := text_of (map (fragment (num := literal_numbers)) frames_hello) |}].
Proof.
  split; [vm_compute; reflexivity|]. split; [vm_compute; reflexivity|].
  destruct (content_is_concatenation_of_fragments (num := literal_numbers) typed_hi
              begun_hi 200 chunks_hello frames_hello) as (A & B & C & _);
    [vm_compute; reflexivity .. |].
  split; [exact A|]. split; [exact B | exact C].
Defined.

Lemma event_source_opened_and_left_alone_witness :
  let w' := snd (sendMessage_resume (num := literal_numbers)
                   (ChatResponse true 200 {| chunks := chunks_hello; ending := Done |})
                   begun_hi) in
  network (page w') = network (page begun_hi) ++ [EventSourceOpen CHAT_URL] /\
  requests_of (network (page w'))
    = requests_of (network (page begun_hi))
        ++ [{| method := GET; url := "/api/v1/chat/completions"; body := NoBody |}].
Proof.
  assert (B : sendMessage_begin typed_hi = Some begun_hi) by (vm_compute; reflexivity).
  exact (proj1 (proj2 (event_source_opened_and_left_alone (num := literal_numbers)
                         typed_hi begun_hi B))
           200 {| chunks := chunks_hello; ending := Done |}).
Defined.

End ChatFacts.

(* ================================================================== *)
(** * The requests of the frontend                                      *)
(* ================================================================== *)

Module FrontendFacts.
Import JS Http.

Lemma event_source_request_off_table : ~ api_endpoint event_source_request.
Proof.
  intros [(_ & _ & [H | [H | [H | (j & H)]]]) | [(H & _) | (H & _)]];
    simpl in H; discriminate H.
Qed.

Lemma appTick_requests_on_table : Forall api_endpoint Main.appTick_requests.
Proof.
  repeat constructor; left; simpl; auto 6.
Qed.

Lemma upload_request_on_table (s : Dataset.state) (f : string) (fs : list string) :
  Dataset.fileInput_files s = f :: fs ->
  api_endpoint (issued (Api.uploadDataset (Dataset.formData_of s))).
Proof.
  intros H. right. right. simpl. repeat split.
  unfold Dataset.formData_of. rewrite H.
  exists f. destruct (Dataset.nonempty (Dataset.dataCountInput_value s)) eqn:E.
  - eexists. split; [reflexivity|]. right. eexists. split; [|reflexivity].
    intros K. rewrite K in E. discriminate E.
  - exists []. auto.
Qed.

Lemma dataset_step_requests (e : Dataset.event) (s : Dataset.state) :
  exists added,
    Dataset.requests (Dataset.step e s) = Dataset.requests s ++ added /\
    Forall api_endpoint added.
Proof.
  destruct e as [files count | | r | h | jobId r]; simpl.
  - exists []. rewrite app_nil_r. auto.
  - unfold Dataset.handleFormSubmit_begin.
    destruct (Dataset.fileInput_files s) as [|f fs] eqn:F.
    + exists []. rewrite app_nil_r. auto.
    + eexists. split; [reflexivity|]. constructor; [|constructor].
      apply (upload_request_on_table s f fs F).
  - exists []. rewrite app_nil_r. split; [|constructor].
    unfold Dataset.handleFormSubmit_resume.
    destruct (resume (Api.uploadDataset []) r) as [resp|e].
    + destruct (job_id resp) as [id|]; [destruct (Dataset.nonempty id)|];
        try reflexivity.
      unfold Dataset.startJobMonitoring. simpl.
      destruct (Dataset.jobStatusInterval s); reflexivity.
    + destruct e; reflexivity.
  - destruct (Dataset.active h s); [|exists []; rewrite app_nil_r; auto].
    unfold Dataset.updateJobStatus_begin.
    destruct (Dataset.currentJobId s) as [id|]; [|exists []; rewrite app_nil_r; auto].
    destruct (Dataset.nonempty id); [|exists []; rewrite app_nil_r; auto].
    eexists. split; [reflexivity|]. constructor; [|constructor].
    left. simpl. repeat split. right. right. right. exists id. reflexivity.
  - exists []. rewrite app_nil_r. split; [|constructor].
    apply DatasetFacts.updateJobStatus_resume_requests.
Qed.

Lemma dataset_run_requests (es : list Dataset.event) :
  forall s,
    Forall api_endpoint (Dataset.requests s) ->
    Forall api_endpoint (Dataset.requests (Dataset.run es s)).
Proof.
  induction es as [|e es IH]; intros s H; simpl; auto.
  apply IH. destruct (dataset_step_requests e s) as (added & -> & A).
  apply Forall_app; auto.
Qed.

Lemma chat_effect_request (e : Chat.net_effect) :
  Chat.chat_effect e ->
  exists q, Chat.request_of e = Some q /\ (api_endpoint q \/ q = event_source_request).
Proof.
  intros [(ms & model & ->) | ->]; simpl; eexists; split; try reflexivity.
  - left. right. left. simpl. repeat split. eauto.
  - right. reflexivity.
Qed.

Lemma chat_requests_allowed (l : list Chat.net_effect) :
  Forall Chat.chat_effect l ->
  Forall (fun q => api_endpoint q \/ q = event_source_request) (Chat.requests_of l).
Proof.
  induction 1 as [|e l He Hl IH]; simpl; [constructor|].
  destruct (chat_effect_request e He) as (q & -> & Hq). constructor; auto.
Qed.

(** The requests of the frontend, one kind apart, are on the table. Every
    request the frontend sends to the gateway is an endpoint of the public
    API table under [/api/v1], or it is the GET on
    [/api/v1/chat/completions] that the event source of [sendMessage]
    opens. The dashboard tick sends the three GETs of the table; the
    dataset module, whatever happens to it, sends uploads and status
    requests of the table, the upload carrying the file and, exactly when
    the count input is not empty, the count; the chat module, whatever
    happens to it, sends POSTs of the table and that GET. *)
Theorem frontend_requests_on_table_but_event_source :
  Forall api_endpoint Main.appTick_requests /\
  (forall es : list Dataset.event,
      Forall api_endpoint (Dataset.requests (Dataset.run es Dataset.initial))) /\
  (forall (num : Numbers) (es : list Chat.event),
      Forall (fun q => api_endpoint q \/ q = event_source_request)
             (Chat.requests_of (Chat.network (Chat.now (Chat.run es Chat.boot))))) /\
  (forall (s : Dataset.state) (f : string) (fs : list string),
      Dataset.fileInput_files s = f :: fs ->
      Dataset.requests (Dataset.handleFormSubmit_begin s)
        = Dataset.requests s
            ++ [{| method := POST; url := "/api/v1/dataset/upload";
                   body := FormBody
                             (("file", FormFile f)
                                :: (if Dataset.nonempty (Dataset.dataCountInput_value s)
                                    then [("data_count",
                                           FormText (Dataset.dataCountInput_value s))]
                                    else [])) |}]).
Proof.
  split; [exact appTick_requests_on_table|].
  split; [|split].
  - intros es. apply dataset_run_requests. constructor.
  - intros num es. apply chat_requests_allowed.
    apply ChatFacts.run_network. constructor.
  - intros s f fs H. unfold Dataset.handleFormSubmit_begin, Dataset.formData_of.
    rewrite H. reflexivity.
Qed.

(** C6 fails by the event source of [sendMessage]. The comment above the
    line says that it listens for the [node_assigned] event by reusing the
    connection; the code attaches no listener, and [new EventSource] opens
    a connection of its own, a GET on [/api/v1/chat/completions], where the
    table has a POST only. So a chat message whose POST is answered with an
    ok response sends a request that is no endpoint of the table: it is
    not so that every request of every run is on the table. *)
Theorem event_source_request_is_sent :
  ~ (forall es : list Chat.event,
        Forall api_endpoint
               (Chat.requests_of
                  (Chat.network
                     (Chat.now (Chat.run (num := literal_numbers) es Chat.boot))))).
Proof.
  intros H.
  specialize (H [Chat.Types "hi"; Chat.PressesEnter false;
                 Chat.PostSettles 0
                   (Chat.ChatResponse true 200
                      {| Chat.chunks := []; Chat.ending := Chat.Done |})]).
  vm_compute in H.
  inversion H as [|q1 l1 _ H1]; subst. inversion H1 as [|q2 l2 H2 _]; subst.
  exact (event_source_request_off_table H2).
Qed.

Lemma frontend_requests_on_table_but_event_source_witness :
  let s := Dataset.set_inputs ["items.json"] "2" Dataset.initial in
  Dataset.requests (Dataset.handleFormSubmit_begin s)
    = [{| method := POST; url := "/api/v1/dataset/upload";
          body := FormBody [("file", FormFile "items.json");
                            ("data_count", FormText "2")] |}].
Proof.
  intros s.
  exact (proj2 (proj2 (proj2 frontend_requests_on_table_but_event_source))
           s "items.json" [] eq_refl).
Defined.

End FrontendFacts.

(* ================================================================== *)
(** * The UI management module: cards, charts and the model selector    *)
(* ================================================================== *)

Module DashboardFacts.
Import JS Dashboard.

(** ** Element ids *)

Lemma digits_after_pos (d : Decimal.uint) (p : positive) :
  digits_after d (Npos p) = Npos (Pos.of_uint_acc d p).
Proof.
  revert p; induction d; intros p; simpl; auto;
    rewrite <- IHd; f_equal; lia.
Qed.

Lemma digits_after_zero (d : Decimal.uint) : digits_after d 0 = N.of_uint d.
Proof.
  induction d; simpl; auto; apply digits_after_pos.
Qed.

Lemma string_of_uint_digits (d : Decimal.uint) :
  all_digits (NilEmpty.string_of_uint d) = true.
Proof. induction d; simpl; auto. Qed.

Lemma decimal_digits_uint (d : Decimal.uint) :
  forall acc seen,
    decimal_digits acc seen (NilEmpty.string_of_uint d)
      = (digits_after d acc,
         match d with Decimal.Nil => seen | _ => true end).
Proof.
  induction d; intros acc seen; [reflexivity | ..];
    cbn [NilEmpty.string_of_uint decimal_digits digits_after];
    match goal with
    | |- context [is_digit ?c] => change (is_digit c) with true
    end; cbv iota;
    match goal with
    | |- context [(N_of_ascii ?c - 48)%N] =>
        let v := eval vm_compute in (N_of_ascii c - 48)%N in
        change (N_of_ascii c - 48)%N with v
    end;
    rewrite IHd; (f_equal; [f_equal; lia | destruct d; reflexivity]).
Qed.

Lemma split_dash_digits (s : string) :
  all_digits s = true -> split_dash s = [s].
Proof.
  induction s as [|c r IH]; simpl; intros H; auto.
  apply andb_prop in H as [Hc Hr]. rewrite (IH Hr).
  destruct (Ascii.eqb c "-") eqn:E; [|reflexivity].
  apply Ascii.eqb_eq in E. subst c. discriminate Hc.
Qed.

Lemma trim_start_uint (d : Decimal.uint) :
  trim_start (NilEmpty.string_of_uint d) = NilEmpty.string_of_uint d.
Proof.
  destruct d; try reflexivity; simpl;
    destruct (NilEmpty.string_of_uint d) as [|c1 [|c2 r2]]; reflexivity.
Qed.

Lemma read_integer_uint (d : Decimal.uint) :
  d <> Decimal.Nil ->
  read_integer (Some (NilEmpty.string_of_uint d)) = Some (Z.of_N (N.of_uint d)).
Proof.
  intros Hd. unfold read_integer. rewrite trim_start_uint.
  pose proof (decimal_digits_uint d 0 false) as D.
  rewrite digits_after_zero in D.
  assert (S : (match d with Decimal.Nil => false | _ => true end) = true)
    by (destruct d; try reflexivity; contradiction).
  rewrite S in D. clear S.
  destruct d; try contradiction;
    cbn [NilEmpty.string_of_uint] in *;
    try (destruct (NilEmpty.string_of_uint d) as [|x r]; cbn [Ascii.eqb andb Bool.eqb];
         cbv beta iota; rewrite D; reflexivity).
  (* the first digit is 0: the second one is no x *)
  destruct d; cbn [NilEmpty.string_of_uint] in *;
    cbn [Ascii.eqb andb orb Bool.eqb]; cbv beta iota; rewrite D; reflexivity.
Qed.

Section WithMetric.
Context {metric : Metric}.

Lemma node_id_of_card_id (z : Z) :
  (0 <= z < 2 ^ 53)%Z -> node_id_of (card_id_of z) = Some z.
Proof.
  intros Hz.
  assert (S : safe_integer z = true) by (unfold safe_integer; apply Z.ltb_lt; lia).
  unfold node_id_of, card_id_of, string_of_number, parseInt. rewrite S.
  destruct z as [|p|p]; try lia; [reflexivity|].
  unfold string_of_Z, string_of_N.
  assert (Hn : Pos.to_uint p <> Decimal.Nil) by apply DecimalPos.Unsigned.to_uint_nonnil.
  replace (NilZero.string_of_uint (N.to_uint (N.pos p)))
    with (NilEmpty.string_of_uint (Pos.to_uint p))
    by (simpl; destruct (Pos.to_uint p); try reflexivity; contradiction).
  cbn [String.append split_dash Ascii.eqb Bool.eqb].
  rewrite split_dash_digits by apply string_of_uint_digits.
  cbn [nth_error]. rewrite read_integer_uint by exact Hn.
  change (N.of_uint (Pos.to_uint p)) with (Pos.of_uint (Pos.to_uint p)).
  rewrite DecimalPos.Unsigned.of_to.
  change (Z.of_N (N.pos p)) with (Z.pos p). rewrite S. reflexivity.
Qed.

Lemma node_id_of_negative (z : Z) :
  (- 2 ^ 53 < z < 0)%Z -> node_id_of (card_id_of z) = None.
Proof.
  intros Hz.
  assert (S : safe_integer z = true) by (unfold safe_integer; apply Z.ltb_lt; lia).
  unfold node_id_of, card_id_of, string_of_number. rewrite S.
  destruct z as [|p|p]; try lia. reflexivity.
Qed.

(** X1. The id of a card leads back to the id of its node, for the ids
    a number holds exactly: for a node id from 0 to 2^53 - 1,
    [parseInt(child.id.split('-')[2])] of the card made for it is that id
    again. For a negative node id above -2^53 the third segment of the
    card id is empty and the id read back is [NaN]. *)
Theorem card_id_round_trip :
  (forall z : Z, (0 <= z < 2 ^ 53)%Z -> node_id_of (card_id_of z) = Some z) /\
  (forall z : Z, (- 2 ^ 53 < z < 0)%Z -> node_id_of (card_id_of z) = None).
Proof.
  split; [exact node_id_of_card_id | exact node_id_of_negative].
Qed.

Lemma card_id_of_injective (z z' : Z) :
  (0 <= z < 2 ^ 53)%Z -> (0 <= z' < 2 ^ 53)%Z -> card_id_of z = card_id_of z' -> z = z'.
Proof.
  intros Hz Hz' E. apply (f_equal node_id_of) in E.
  rewrite !node_id_of_card_id in E by assumption. congruence.
Qed.

End WithMetric.

(** ** Class lists *)

Lemma has_app (t : string) (a b : list string) : has t (a ++ b) = has t a || has t b.
Proof. apply existsb_app. Qed.

Lemma has_classList_add (t : string) (ts cl : list string) :
  has t (classList_add ts cl) = has t cl || has t ts.
Proof.
  unfold classList_add. revert cl.
  induction ts as [|u ts IH]; intros cl; simpl.
  - now rewrite orb_false_r.
  - rewrite IH. destruct (existsb (String.eqb u) cl) eqn:E.
    + destruct (String.eqb t u) eqn:Et; simpl; auto.
      apply String.eqb_eq in Et. subst u. unfold has. rewrite E. reflexivity.
    + rewrite has_app. simpl. rewrite orb_false_r, orb_assoc. reflexivity.
Qed.

Lemma has_classList_remove (t : string) (ts cl : list string) :
  has t (classList_remove ts cl) = has t cl && negb (has t ts).
Proof.
  unfold classList_remove, has.
  induction cl as [|c cl IH]; simpl; auto.
  destruct (existsb (String.eqb c) ts) eqn:E; simpl.
  - rewrite IH. destruct (String.eqb t c) eqn:Et; simpl; auto.
    apply String.eqb_eq in Et. subst c. rewrite E. simpl.
    now rewrite andb_false_r.
  - rewrite IH. destruct (String.eqb t c) eqn:Et; simpl; auto.
    apply String.eqb_eq in Et. subst c. rewrite E. reflexivity.
Qed.

Section WithMetric.
Context {metric : Metric}.

Lemma indicator_follows_online (c : card) (n : node) :
  has "bg-green-500" (indicatorEl (updateCardContent c n)) = online n /\
  has "bg-red-500" (indicatorEl (updateCardContent c n)) = negb (online n).
Proof.
  unfold updateCardContent.
  destruct (online n); [destruct (node_metrics n)|];
    cbn [indicatorEl]; split;
    rewrite has_classList_add, has_classList_remove; simpl;
    rewrite ?andb_false_r, ?orb_true_r; reflexivity.
Qed.

(** X2. Whatever classes a card had, after [updateCardContent] its
    indicator is green exactly for an online node and red and pulsing
    exactly for an offline one, never both, and the background of the card
    follows in the same way; every other class of the two elements is as it
    was. *)
Theorem card_classes_follow_online (c : card) (n : node) :
  let c' := updateCardContent c n in
  has "bg-green-500" (indicatorEl c') = online n /\
  has "bg-red-500" (indicatorEl c') = negb (online n) /\
  has "animate-pulse" (indicatorEl c') = negb (online n) /\
  has "bg-gray-800" (card_classes c') = online n /\
  has "border-gray-700" (card_classes c') = online n /\
  has "bg-gray-700" (card_classes c') = negb (online n) /\
  has "border-gray-600" (card_classes c') = negb (online n) /\
  (forall t,
      has t ["bg-green-500"; "bg-red-500"; "animate-pulse"] = false ->
      has t (indicatorEl c') = has t (indicatorEl c)) /\
  (forall t,
      has t ["bg-gray-800"; "border-gray-700"; "bg-gray-700"; "border-gray-600"] = false ->
      has t (card_classes c') = has t (card_classes c)).
Proof.
  intros c'. unfold c', updateCardContent.
  destruct (online n); [destruct (node_metrics n)|];
    cbn [indicatorEl card_classes];
    repeat split;
    try (rewrite has_classList_add, has_classList_remove; simpl;
         rewrite ?andb_false_r, ?orb_true_r; reflexivity);
    intros t H; rewrite has_classList_add, has_classList_remove;
    simpl in *;
    repeat (match goal with
            | H : (_ || _) = false |- _ => apply orb_false_elim in H as [? H]
            end);
    repeat (match goal with
            | H : String.eqb ?a ?b = false |- _ => rewrite H; clear H
            end); simpl; rewrite ?andb_true_r, ?orb_false_r; reflexivity.
Qed.

(** X3. The readings of a card. An offline node shows [N/A] for the five
    metrics and the status 离线 in red. An online node that comes without
    metrics leaves the five readings and the status as they were: a node
    that was offline and is online again without metrics has a green
    indicator beside [N/A] readings and the status 离线. *)
Theorem card_readings_without_metrics
    (c : card) (i : Z) (nm : string) (cm : option string) (m : option metrics) :
  let offline := {| id := i; name := nm; cpu_model := cm; online := false;
                    node_metrics := m |} in
  let back := {| id := i; name := nm; cpu_model := cm; online := true;
                 node_metrics := None |} in
  let c1 := updateCardContent c offline in
  let c2 := updateCardContent c back in
  let c3 := updateCardContent c1 back in
  (gpuUtilEl c1, gpuMemEl c1, cpuUtilEl c1, ramUtilEl c1, gpuTempEl c1)
    = ("N/A", "N/A", "N/A", "N/A", "N/A") /\
  (busyStatusEl c1, busyStatus_className c1)
    = ("离线", "font-semibold busy-status text-red-500") /\
  (gpuUtilEl c2, gpuMemEl c2, cpuUtilEl c2, ramUtilEl c2, gpuTempEl c2,
   busyStatusEl c2, busyStatus_className c2)
    = (gpuUtilEl c, gpuMemEl c, cpuUtilEl c, ramUtilEl c, gpuTempEl c,
       busyStatusEl c, busyStatus_className c) /\
  has "bg-green-500" (indicatorEl c3) = true /\
  has "bg-red-500" (indicatorEl c3) = false /\
  busyStatusEl c3 = "离线" /\
  busyStatus_className c3 = "font-semibold busy-status text-red-500".
Proof.
  intros offline back c1 c2 c3.
  destruct (indicator_follows_online c1 back) as [G R].
  repeat split; auto.
Qed.

(** ** updateNodeCards *)

Lemma updateCardContent_id (c : card) (n : node) :
  card_id (updateCardContent c n) = card_id c.
Proof.
  unfold updateCardContent.
  destruct (online n); [destruct (node_metrics n)|]; reflexivity.
Qed.

Lemma change_first_keeps (eid : string) (f : card -> card) (ch ch' : list card) (c : card) :
  change_first eid f ch = Some ch' ->
  In c ch -> card_id c <> eid -> In c ch'.
Proof.
  revert ch'. induction ch as [|x ch IH]; intros ch' H Hin Hne; [discriminate|].
  simpl in H. destruct (String.eqb (card_id x) eid) eqn:E.
  - inversion H; subst. destruct Hin as [-> | Hin]; [|right; exact Hin].
    apply String.eqb_eq in E. contradiction.
  - destruct (change_first eid f ch) as [r'|]; [|discriminate].
    inversion H; subst. destruct Hin as [-> | Hin]; [left; reflexivity|].
    right. apply IH; auto.
Qed.

Lemma change_first_has (eid : string) (f : card -> card) (ch ch' : list card) :
  change_first eid f ch = Some ch' ->
  exists c0, In (f c0) ch' /\ card_id c0 = eid.
Proof.
  revert ch'. induction ch as [|x ch IH]; intros ch' H; [discriminate|].
  simpl in H. destruct (String.eqb (card_id x) eid) eqn:E.
  - inversion H; subst. exists x. split; [left; reflexivity|].
    apply String.eqb_eq. exact E.
  - destruct (change_first eid f ch) as [r'|]; [|discriminate].
    inversion H; subst. destruct (IH r' eq_refl) as (c0 & Hin & Hid).
    exists c0. split; [right; exact Hin | exact Hid].
Qed.

Lemma place_card_keeps (ch : list card) (n : node) (c : card) :
  In c ch -> card_id c <> card_id_of (id n) -> In c (place_card ch n).
Proof.
  intros Hin Hne. unfold place_card.
  destruct (change_first _ _ ch) as [ch'|] eqn:E.
  - eapply change_first_keeps; eauto.
  - apply in_or_app. left. exact Hin.
Qed.

Lemma place_card_has (ch : list card) (n : node) :
  exists c0, In (updateCardContent c0 n) (place_card ch n) /\
             card_id c0 = card_id_of (id n).
Proof.
  unfold place_card.
  destruct (change_first _ _ ch) as [ch'|] eqn:E.
  - apply change_first_has in E. exact E.
  - exists (createNodeCard n). split; [|reflexivity].
    apply in_or_app. right. left. reflexivity.
Qed.

Lemma placed_keeps (nodes : list node) :
  forall ch c,
    In c ch ->
    (forall n, In n nodes -> card_id c <> card_id_of (id n)) ->
    In c (fold_left place_card nodes ch).
Proof.
  induction nodes as [|n nodes IH]; intros ch c Hin Hne; simpl; auto.
  apply IH.
  - apply place_card_keeps; auto. apply Hne. left. reflexivity.
  - intros n' Hn'. apply Hne. right. exact Hn'.
Qed.

Lemma placed_has (nodes : list node) :
  forall ch,
    NoDup (map id nodes) ->
    (forall n, In n nodes -> (0 <= id n < 2 ^ 53)%Z) ->
    forall n, In n nodes ->
      exists c0, In (updateCardContent c0 n) (fold_left place_card nodes ch) /\
                 card_id c0 = card_id_of (id n).
Proof.
  induction nodes as [|n1 nodes IH]; intros ch Hnd Hpos n Hin; [contradiction|].
  simpl in Hnd. inversion Hnd as [|x l Hnotin Hnd']; subst.
  destruct Hin as [<- | Hin].
  - destruct (place_card_has ch n1) as (c0 & Hc & Hid).
    exists c0. split; [|exact Hid]. simpl. apply placed_keeps; [exact Hc|].
    intros n' Hn' E. rewrite updateCardContent_id, Hid in E.
    apply card_id_of_injective in E.
    + apply Hnotin. rewrite E. apply in_map. exact Hn'.
    + apply Hpos. left. reflexivity.
    + apply Hpos. right. exact Hn'.
  - simpl. apply IH; auto. intros n' Hn'. apply Hpos. right. exact Hn'.
Qed.

Lemma remove_at_filter (P : card -> bool) (l : list card) :
  forall i x, nth_error l i = Some x -> P x = false ->
              filter P (remove_at i l) = filter P l.
Proof.
  induction l as [|y l IH]; intros [|i] x H Hx; simpl in *; try discriminate.
  - inversion H; subst. rewrite Hx. reflexivity.
  - rewrite (IH i x H Hx). reflexivity.
Qed.

Lemma sweep_keeps (ids : list Z) (turns : nat) :
  forall i children,
    filter (fun c => negb (gone ids c)) (sweep turns i ids children)
      = filter (fun c => negb (gone ids c)) children.
Proof.
  induction turns as [|t IH]; intros i children; simpl; auto.
  destruct (nth_error children i) as [child|] eqn:E; auto.
  destruct (gone ids child) eqn:G; rewrite IH; auto.
  apply (remove_at_filter _ _ i child E). rewrite G. reflexivity.
Qed.

(** X4. [updateNodeCards] for nodes with distinct ids from 0 to
    2^53 - 1, the non-negative integers a number holds exactly: afterwards
    every node of the list has its card in the container, brought up to
    date with that node; and the cards whose id reads as the id of a listed
    node are those of before and the new ones, in that order: the sweep
    takes none of them away. *)
Theorem listed_nodes_have_their_cards
    (nodes : list node) (children result : list card) :
  NoDup (map id nodes) ->
  (forall n, In n nodes -> (0 <= id n < 2 ^ 53)%Z) ->
  updateNodeCards nodes (Some children) = Some result ->
  (forall n, In n nodes ->
      exists c0, In (updateCardContent c0 n) result /\
                 card_id c0 = card_id_of (id n)) /\
  filter (fun c => negb (gone (map id nodes) c)) result
    = filter (fun c => negb (gone (map id nodes) c)) (fold_left place_card nodes children).
Proof.
  intros Hnd Hpos H. unfold updateNodeCards in H. inversion H as [Hr]. clear H.
  split; [|apply sweep_keeps].
  intros n Hin.
  destruct (placed_has nodes children Hnd Hpos n Hin) as (c0 & Hc & Hid).
  exists c0. split; [|exact Hid].
  assert (G : gone (map id nodes) (updateCardContent c0 n) = false).
  { unfold gone. rewrite updateCardContent_id, Hid.
    rewrite node_id_of_card_id by (apply Hpos; exact Hin).
    apply negb_false_iff. apply existsb_exists. exists (id n).
    split; [apply in_map; exact Hin | apply Z.eqb_refl]. }
  pose proof (sweep_keeps (map id nodes)
                (List.length (fold_left place_card nodes children)) 0
                (fold_left place_card nodes children)) as K.
  assert (F : In (updateCardContent c0 n)
                 (filter (fun c => negb (gone (map id nodes) c))
                         (fold_left place_card nodes children))).
  { apply filter_In. split; [exact Hc|]. rewrite G. reflexivity. }
  rewrite <- K in F. apply filter_In in F. apply F.
Qed.

Lemma remove_at_middle {A : Type} (kept : list A) (x : A) (rest : list A) :
  remove_at (List.length kept) (kept ++ x :: rest) = kept ++ rest.
Proof.
  induction kept as [|k kept IH]; simpl; auto. rewrite IH. reflexivity.
Qed.

Lemma nth_error_middle {A : Type} (kept : list A) (rest : list A) :
  nth_error (kept ++ rest) (List.length kept) = nth_error rest 0.
Proof.
  induction kept as [|k kept IH]; simpl; auto.
Qed.

Lemma sweep_all_gone (ids : list Z) (turns : nat) :
  forall kept rest,
    (forall c, In c rest -> gone ids c = true) ->
    List.length rest <= turns ->
    sweep turns (List.length kept) ids (kept ++ rest) = kept ++ every_other rest.
Proof.
  induction turns as [|t IH]; intros kept rest Hg Hl.
  - destruct rest; simpl in *; [reflexivity | lia].
  - simpl. rewrite nth_error_middle.
    destruct rest as [|x rest]; [reflexivity|]. simpl.
    rewrite (Hg x) by (left; reflexivity). rewrite remove_at_middle.
    destruct rest as [|y r].
    + rewrite app_nil_r. destruct t as [|t']; [reflexivity|].
      cbn [sweep].
      assert (E : nth_error kept (S (List.length kept)) = None)
        by (apply nth_error_None; lia).
      rewrite E. reflexivity.
    + replace (kept ++ y :: r) with ((kept ++ [y]) ++ r)
        by (rewrite <- app_assoc; reflexivity).
      replace (S (List.length kept)) with (List.length (kept ++ [y]))
        by (rewrite length_app; simpl; lia).
      rewrite IH.
      * rewrite <- app_assoc. reflexivity.
      * intros c Hc. apply Hg. right. right. exact Hc.
      * simpl in Hl. lia.
Qed.

(** X5. When the list of nodes is empty (which is also what a failed
    status request hands to the UI), [updateNodeCards] does not empty the
    container: the iteration over the live collection skips the child that
    moves into the place of a removed one, so that the second, fourth, ...
    child stay. *)
Theorem empty_list_removes_every_other_card (children : list card) :
  updateNodeCards [] (Some children) = Some (every_other children).
Proof.
  unfold updateNodeCards. simpl. f_equal.
  apply (sweep_all_gone [] (List.length children) [] children); [|lia].
  intros c _. unfold gone. destruct (node_id_of (card_id c)); reflexivity.
Qed.

Lemma sweep_isolated (ids : list Z) (turns : nat) :
  forall kept rest,
    isolated ids rest = true ->
    List.length rest <= turns ->
    sweep turns (List.length kept) ids (kept ++ rest)
      = kept ++ filter (fun c => negb (gone ids c)) rest.
Proof.
  induction turns as [|t IH]; intros kept rest Hi Hl.
  - destruct rest; simpl in *; [reflexivity | lia].
  - cbn [sweep]. rewrite nth_error_middle.
    destruct rest as [|x rest]; [reflexivity|]. cbn [nth_error filter].
    destruct (gone ids x) eqn:G; cbn [negb].
    + rewrite remove_at_middle.
      destruct rest as [|y r].
      * cbn [filter]. rewrite !app_nil_r. destruct t as [|t']; [reflexivity|].
        cbn [sweep].
        assert (E : nth_error kept (S (List.length kept)) = None)
          by (apply nth_error_None; lia).
        rewrite E. reflexivity.
      * cbn [isolated] in Hi. rewrite G in Hi. cbn [andb] in Hi.
        apply andb_prop in Hi as [Gy Hi]. apply negb_true_iff in Gy.
        replace (kept ++ y :: r) with ((kept ++ [y]) ++ r)
          by (rewrite <- app_assoc; reflexivity).
        replace (S (List.length kept)) with (List.length (kept ++ [y]))
          by (rewrite length_app; simpl; lia).
        rewrite IH.
        -- cbn [filter]. rewrite Gy. cbn [negb]. rewrite <- app_assoc. reflexivity.
        -- destruct r; [reflexivity|]. cbn [isolated] in Hi |- *.
           apply andb_prop in Hi as [_ Hi]. 
           destruct r; [reflexivity|]. exact Hi.
        -- simpl in Hl. lia.
    + replace (kept ++ x :: rest) with ((kept ++ [x]) ++ rest)
        by (rewrite <- app_assoc; reflexivity).
      replace (S (List.length kept)) with (List.length (kept ++ [x]))
        by (rewrite length_app; simpl; lia).
      rewrite IH.
      * rewrite <- app_assoc. reflexivity.
      * destruct rest; [reflexivity|]. cbn [isolated] in Hi.
        apply andb_prop in Hi as [_ Hi]. exact Hi.
      * simpl in Hl. lia.
Qed.

(** X6. When no two cards to remove are neighbours in the container,
    [updateNodeCards] removes exactly the cards whose id does not read as
    the id of a listed node, and keeps the others in their order. *)
Theorem isolated_stale_cards_are_removed (nodes : list node) (children : list card) :
  let placed := fold_left place_card nodes children in
  isolated (map id nodes) placed = true ->
  updateNodeCards nodes (Some children)
    = Some (filter (fun c => negb (gone (map id nodes) c)) placed).
Proof.
  intros placed H. unfold updateNodeCards. fold placed. f_equal.
  apply (sweep_isolated (map id nodes) (List.length placed) [] placed H). lia.
Qed.

(** ** updateDashboardCharts *)

Lemma map_throwing_cases {A B : Type} (read : A -> completion B)
      (ok : A -> bool) (g : A -> B) (l : list A) :
  (forall x, In x l -> read x = if ok x then Normal (g x) else Throw ETypeError) ->
  map_throwing read l = if forallb ok l then Normal (map g l) else Throw ETypeError.
Proof.
  induction l as [|x l IH]; intros H; simpl; auto.
  rewrite (H x) by (left; reflexivity).
  destruct (ok x); simpl; auto.
  rewrite IH by (intros y Hy; apply H; right; exact Hy).
  destruct (forallb ok l); reflexivity.
Qed.

Lemma charted_has_metrics (nodes : list node) (n : node) :
  In n (charted nodes) -> exists m, node_metrics n = Some m.
Proof.
  unfold charted. intros H. apply filter_In in H as [_ H].
  destruct (node_metrics n) as [m|]; [exists m; reflexivity|].
  rewrite andb_false_r in H. discriminate.
Qed.

Lemma cpu_usage_charted (nodes : list node) :
  map_throwing cpu_usage (charted nodes)
    = Normal (map (reading cpu_usage_percent) (charted nodes)).
Proof.
  rewrite (map_throwing_cases cpu_usage (fun _ => true) (reading cpu_usage_percent)).
  - replace (forallb (fun _ : node => true) (charted nodes)) with true; [reflexivity|].
    symmetry. apply forallb_forall. reflexivity.
  - intros n Hn. destruct (charted_has_metrics nodes n Hn) as (m & E).
    unfold cpu_usage, reading. rewrite E. reflexivity.
Qed.

Lemma gpu_member_charted (member : gpu_metrics -> option number) (nodes : list node) :
  map_throwing (gpu_member member) (charted nodes)
    = if forallb has_gpu (charted nodes)
      then Normal (map (gpu_reading member) (charted nodes))
      else Throw ETypeError.
Proof.
  apply map_throwing_cases. intros n Hn.
  destruct (charted_has_metrics nodes n Hn) as (m & E).
  unfold gpu_member, gpu_reading, reading, of_gpu, has_gpu. rewrite E.
  destruct (gpu m); reflexivity.
Qed.

Lemma memory_percent_charted (nodes : list node) :
  map_throwing memory_percent (charted nodes)
    = if forallb has_memory (charted nodes)
      then Normal (map memory_reading (charted nodes))
      else Throw ETypeError.
Proof.
  apply map_throwing_cases. intros n Hn.
  destruct (charted_has_metrics nodes n Hn) as (m & E).
  unfold memory_percent, memory_reading, reading, has_memory. rewrite E.
  destruct (memory m); reflexivity.
Qed.

(** X7. When every online node with metrics has its [gpu] and [memory]
    objects, [updateDashboardCharts] returns normally; each of the four
    charts then carries the names of the online nodes with metrics as its
    labels and, aligned with them, their readings, and is redrawn exactly
    once. With no such node the four charts are empty. *)
Theorem charts_show_the_online_nodes (nodes : list node) (s : charts) :
  forallb has_gpu (charted nodes) = true ->
  forallb has_memory (charted nodes) = true ->
  updateDashboardCharts nodes s
    = (Normal tt,
       {| cpuChart := drawn nodes (reading cpu_usage_percent) (cpuChart s);
          gpuChart := drawn nodes (gpu_reading utilization_percent) (gpuChart s);
          memoryChart := drawn nodes memory_reading (memoryChart s);
          gpuMemoryChart :=
            drawn nodes (gpu_reading memory_usage_percent) (gpuMemoryChart s) |}).
Proof.
  intros Hg Hm. unfold updateDashboardCharts, drawn. fold (charted nodes).
  rewrite length_map.
  destruct (Nat.eqb (List.length (charted nodes)) 0) eqn:L.
  - apply Nat.eqb_eq, length_zero_iff_nil in L. rewrite L. reflexivity.
  - rewrite cpu_usage_charted, !gpu_member_charted, memory_percent_charted, Hg, Hm.
    reflexivity.
Qed.

(** X8. When an online node with metrics lacks its [gpu] or its [memory]
    object, [updateDashboardCharts] throws a [TypeError] half way: no chart
    is redrawn, the CPU chart already holds the new labels and data, and
    the GPU memory chart still holds the old ones. *)
Theorem charts_torn_by_a_missing_object (nodes : list node) (s : charts) :
  forallb (fun n => has_gpu n && has_memory n) (charted nodes) = false ->
  let (outcome, s') := updateDashboardCharts nodes s in
  outcome = Throw ETypeError /\
  redrawn (cpuChart s') = redrawn (cpuChart s) /\
  redrawn (gpuChart s') = redrawn (gpuChart s) /\
  redrawn (memoryChart s') = redrawn (memoryChart s) /\
  redrawn (gpuMemoryChart s') = redrawn (gpuMemoryChart s) /\
  labels (cpuChart s') = map name (charted nodes) /\
  data (cpuChart s') = map (reading cpu_usage_percent) (charted nodes) /\
  gpuMemoryChart s' = gpuMemoryChart s.
Proof.
  intros H. unfold updateDashboardCharts. fold (charted nodes).
  rewrite length_map.
  destruct (Nat.eqb (List.length (charted nodes)) 0) eqn:L.
  { apply Nat.eqb_eq, length_zero_iff_nil in L. rewrite L in H. discriminate H. }
  rewrite cpu_usage_charted, !gpu_member_charted, memory_percent_charted.
  destruct (forallb has_gpu (charted nodes)) eqn:Hg.
  - destruct (forallb has_memory (charted nodes)) eqn:Hm.
    + exfalso. rewrite forallb_forall in Hg, Hm.
      assert (T : forallb (fun n => has_gpu n && has_memory n) (charted nodes) = true).
      { apply forallb_forall. intros x Hx. rewrite (Hg x Hx), (Hm x Hx). reflexivity. }
      rewrite T in H. discriminate H.
    + cbn. repeat split.
  - cbn. repeat split.
Qed.

End WithMetric.

(** ** updateModelSelector *)

Lemma options_filled (models : list string) :
  forall s0 : select,
    fold_left (fun s model =>
                 {| options := options s ++ [(model, model)];
                    value_selected := value_selected s |})
              models s0
    = {| options := options s0 ++ map (fun m => (m, m)) models;
         value_selected := value_selected s0 |}.
Proof.
  induction models as [|m models IH]; intros s0; simpl.
  - rewrite app_nil_r. destruct s0; reflexivity.
  - rewrite IH. simpl. rewrite <- app_assoc. reflexivity.
Qed.

(** X9. [updateModelSelector] rebuilds the options as the default option
    followed by one option per model, in the order of the list. The
    selection is kept exactly when its value is among the models and falls
    back to the default option otherwise; it is always the value of one of
    the options; and a second call with the same models changes nothing. *)
Theorem model_selector_keeps_an_available_selection (models : list string) (sel : select) :
  exists sel',
    updateModelSelector models (Some sel) = Some sel' /\
    options sel' = (EmptyString, "默认") :: map (fun m => (m, m)) models /\
    value_selected sel'
      = (if existsb (String.eqb (value_selected sel)) models
         then value_selected sel else EmptyString) /\
    In (value_selected sel') (map fst (options sel')) /\
    updateModelSelector models (Some sel') = Some sel'.
Proof.
  unfold updateModelSelector. rewrite !options_filled. cbn [options value_selected app].
  destruct (existsb (String.eqb (value_selected sel)) models) eqn:E.
  - eexists. split; [reflexivity|]. cbn [options value_selected]. rewrite E.
    repeat split.
    apply existsb_exists in E as (m & Hm & Em). apply String.eqb_eq in Em.
    right. rewrite map_map. simpl. rewrite map_id. congruence.
  - eexists. split; [reflexivity|]. cbn [options value_selected].
    repeat split.
    + left. reflexivity.
    + destruct (existsb (String.eqb EmptyString) models); reflexivity.
Qed.

(** ** Worked examples, on the platform of the examples *)

#[local] Existing Instance integer_metric.

Lemma card_classes_follow_online_witness :
  let c' := updateCardContent (createNodeCard idle_node) idle_node in
  has "bg-red-500" (indicatorEl c') = negb (online idle_node) /\
  has "w-4" (indicatorEl c') = has "w-4" (indicatorEl (createNodeCard idle_node)) /\
  has "shadow-md" (card_classes c')
    = has "shadow-md" (card_classes (createNodeCard idle_node)).
Proof.
  intros c'.
  destruct (card_classes_follow_online (createNodeCard idle_node) idle_node)
    as (_ & R & _ & _ & _ & _ & _ & I & K).
  split; [exact R|]. split; [apply I | apply K]; reflexivity.
Defined.

Lemma card_id_round_trip_witness :
  node_id_of (metric := integer_metric) (card_id_of (metric := integer_metric) 42)
    = Some 42%Z /\
  node_id_of (metric := integer_metric) (card_id_of (metric := integer_metric) (-5))
    = None.
Proof.
  split.
  - apply (proj1 (card_id_round_trip (metric := integer_metric)) 42%Z). lia.
  - apply (proj2 (card_id_round_trip (metric := integer_metric)) (-5)%Z). lia.
Defined.

Lemma listed_nodes_have_their_cards_witness :
  (forall n, In n rack ->
      exists c0,
        In (updateCardContent c0 n)
           (sweep 2 0 (map id rack)
              (fold_left place_card rack [createNodeCard (busy_node None)])) /\
        card_id c0 = card_id_of (id n)) /\
  filter (fun c => negb (gone (map id rack) c))
         (sweep 2 0 (map id rack)
            (fold_left place_card rack [createNodeCard (busy_node None)]))
    = filter (fun c => negb (gone (map id rack) c))
             (fold_left place_card rack [createNodeCard (busy_node None)]).
Proof.
  apply (listed_nodes_have_their_cards rack [createNodeCard (busy_node None)]).
  - repeat constructor; simpl; intuition discriminate.
  - intros n [<- | [<- | []]]; simpl; lia.
  - reflexivity.
Defined.

Lemma isolated_stale_cards_are_removed_witness :
  let placed := fold_left place_card rack [stale_card; createNodeCard (busy_node None)] in
  updateNodeCards rack (Some [stale_card; createNodeCard (busy_node None)])
    = Some (filter (fun c => negb (gone (map id rack) c)) placed).
Proof.
  apply (isolated_stale_cards_are_removed rack
           [stale_card; createNodeCard (busy_node None)]).
  reflexivity.
Defined.

Lemma charts_show_the_online_nodes_witness :
  updateDashboardCharts rack blank_charts
    = (Normal tt,
       {| cpuChart := drawn rack (reading cpu_usage_percent) (cpuChart blank_charts);
          gpuChart := drawn rack (gpu_reading utilization_percent) (gpuChart blank_charts);
          memoryChart := drawn rack memory_reading (memoryChart blank_charts);
          gpuMemoryChart :=
            drawn rack (gpu_reading memory_usage_percent) (gpuMemoryChart blank_charts) |}).
Proof.
  apply (charts_show_the_online_nodes rack blank_charts); reflexivity.
Defined.

Lemma charts_torn_by_a_missing_object_witness :
  let (outcome, s') := updateDashboardCharts rack_without_gpu blank_charts in
  outcome = Throw ETypeError /\
  redrawn (cpuChart s') = redrawn (cpuChart blank_charts) /\
  redrawn (gpuChart s') = redrawn (gpuChart blank_charts) /\
  redrawn (memoryChart s') = redrawn (memoryChart blank_charts) /\
  redrawn (gpuMemoryChart s') = redrawn (gpuMemoryChart blank_charts) /\
  labels (cpuChart s') = map name (charted rack_without_gpu) /\
  data (cpuChart s') = map (reading cpu_usage_percent) (charted rack_without_gpu) /\
  gpuMemoryChart s' = gpuMemoryChart blank_charts.
Proof.
  apply (charts_torn_by_a_missing_object rack_without_gpu blank_charts). reflexivity.
Defined.

End DashboardFacts.

(* ================================================================== *)
(** * The conversion to strings                                         *)
(* ================================================================== *)

Module JSConversionFacts.
Import JS JSTerms.

Lemma json_nested_ind (P : json -> Prop) :
  P JNull -> (forall b, P (JBool b)) -> (forall l, P (JNumber l)) ->
  (forall s, P (JString s)) ->
  (forall xs, Forall P xs -> P (JArray xs)) ->
  (forall ms, P (JObject ms)) ->
  forall v, P v.
Proof.
  intros Hnull Hbool Hnum Hstr Harr Hobj.
  fix IH 1.
  intros [| b | l | s | xs | ms];
    [exact Hnull | apply Hbool | apply Hnum | apply Hstr | | apply Hobj].
  apply Harr. induction xs as [|x xs IHxs]; constructor; [apply IH | exact IHxs].
Qed.

Lemma join_with_cases {A : Type} (element : A -> completion string) (ok : A -> bool)
      (l : list A) :
  Forall (fun x => match element x with
                   | Normal _ => ok x = true
                   | Throw e => e = ETypeError /\ ok x = false
                   end) l ->
  match join_with element l with
  | Normal _ => forallb ok l = true
  | Throw e => e = ETypeError /\ forallb ok l = false
  end.
Proof.
  induction 1 as [|x r Hx F IH]; [reflexivity|].
  cbn [join_with forallb].
  destruct (element x) as [t|e].
  - rewrite Hx. cbn [andb].
    destruct r as [|y r']; [reflexivity|].
    destruct (join_with element (y :: r')) as [u|e']; exact IH.
  - destruct Hx as [-> ->]. split; reflexivity.
Qed.

Section WithNumbers.
Context {num : Numbers}.

Lemma to_string_printable (v : json) :
  match to_string v with
  | Normal _ => printable v = true
  | Throw e => e = ETypeError /\ printable v = false
  end.
Proof.
  induction v as [| b | l | s | xs IH | ms] using json_nested_ind;
    try reflexivity.
  - destruct b; reflexivity.
  - cbn [to_string printable]. apply join_with_cases.
    eapply Forall_impl; [|exact IH]. intros x Hx.
    destruct x; try exact Hx; reflexivity.
  - cbn [to_string printable]. destruct (lookup_last "toString" ms); auto.
Qed.

Lemma concat_value_printable (s : string) (v : value) :
  match concat_value s v with
  | Normal _ => printable_value v = true
  | Throw e => e = ETypeError /\ printable_value v = false
  end.
Proof.
  destruct v as [j|]; [|reflexivity].
  unfold concat_value, printable_value.
  pose proof (to_string_printable j) as H.
  destruct (to_string j); exact H.
Qed.

Lemma alert_element_renders (alert : json) :
  match Ui.alert_element alert with
  | Normal _ => renders alert = true
  | Throw e => e = ETypeError /\ renders alert = false
  end.
Proof.
  assert (G : alert = JNull \/
              exists level message,
                get (Some alert) "level" = Normal level /\
                get (Some alert) "message" = Normal message).
  { destruct alert; [left; reflexivity | right ..]; eexists; eexists; split; reflexivity. }
  unfold Ui.alert_element, renders.
  destruct G as [-> | (level & message & -> & ->)]; [split; reflexivity|].
  pose proof (concat_value_printable EmptyString level) as L.
  pose proof (concat_value_printable EmptyString message) as M.
  destruct (concat_value EmptyString level) as [lt|e].
  - rewrite L. cbn [andb].
    destruct (concat_value EmptyString message) as [mt|e]; exact M.
  - destruct L as [-> ->]. split; reflexivity.
Qed.

End WithNumbers.

End JSConversionFacts.

(* ================================================================== *)
(** * chat.js: the stream, line by line                                 *)
(* ================================================================== *)

Module ChatStreamFacts.
Import JS Http Chat ChatTerms ChatFacts.
Local Open Scope js_scope.

Section WithNumbers.
Context {num : Numbers}.

(** The read loop on a stream without [node_assigned] lines, however it
    ends. *)
Lemma read_loop_lines (cs : list string) (e : stream_end) :
  forall (w : world) (ls : list string) (rest : string),
    lf_free (buffer (me w)) = true ->
    (buffer (me w) ++ text_of cs)%string = (unlines ls ++ rest)%string ->
    forallb lf_free ls = true -> lf_free rest = true ->
    forallb benign ls = true ->
    read_loop cs e w
      = (match e with Done => Normal tt | Broken => Throw ETypeError end,
         with_buffer rest (fold_left (fun w l => line_step l w) ls w)).
Proof.
  induction cs as [|c cs IH]; intros w ls rest Hb E Hl Hr Hg.
  - simpl in E. rewrite append_nil_r in E.
    destruct (lf_free_no_line ls rest _ Hb E Hl Hr) as [-> ->].
    simpl. rewrite with_buffer_same. destruct e; reflexivity.
  - destruct (lines_exist (buffer (me w) ++ c)) as (l1 & r1 & E1 & Hl1 & Hr1).
    destruct (lines_exist (r1 ++ text_of cs)) as (l2 & r2 & E2 & Hl2 & Hr2).
    assert (Eall : (unlines ls ++ rest)%string = (unlines (l1 ++ l2) ++ r2)%string).
    { rewrite <- E. simpl. rewrite <- append_assoc, E1, append_assoc, E2.
      rewrite unlines_app, append_assoc. reflexivity. }
    apply lines_unique in Eall; auto;
      [|rewrite forallb_app, Hl1, Hl2; reflexivity].
    destruct Eall as [-> ->].
    rewrite forallb_app in Hg. apply andb_prop in Hg as [Hg1 Hg2].
    simpl. unfold bind. rewrite (on_chunk_benign c l1 r1 w E1 Hl1 Hr1 Hg1).
    rewrite (IH _ l2 r2); auto.
    rewrite fold_left_app, fold_with_buffer. reflexivity.
Qed.

Lemma line_step_content (l : string) (w : world) :
  content (assistantMessage (me (line_step l w)))
    = (content (assistantMessage (me w)) ++ line_fragment l)%string.
Proof.
  unfold line_step, line_fragment.
  destruct (startsWith l "data: ").
  - apply data_step_content.
  - now rewrite append_nil_r.
Qed.

Lemma line_step_frame (l : string) (w : world) :
  page (line_step l w) = page w /\
  role (assistantMessage (me (line_step l w))) = role (assistantMessage (me w)) /\
  element_streaming (me (line_step l w)) = element_streaming (me w).
Proof.
  unfold line_step, data_step.
  destruct (startsWith l "data: "); auto.
  destruct (JSON_parse _); auto.
  destruct (truthy _); auto.
  destruct (concat_value _ _); auto.
Qed.

Lemma lines_content (ls : list string) :
  forall w,
    content (assistantMessage (me (fold_left (fun w l => line_step l w) ls w)))
      = (content (assistantMessage (me w)) ++ text_of (map line_fragment ls))%string.
Proof.
  induction ls as [|l ls IH]; intros w; simpl.
  - now rewrite append_nil_r.
  - rewrite IH, line_step_content, append_assoc. reflexivity.
Qed.

Lemma lines_frame (ls : list string) :
  forall w,
    page (fold_left (fun w l => line_step l w) ls w) = page w /\
    role (assistantMessage (me (fold_left (fun w l => line_step l w) ls w)))
      = role (assistantMessage (me w)) /\
    element_streaming (me (fold_left (fun w l => line_step l w) ls w))
      = element_streaming (me w).
Proof.
  induction ls as [|l ls IH]; intros w; simpl; auto.
  destruct (IH (line_step l w)) as (A & B & C).
  destruct (line_step_frame l w) as (A' & B' & C').
  rewrite A, B, C. auto.
Qed.

(** An answer that is ok: the [try] block is the read loop, started with
    an empty buffer once the event source is open, and the final
    rendering; the invocation ends as [finished] says, with the error
    markup when the loop threw. *)
Lemma sendMessage_try_read_loop (status : nat) (cs : list string) (e : stream_end)
      (w : world) :
  sendMessage_try (streamed status cs e) w
    = bind (read_loop cs e)
           (fun _ => on_me (fun l => set_innerHTML
                                       (marked_parse (content (assistantMessage l))) l))
           {| page := set_network (network (page w) ++ [EventSourceOpen CHAT_URL]) (page w);
              me := set_buffer EmptyString (me w) |}.
Proof. reflexivity. Qed.

Lemma sendMessage_resume_after_loop
      (status : nat) (cs : list string) (e : stream_end) (w : world)
      (c : completion unit) (wf : world) :
  read_loop cs e
    {| page := set_network (network (page w) ++ [EventSourceOpen CHAT_URL]) (page w);
       me := set_buffer EmptyString (me w) |} = (c, wf) ->
  sendMessage_resume (streamed status cs e) w
    = (Normal tt,
       finished (match c with Normal _ => Done | Throw _ => Broken end) wf).
Proof.
  intros L. unfold sendMessage_resume, try_finally, try_catch.
  rewrite sendMessage_try_read_loop. unfold bind at 1. rewrite L.
  destruct c as [[]|err]; reflexivity.
Qed.

(** The world in which the read loop starts. *)
Lemma sendMessage_resume_lines
    (w : world) (status : nat) (cs : list string) (e : stream_end)
    (ls : list string) (rest : string) :
  text_of cs = (unlines ls ++ rest)%string ->
  forallb lf_free ls = true -> lf_free rest = true ->
  forallb benign ls = true ->
  sendMessage_resume (streamed status cs e) w
    = (Normal tt,
       finished e
         (with_buffer rest
            (fold_left (fun w l => line_step l w) ls
               {| page := set_network (network (page w) ++ [EventSourceOpen CHAT_URL])
                            (page w);
                  me := set_buffer EmptyString (me w) |}))).
Proof.
  intros Ht Hl Hr Hg.
  set (w0 := {| page := set_network (network (page w) ++ [EventSourceOpen CHAT_URL]) (page w);
                me := set_buffer EmptyString (me w) |}).
  assert (L : read_loop cs e w0
              = (match e with Done => Normal tt | Broken => Throw ETypeError end,
                 with_buffer rest (fold_left (fun w l => line_step l w) ls w0))).
  { apply read_loop_lines; auto. }
  rewrite (sendMessage_resume_after_loop status cs e w _ _ L).
  destruct e; reflexivity.
Qed.

(** X10. A stream whose complete lines hold no [node_assigned] line is
    read line by line, wherever the chunks are cut and however it ends:
    the content of the assistant message is the concatenation of the
    fragments of its [data: ] lines; any other line contributes nothing,
    and neither does what follows the last line feed, nor a [data: ] line
    whose payload is no JSON or whose fragment is missing, empty or cannot
    be converted to a string, which the [catch] skips. When the stream ends
    with [done] the element shows that content; when a read fails the
    element shows the error markup, and the content gathered so far still
    goes into the history. *)
Theorem stream_is_read_line_by_line
    (s : state) (w : world) (status : nat) (cs : list string) (e : stream_end)
    (ls : list string) (rest : string) :
  sendMessage_begin s = Some w ->
  forallb lf_free ls = true -> lf_free rest = true ->
  forallb benign ls = true ->
  text_of cs = (unlines ls ++ rest)%string ->
  let w' := snd (sendMessage_resume (streamed status cs e) w) in
  content (assistantMessage (me w')) = text_of (map line_fragment ls) /\
  contentElement_innerHTML (me w')
    = match e with
      | Done => marked_parse (text_of (map line_fragment ls))
      | Broken => ERROR_MARKUP
      end /\
  conversationHistory (page w')
    = conversationHistory (page w)
        ++ [{| role := "assistant"; content := text_of (map line_fragment ls) |}] /\
  element_streaming (me w') = false /\
  sendButton_disabled (page w') = false.
Proof.
  intros Hb Hl Hr Hg Ht w'.
  pose proof (sendMessage_begin_locals s w Hb) as Hme.
  unfold w'. rewrite (sendMessage_resume_lines w status cs e ls rest Ht Hl Hr Hg).
  set (w0 := {| page := set_network (network (page w) ++ [EventSourceOpen CHAT_URL]) (page w);
                me := set_buffer EmptyString (me w) |}).
  pose proof (lines_content ls w0) as C.
  destruct (lines_frame ls w0) as (P & R & _).
  set (wf := fold_left (fun w l => line_step l w) ls w0) in *.
  assert (C0 : content (assistantMessage (me wf)) = text_of (map line_fragment ls)).
  { rewrite C. unfold w0. rewrite Hme. reflexivity. }
  assert (R0 : role (assistantMessage (me wf)) = "assistant").
  { rewrite R. unfold w0. rewrite Hme. reflexivity. }
  cbn [snd finished with_buffer page me set_streaming set_innerHTML set_buffer
       assistantMessage contentElement_innerHTML element_streaming
       set_history set_sendButton_disabled conversationHistory sendButton_disabled].
  rewrite C0, P.
  split; [reflexivity|]. split; [destruct e; reflexivity|].
  split; [|split; reflexivity].
  unfold w0. cbn [page set_network conversationHistory]. f_equal. f_equal.
  destruct (assistantMessage (me wf)) as [ro co]. simpl in *. congruence.
Qed.

(** X11. For a stream without [node_assigned] lines the chunk boundaries
    do not matter: two streams with the same text and the same ending leave
    the same page and the same message behind. *)
Theorem chunk_boundaries_do_not_matter
    (w : world) (status : nat) (cs cs' : list string) (e : stream_end) :
  text_of cs = text_of cs' ->
  forallb benign (split_nl (text_of cs)) = true ->
  sendMessage_resume (streamed status cs e) w
    = sendMessage_resume (streamed status cs' e) w.
Proof.
  intros Ht Hg.
  destruct (lines_exist (text_of cs)) as (ls & rest & E & Hl & Hr).
  rewrite E, split_nl_unlines, forallb_app in Hg by assumption.
  apply andb_prop in Hg as [Hg _].
  rewrite (sendMessage_resume_lines w status cs e ls rest E Hl Hr Hg).
  rewrite Ht in E.
  rewrite (sendMessage_resume_lines w status cs' e ls rest E Hl Hr Hg).
  reflexivity.
Qed.

(** ** The lines of a node assignment *)

Lemma on_line_blank (lines : list string) (w : world) :
  on_line lines EmptyString w = (Normal tt, w).
Proof. reflexivity. Qed.

Lemma on_line_payload (lines : list string) (p : string) (ms : list (string * json))
      (w : world) :
  JSON_parse p = Some (JObject ms) ->
  lookup_last "choices" ms = None ->
  on_line lines (data_line p) w = (Normal tt, w).
Proof.
  intros Hp Hc.
  rewrite on_line_benign by reflexivity.
  unfold line_step, data_line. simpl. unfold data_step. rewrite Hp. simpl. rewrite Hc.
  reflexivity.
Qed.

Lemma on_line_assignment (lines : list string) (p : string) (ms : list (string * json))
      (w : world) :
  at_index lines (indexOf lines NODE_ASSIGNED + 1) = Some (data_line p) ->
  JSON_parse p = Some (JObject ms) ->
  on_line lines NODE_ASSIGNED w
    = match concat_value "任务已分配至 " (lookup_last "node_name" ms) with
      | Normal text =>
          (Normal tt,
           {| page := set_chatWindow (chatWindow (page w) ++ [Notification text]) (page w);
              me := me w |})
      | Throw e => (Throw e, w)
      end.
Proof.
  intros Hi Hp. unfold on_line. simpl. unfold on_event_line.
  rewrite Hi.
  unfold data_line. simpl. unfold bind, parse, lift. rewrite Hp.
  unfold displayNodeAssignment, bind, lift. cbn [get].
  destruct (concat_value "任务已分配至 " (lookup_last "node_name" ms)); reflexivity.
Qed.

Lemma on_line_assignment_throws (lines : list string) (p : string) (w : world) :
  at_index lines (indexOf lines NODE_ASSIGNED + 1) = Some (data_line p) ->
  JSON_parse p = None ->
  on_line lines NODE_ASSIGNED w = (Throw ESyntaxError, w).
Proof.
  intros Hi Hp. unfold on_line. simpl. unfold on_event_line.
  rewrite Hi.
  unfold data_line. simpl. unfold bind, parse, lift. rewrite Hp. reflexivity.
Qed.

Lemma lf_free_data_line (p : string) : lf_free (data_line p) = lf_free p.
Proof. reflexivity. Qed.

(** One chunk that holds complete lines only, read with an empty buffer. *)
Lemma on_chunk_whole_lines (ls : list string) (w : world) :
  buffer (me w) = EmptyString ->
  forallb lf_free ls = true ->
  on_chunk (unlines ls) w = for_of ls (on_line ls) w.
Proof.
  intros Hb Hl. unfold on_chunk, bind, on_me, modify, read. simpl.
  rewrite Hb. simpl.
  rewrite <- (append_nil_r (unlines ls)), split_nl_unlines by auto.
  rewrite pop_snoc. unfold bind. f_equal.
  destruct w as [p [a h st b]]. simpl in *. subst b. reflexivity.
Qed.

(** X12. A node assignment whose two lines arrive in one chunk: when the
    node name of its payload converts to a string, it is shown with that
    name. The payload is looked up after the first line of the chunk that
    equals the event line: when a chunk holds two assignments, both
    notifications carry the node name of the first. When the node name does
    not convert to a string (an object with a member [toString] of its
    own), [displayNodeAssignment] throws out of the loop before anything is
    appended. *)
Theorem node_assignment_shows_the_first_payload
    (p1 p2 : string) (ms1 ms2 : list (string * json)) (w : world) :
  buffer (me w) = EmptyString ->
  lf_free p1 = true -> lf_free p2 = true ->
  JSON_parse p1 = Some (JObject ms1) -> lookup_last "choices" ms1 = None ->
  JSON_parse p2 = Some (JObject ms2) -> lookup_last "choices" ms2 = None ->
  let once := unlines [NODE_ASSIGNED; data_line p1; EmptyString] in
  let twice := unlines [NODE_ASSIGNED; data_line p1; EmptyString;
                        NODE_ASSIGNED; data_line p2; EmptyString] in
  match concat_value "任务已分配至 " (lookup_last "node_name" ms1) with
  | Normal text =>
      on_chunk once w
        = (Normal tt,
           {| page := set_chatWindow (chatWindow (page w) ++ [Notification text]) (page w);
              me := me w |}) /\
      on_chunk twice w
        = (Normal tt,
           {| page := set_chatWindow
                        (chatWindow (page w) ++ [Notification text; Notification text])
                        (page w);
              me := me w |})
  | Throw e =>
      on_chunk once w = (Throw e, w) /\ on_chunk twice w = (Throw e, w)
  end.
Proof.
  intros Hb H1 H2 P1 C1 P2 C2 once twice. subst once twice.
  assert (L1 : forallb lf_free [NODE_ASSIGNED; data_line p1; EmptyString] = true)
    by (cbn [forallb]; rewrite lf_free_data_line, H1; reflexivity).
  assert (L2 : forallb lf_free [NODE_ASSIGNED; data_line p1; EmptyString;
                                NODE_ASSIGNED; data_line p2; EmptyString] = true)
    by (cbn [forallb]; rewrite !lf_free_data_line, H1, H2; reflexivity).
  destruct (concat_value "任务已分配至 " (lookup_last "node_name" ms1)) as [text|e] eqn:E.
  - split.
    + rewrite on_chunk_whole_lines by assumption.
      cbn [for_of]. unfold bind.
      rewrite (on_line_assignment _ p1 ms1), E by (reflexivity || exact P1).
      rewrite (on_line_payload _ p1 ms1) by assumption.
      rewrite on_line_blank. reflexivity.
    + rewrite on_chunk_whole_lines by assumption.
      cbn [for_of]. unfold bind.
      rewrite (on_line_assignment _ p1 ms1), E by (reflexivity || exact P1).
      rewrite (on_line_payload _ p1 ms1) by assumption.
      rewrite on_line_blank.
      rewrite (on_line_assignment _ p1 ms1), E by (reflexivity || exact P1).
      rewrite (on_line_payload _ p2 ms2) by assumption.
      rewrite on_line_blank. cbn [page me set_chatWindow chatWindow].
      rewrite <- app_assoc. reflexivity.
  - split; rewrite on_chunk_whole_lines by assumption;
      cbn [for_of]; unfold bind;
      rewrite (on_line_assignment _ p1 ms1), E by (reflexivity || exact P1);
      reflexivity.
Qed.

(** X13. A node assignment whose payload is not JSON ends the answer:
    nothing catches the error inside the loop, so the rest of the stream
    is not read, the element shows the error markup and the message goes
    into the history as it is, here empty. (On a [data: ] line of its own
    the same payload would be passed over.) *)
Theorem malformed_assignment_ends_the_answer
    (s : state) (w : world) (p : string) (status : nat)
    (more : list string) (e : stream_end) :
  sendMessage_begin s = Some w ->
  lf_free p = true ->
  JSON_parse p = None ->
  let w' := snd (sendMessage_resume
                   (streamed status (unlines [NODE_ASSIGNED; data_line p] :: more) e) w) in
  contentElement_innerHTML (me w') = ERROR_MARKUP /\
  conversationHistory (page w')
    = conversationHistory (page w) ++ [{| role := "assistant"; content := EmptyString |}] /\
  chatWindow (page w') = chatWindow (page w) /\
  on_line [data_line p] (data_line p) w = (Normal tt, w).
Proof.
  intros Hb Hl Hp w'.
  pose proof (sendMessage_begin_locals s w Hb) as Hme.
  set (w0 := {| page := set_network (network (page w) ++ [EventSourceOpen CHAT_URL]) (page w);
                me := set_buffer EmptyString (me w) |}).
  assert (L : read_loop (unlines [NODE_ASSIGNED; data_line p] :: more) e w0
              = (Throw ESyntaxError, w0)).
  { cbn [read_loop]. unfold bind.
    rewrite on_chunk_whole_lines;
      [|reflexivity | cbn [forallb]; rewrite lf_free_data_line, Hl; reflexivity].
    cbn [for_of]. unfold bind.
    rewrite (on_line_assignment_throws _ p) by (reflexivity || exact Hp).
    reflexivity. }
  unfold w'. rewrite (sendMessage_resume_after_loop status _ e w _ _ L).
  split; [|split; [|split]].
  - reflexivity.
  - simpl. rewrite Hme. reflexivity.
  - reflexivity.
  - rewrite on_line_benign by reflexivity.
    unfold line_step, data_line. simpl. unfold data_step. rewrite Hp. reflexivity.
Qed.

End WithNumbers.

Lemma stream_is_read_line_by_line_witness :
  let w' := snd (sendMessage_resume (num := literal_numbers)
                   (streamed 200 chunks_mixed Broken) begun_hi) in
  line_fragment (num := literal_numbers)
    (lit "data: {'choices':[{'delta':{'content':{'toString':1}}}]}") = EmptyString /\
  content (assistantMessage (me w'))
    = text_of (map (line_fragment (num := literal_numbers)) lines_mixed) /\
  contentElement_innerHTML (me w')
    = match Broken with
      | Done => marked_parse
                  (text_of (map (line_fragment (num := literal_numbers)) lines_mixed))
      | Broken => ERROR_MARKUP
      end /\
  conversationHistory (page w')
    = conversationHistory (page begun_hi)
        ++ [{| role := "assistant";
               content :=
                 text_of (map (line_fragment (num := literal_numbers)) lines_mixed) |}] /\
  element_streaming (me w') = false /\
  sendButton_disabled (page w') = false.
Proof.
  intros w'. split; [vm_compute; reflexivity|].
  apply (stream_is_read_line_by_line (num := literal_numbers)
           typed_hi begun_hi 200 chunks_mixed Broken lines_mixed rest_mixed);
    vm_compute; reflexivity.
Defined.

Lemma chunk_boundaries_do_not_matter_witness :
  sendMessage_resume (num := literal_numbers) (streamed 200 chunks_hello Done) begun_hi
    = sendMessage_resume (num := literal_numbers)
        (streamed 200 [text_of chunks_hello] Done) begun_hi.
Proof.
  apply (chunk_boundaries_do_not_matter (num := literal_numbers)
           begun_hi 200 chunks_hello [text_of chunks_hello] Done);
    vm_compute; reflexivity.
Defined.

Lemma node_assignment_shows_the_first_payload_witness :
  concat_value (num := literal_numbers) "任务已分配至 " (lookup_last "node_name" members_1)
    = Normal "任务已分配至 Node 1 (RTX 4090)" /\
  let once := unlines [NODE_ASSIGNED; data_line assigned_1; EmptyString] in
  let twice := unlines [NODE_ASSIGNED; data_line assigned_1; EmptyString;
                        NODE_ASSIGNED; data_line assigned_2; EmptyString] in
  match concat_value (num := literal_numbers) "任务已分配至 "
          (lookup_last "node_name" members_1) with
  | Normal text =>
      on_chunk (num := literal_numbers) once begun_hi
        = (Normal tt,
           {| page := set_chatWindow (chatWindow (page begun_hi) ++ [Notification text])
                        (page begun_hi);
              me := me begun_hi |}) /\
      on_chunk (num := literal_numbers) twice begun_hi
        = (Normal tt,
           {| page := set_chatWindow
                        (chatWindow (page begun_hi)
                           ++ [Notification text; Notification text])
                        (page begun_hi);
              me := me begun_hi |})
  | Throw e =>
      on_chunk (num := literal_numbers) once begun_hi = (Throw e, begun_hi) /\
      on_chunk (num := literal_numbers) twice begun_hi = (Throw e, begun_hi)
  end.
Proof.
  split; [reflexivity|].
  apply (node_assignment_shows_the_first_payload (num := literal_numbers)
           assigned_1 assigned_2 members_1 members_2 begun_hi);
    vm_compute; reflexivity.
Defined.

Lemma malformed_assignment_ends_the_answer_witness :
  let w' := snd (sendMessage_resume (num := literal_numbers)
                   (streamed 200
                      (unlines [NODE_ASSIGNED; data_line "node-1"] :: chunks_hello) Done)
                   begun_hi) in
  contentElement_innerHTML (me w') = ERROR_MARKUP /\
  conversationHistory (page w')
    = conversationHistory (page begun_hi)
        ++ [{| role := "assistant"; content := EmptyString |}] /\
  chatWindow (page w') = chatWindow (page begun_hi) /\
  on_line (num := literal_numbers) [data_line "node-1"] (data_line "node-1") begun_hi
    = (Normal tt, begun_hi).
Proof.
  apply (malformed_assignment_ends_the_answer (num := literal_numbers)
           typed_hi begun_hi "node-1" 200 chunks_hello Done);
    vm_compute; reflexivity.
Defined.

End ChatStreamFacts.

(* ================================================================== *)
(** * chat.js: the conversation                                         *)
(* ================================================================== *)

Module ChatSessionFacts.
Import JS Http Chat ChatTerms ChatFacts.
Local Open Scope js_scope.

(** ** The trimmed input *)

Lemma all_ws_unfold (c : ascii) (r : string) :
  all_ws (String c r)
    = match ws_width (String c r) with
      | 0 => false
      | 1 => all_ws r
      | 2 => match r with String _ r1 => all_ws r1 | EmptyString => false end
      | _ => match r with String _ (String _ r2) => all_ws r2 | _ => false end
      end.
Proof. reflexivity. Qed.

Lemma trim_start_unfold (c : ascii) (r : string) :
  trim_start (String c r)
    = match ws_width (String c r) with
      | 0 => String c r
      | 1 => trim_start r
      | 2 => match r with String _ r1 => trim_start r1 | EmptyString => String c r end
      | _ => match r with
             | String _ (String _ r2) => trim_start r2
             | _ => String c r
             end
      end.
Proof. reflexivity. Qed.

Lemma all_ws_trim_start (n : nat) :
  forall s, String.length s <= n -> all_ws (trim_start s) = all_ws s.
Proof.
  induction n as [|n IH]; intros s L.
  - destruct s; [reflexivity | simpl in L; lia].
  - destruct s as [|c r]; [reflexivity|].
    rewrite trim_start_unfold, (all_ws_unfold c r).
    simpl in L.
    destruct (ws_width (String c r)) as [|[|[|k]]] eqn:W.
    + rewrite all_ws_unfold, W. reflexivity.
    + apply IH. lia.
    + destruct r as [|c1 r1].
      * rewrite all_ws_unfold, W. reflexivity.
      * apply IH. simpl in L. lia.
    + destruct r as [|c1 [|c2 r2]].
      * rewrite all_ws_unfold, W. reflexivity.
      * rewrite all_ws_unfold, W. reflexivity.
      * apply IH. simpl in L. lia.
Qed.

Lemma trim_end_empty (t : string) : trim_end t = EmptyString <-> all_ws t = true.
Proof.
  destruct t as [|c r]; [split; reflexivity|].
  cbn [trim_end]. destruct (all_ws (String c r)); split; auto; discriminate.
Qed.

Lemma trim_empty (t : string) : trim t = EmptyString <-> all_ws t = true.
Proof.
  unfold trim. rewrite trim_end_empty.
  rewrite (all_ws_trim_start (String.length t) t (le_n _)). reflexivity.
Qed.

Lemma nonempty_false (t : string) : nonempty t = false <-> t = EmptyString.
Proof.
  unfold nonempty. rewrite negb_false_iff. apply String.eqb_eq.
Qed.

Section WithNumbers.
Context {num : Numbers}.

Lemma sendMessage_begin_none (s : state) :
  sendMessage_begin s = None <-> all_ws (messageInput_value s) = true.
Proof.
  rewrite <- trim_empty, <- nonempty_false. unfold sendMessage_begin.
  destruct (nonempty (trim (messageInput_value s))); split; auto; discriminate.
Qed.

(** X14. An input that holds white space only is not sent, and only
    such an input: [sendMessage] returns at once, whether it was called by
    a click or by the Enter key, and nothing on the page changes. *)
Theorem blank_input_is_not_sent (s : state) :
  (sendMessage_begin s = None <-> all_ws (messageInput_value s) = true) /\
  (all_ws (messageInput_value s) = true ->
   forall (waiting : list locals) (shiftKey : bool),
     let sys := {| now := s; pending := waiting |} in
     step ClicksSend sys = sys /\ step (PressesEnter shiftKey) sys = sys).
Proof.
  split; [apply sendMessage_begin_none|].
  intros H waiting shiftKey sys. apply sendMessage_begin_none in H.
  subst sys. unfold step, invoke. cbn [now]. rewrite H.
  split; [destruct (sendButton_disabled s) | destruct shiftKey]; reflexivity.
Qed.

(** ** A POST that fails *)

Lemma sendMessage_begin_page (s : state) (w : world) :
  sendMessage_begin s = Some w ->
  modelSelect_value (page w) = modelSelect_value s /\
  chatWindow (page w)
    = chatWindow s
        ++ [MessageElement true false (marked_parse (trim (messageInput_value s)));
            MessageElement false true (marked_parse "...")].
Proof.
  unfold sendMessage_begin.
  destruct (nonempty (trim (messageInput_value s))) eqn:E; [|discriminate].
  intros H; inversion H; subst; clear H. split; [reflexivity|].
  cbn. unfold renderMessage. cbn. rewrite E, <- app_assoc. reflexivity.
Qed.

(** X15. When the POST is rejected or answered with a status that is not
    ok, the element of the answer shows the error markup and loses its
    streaming class, the send button is enabled again, no event source is
    opened, and an assistant message with empty content goes into the
    history: the next message is sent with that empty message in its
    body. *)
Theorem failed_post_leaves_an_empty_answer
    (s : state) (w : world) (r : chat_response) (text : string) :
  sendMessage_begin s = Some w ->
  (r = ChatRejected \/ exists status body, r = ChatResponse false status body) ->
  all_ws text = false ->
  let w' := snd (sendMessage_resume r w) in
  let sent := conversationHistory s
                ++ [{| role := "user"; content := trim (messageInput_value s) |};
                    {| role := "assistant"; content := EmptyString |}] in
  contentElement_innerHTML (me w') = ERROR_MARKUP /\
  element_streaming (me w') = false /\
  sendButton_disabled (page w') = false /\
  network (page w') = network (page w) /\
  chatWindow (page w') = chatWindow (page w) /\
  conversationHistory (page w') = sent /\
  exists w2 model,
    sendMessage_begin (set_messageInput_value text (page w')) = Some w2 /\
    network (page w2)
      = network (page w)
          ++ [Fetch {| method := POST; url := CHAT_URL;
                       body := ChatBody (sent ++ [{| role := "user"; content := trim text |}])
                                        model true |}].
Proof.
  intros Hb Hr Ht w' sent.
  pose proof (sendMessage_begin_locals s w Hb) as Hme.
  destruct (sendMessage_begin_history s w Hb) as (_ & Hh & _ & _).
  assert (E : w' = {| page := set_history (conversationHistory (page w)
                                             ++ [assistantMessage (me w)])
                                (set_sendButton_disabled false (page w));
                      me := set_streaming false (set_innerHTML ERROR_MARKUP (me w)) |}).
  { unfold w'. destruct Hr as [-> | (status & body & ->)]; reflexivity. }
  assert (Hs : conversationHistory (page w') = sent).
  { rewrite E. cbn. rewrite Hh, Hme, <- app_assoc. reflexivity. }
  repeat split; try (rewrite E; reflexivity); try exact Hs.
  assert (N : nonempty (trim text) = true).
  { destruct (nonempty (trim text)) eqn:N; auto.
    apply nonempty_false, trim_empty in N. congruence. }
  unfold sendMessage_begin. cbn [messageInput_value set_messageInput_value]. rewrite N.
  eexists. eexists. split; [reflexivity|].
  cbn. rewrite Hs. rewrite E. reflexivity.
Qed.

(** ** Runs *)

Lemma alternates_snoc (h0 : list message) (u a : message) :
  role u = "user" -> role a = "assistant" ->
  alternates h0 = true -> alternates ((h0 ++ [u]) ++ [a]) = true.
Proof.
  intros. rewrite <- app_assoc. apply alternates_app; assumption.
Qed.

Lemma step_calm (e : event) (sys : system) :
  match e with PressesEnter false => False | _ => True end ->
  calm sys -> calm (step e sys).
Proof.
  intros He H. destruct e as [text|model| |[|]|i r]; try contradiction.
  - destruct H as [(A & B & C) | (l & h0 & u & A & B & C & D & E & F)];
      [left | right; exists l, h0, u]; simpl; auto 10.
  - destruct H as [(A & B & C) | (l & h0 & u & A & B & C & D & E & F)];
      [left | right; exists l, h0, u]; simpl; auto 10.
  - destruct H as [(A & B & C) | (l & h0 & u & A & B & C & D & E & F)].
    + unfold step. rewrite B. unfold invoke.
      destruct (sendMessage_begin (now sys)) as [w|] eqn:Hb; [|left; auto].
      destruct (sendMessage_begin_history _ _ Hb) as (_ & Hh & Hd & _).
      pose proof (sendMessage_begin_locals _ _ Hb) as Hme.
      right. exists (me w), (conversationHistory (now sys)),
               {| role := "user"; content := trim (messageInput_value (now sys)) |}.
      cbn [now pending]. rewrite A, Hme. repeat split; auto.
    + unfold step. rewrite B. right. exists l, h0, u. auto 10.
  - exact H.
  - destruct H as [(A & B & C) | (l & h0 & u & A & B & C & D & E & F)].
    + unfold step. rewrite A. destruct i; left; auto.
    + destruct i as [|i].
      * assert (Hn : nth_error (pending sys) 0 = Some l) by (rewrite A; reflexivity).
        destruct (settle_history 0 r sys l Hn) as (c & Hh & _ & Hp).
        destruct (sendMessage_resume_spec r {| page := now sys; me := l |})
          as (c' & _ & _ & _ & Hd & _).
        left. rewrite Hp, A. split; [reflexivity|]. split.
        -- unfold step. rewrite Hn. exact Hd.
        -- rewrite Hh, D. apply alternates_snoc; auto.
      * unfold step. rewrite A. destruct i; right; exists l, h0, u; auto 10.
Qed.

Lemma run_calm (es : list event) :
  forall sys, clicks_only es -> calm sys -> calm (run es sys).
Proof.
  induction es as [|e es IH]; intros sys Hc H; simpl; auto.
  inversion Hc; subst. apply IH; auto. apply step_calm; auto.
Qed.

(** X16. As long as messages are sent with the button only, invocations
    do not overlap: at most one POST is pending at any time, the button
    is disabled exactly while one is, and whenever none is pending the
    roles of the history alternate, user first, assistant last. *)
Theorem clicks_keep_the_conversation_in_turns (es : list event) :
  clicks_only es ->
  let sys := run es boot in
  List.length (pending sys) <= 1 /\
  sendButton_disabled (now sys) = negb (Nat.eqb (List.length (pending sys)) 0) /\
  (pending sys = [] -> alternates (conversationHistory (now sys)) = true).
Proof.
  intros Hc sys.
  assert (H : calm sys).
  { apply run_calm; auto. left. repeat split. }
  destruct H as [(A & B & C) | (l & h0 & u & A & B & C & D & E & F)];
    rewrite A, B; repeat split; auto; try discriminate; simpl; lia.
Qed.

Lemma count_role_snoc (r : string) (h : list message) (m : message) :
  count_role r (h ++ [m])
    = count_role r h + (if String.eqb (role m) r then 1 else 0).
Proof.
  unfold count_role. rewrite filter_app, length_app. simpl.
  destruct (String.eqb (role m) r); reflexivity.
Qed.

Lemma remove_nth_length {A : Type} (l : list A) :
  forall i x, nth_error l i = Some x ->
              List.length l = S (List.length (remove_nth i l)).
Proof.
  induction l as [|y l IH]; intros [|i] x H; simpl in *; try discriminate; auto.
  f_equal. eapply IH; eauto.
Qed.

Lemma remove_nth_Forall {A : Type} (P : A -> Prop) (l : list A) :
  forall i, Forall P l -> Forall P (remove_nth i l).
Proof.
  induction l as [|y l IH]; intros [|i] H; simpl; auto;
    inversion H; subst; auto.
Qed.

Lemma invoke_counts (sys : system) :
  let b := nonempty (trim (messageInput_value (now sys))) in
  Forall (fun l => role (assistantMessage l) = "assistant") (pending sys) ->
  Forall (fun l => role (assistantMessage l) = "assistant") (pending (invoke sys)) /\
  count_role "user" (conversationHistory (now (invoke sys)))
    = count_role "user" (conversationHistory (now sys)) + (if b then 1 else 0) /\
  count_role "assistant" (conversationHistory (now (invoke sys)))
    = count_role "assistant" (conversationHistory (now sys)) /\
  List.length (pending (invoke sys))
    = List.length (pending sys) + (if b then 1 else 0).
Proof.
  intros b F. subst b. unfold invoke.
  destruct (sendMessage_begin (now sys)) as [w|] eqn:Hb.
  - destruct (sendMessage_begin_history _ _ Hb) as (N & Hh & _ & _).
    pose proof (sendMessage_begin_locals _ _ Hb) as Hme.
    rewrite N. cbn [now pending]. split; [|split; [|split]].
    + apply Forall_app. split; [exact F|]. constructor; [|constructor].
      rewrite Hme. reflexivity.
    + rewrite Hh, count_role_snoc. reflexivity.
    + rewrite Hh, count_role_snoc. cbn. lia.
    + rewrite length_app. reflexivity.
  - pose proof (proj1 (sendMessage_begin_none (now sys)) Hb) as N.
    assert (E : nonempty (trim (messageInput_value (now sys))) = false).
    { apply nonempty_false. apply trim_empty. exact N. }
    rewrite E. repeat split; auto; lia.
Qed.

Lemma step_counts (e : event) (sys : system) :
  Forall (fun l => role (assistantMessage l) = "assistant") (pending sys) ->
  Forall (fun l => role (assistantMessage l) = "assistant") (pending (step e sys)) /\
  count_role "user" (conversationHistory (now (step e sys)))
    = count_role "user" (conversationHistory (now sys))
      + (if begins e sys then 1 else 0) /\
  count_role "assistant" (conversationHistory (now (step e sys)))
    = count_role "assistant" (conversationHistory (now sys))
      + (if finishes e sys then 1 else 0) /\
  List.length (pending (step e sys)) + (if finishes e sys then 1 else 0)
    = List.length (pending sys) + (if begins e sys then 1 else 0).
Proof.
  intros F.
  assert (Same : forall sys' : system,
             conversationHistory (now sys') = conversationHistory (now sys) ->
             pending sys' = pending sys ->
             Forall (fun l => role (assistantMessage l) = "assistant") (pending sys') /\
             count_role "user" (conversationHistory (now sys'))
               = count_role "user" (conversationHistory (now sys)) + 0 /\
             count_role "assistant" (conversationHistory (now sys'))
               = count_role "assistant" (conversationHistory (now sys)) + 0 /\
             List.length (pending sys') + 0 = List.length (pending sys) + 0).
  { intros sys' Hh Hp. rewrite Hh, Hp. repeat split; auto. }
  destruct e as [text|model| |shiftKey|i r]; cbn [step begins finishes].
  - apply Same; reflexivity.
  - apply Same; reflexivity.
  - destruct (sendButton_disabled (now sys)); cbn [negb andb].
    + apply Same; reflexivity.
    + destruct (invoke_counts sys F) as (A & B & C & D).
      rewrite B, C, D. repeat split; auto.
  - destruct shiftKey; cbn [negb andb].
    + apply Same; reflexivity.
    + destruct (invoke_counts sys F) as (A & B & C & D).
      rewrite B, C, D. repeat split; auto.
  - destruct (nth_error (pending sys) i) as [l|] eqn:Hn.
    + assert (Hi : Nat.ltb i (List.length (pending sys)) = true).
      { apply Nat.ltb_lt. apply nth_error_Some. rewrite Hn. discriminate. }
      rewrite Hi.
      destruct (settle_history i r sys l Hn) as (c & Hh & _ & Hp).
      unfold step in Hh, Hp. rewrite Hn in Hh, Hp.
      assert (Hl : role (assistantMessage l) = "assistant").
      { rewrite Forall_forall in F. apply F. eapply nth_error_In; eauto. }
      split; [|split; [|split]].
      * rewrite Hp. apply remove_nth_Forall. exact F.
      * rewrite Hh, count_role_snoc. cbn [role]. rewrite Hl. reflexivity.
      * rewrite Hh, count_role_snoc. cbn [role]. rewrite Hl. reflexivity.
      * rewrite Hp. rewrite (remove_nth_length _ _ _ Hn). lia.
    + assert (Hi : Nat.ltb i (List.length (pending sys)) = false).
      { apply Nat.ltb_ge. apply nth_error_None. exact Hn. }
      rewrite Hi. apply Same; reflexivity.
Qed.

Lemma run_counts (es : list event) :
  forall sys,
    Forall (fun l => role (assistantMessage l) = "assistant") (pending sys) ->
    count_role "user" (conversationHistory (now (run es sys)))
      = count_role "user" (conversationHistory (now sys)) + begun es sys /\
    count_role "assistant" (conversationHistory (now (run es sys)))
      = count_role "assistant" (conversationHistory (now sys)) + finished_count es sys /\
    List.length (pending (run es sys)) + finished_count es sys
      = List.length (pending sys) + begun es sys.
Proof.
  induction es as [|e es IH]; intros sys F; cbn [run fold_left begun finished_count].
  - repeat split; lia.
  - destruct (step_counts e sys F) as (F' & A & B & C).
    destruct (IH (step e sys) F') as (A' & B' & C').
    unfold run in A', B', C'. rewrite A', B', A, B. repeat split; lia.
Qed.

(** X17. In every run, Enter key included, no message is lost or made up.
    The user messages of the history are as many as the invocations of
    [sendMessage] that were started, by a click on the enabled button or by
    Enter without Shift, with an input that is not blank. The assistant
    messages are as many as the invocations that were finished, those
    whose answer was read to its end, whatever its outcome, and whose
    [finally] block has run. The invocations that are pending are those
    started and not finished. So the user messages are as many as the
    assistant messages and the pending invocations together. *)
Theorem every_message_gets_one_answer (es : list event) :
  let sys := run es boot in
  count_role "user" (conversationHistory (now sys)) = begun es boot /\
  count_role "assistant" (conversationHistory (now sys)) = finished_count es boot /\
  List.length (pending sys) + finished_count es boot = begun es boot /\
  count_role "user" (conversationHistory (now sys))
    = count_role "assistant" (conversationHistory (now sys))
      + List.length (pending sys).
Proof.
  intros sys.
  destruct (run_counts es boot) as (A & B & C); [constructor|].
  fold sys in A, B, C. cbn in A, B, C.
  repeat split; lia.
Qed.

End WithNumbers.

Lemma blank_input_is_not_sent_witness :
  let s := set_messageInput_value "   " initial in
  (sendMessage_begin s = None <-> all_ws (messageInput_value s) = true) /\
  (let sys := {| now := s; pending := [] |} in
   step (num := literal_numbers) ClicksSend sys = sys /\
   step (num := literal_numbers) (PressesEnter false) sys = sys).
Proof.
  intros s.
  destruct (blank_input_is_not_sent (num := literal_numbers) s) as [A B].
  split; [exact A|]. apply (B eq_refl [] false).
Defined.

Lemma failed_post_leaves_an_empty_answer_witness :
  let w' := snd (sendMessage_resume (num := literal_numbers)
                   (ChatResponse false 503 {| chunks := []; ending := Done |}) begun_hi) in
  let sent := conversationHistory typed_hi
                ++ [{| role := "user"; content := trim (messageInput_value typed_hi) |};
                    {| role := "assistant"; content := EmptyString |}] in
  contentElement_innerHTML (me w') = ERROR_MARKUP /\
  element_streaming (me w') = false /\
  sendButton_disabled (page w') = false /\
  network (page w') = network (page begun_hi) /\
  chatWindow (page w') = chatWindow (page begun_hi) /\
  conversationHistory (page w') = sent /\
  exists w2 model,
    sendMessage_begin (set_messageInput_value "again" (page w')) = Some w2 /\
    network (page w2)
      = network (page begun_hi)
          ++ [Fetch {| method := POST; url := CHAT_URL;
                       body := ChatBody (sent ++ [{| role := "user";
                                                     content := trim "again" |}])
                                        model true |}].
Proof.
  apply (failed_post_leaves_an_empty_answer (num := literal_numbers)
           typed_hi begun_hi
           (ChatResponse false 503 {| chunks := []; ending := Done |}) "again").
  - reflexivity.
  - right. exists 503, {| chunks := []; ending := Done |}. reflexivity.
  - reflexivity.
Defined.

Lemma clicks_keep_the_conversation_in_turns_witness :
  let sys := run (num := literal_numbers)
               [Types "hi"; ClicksSend; ClicksSend;
                PostSettles 0 (streamed 200 chunks_hello Done);
                Types "and then"; ClicksSend] boot in
  List.length (pending sys) <= 1 /\
  sendButton_disabled (now sys) = negb (Nat.eqb (List.length (pending sys)) 0) /\
  (pending sys = [] -> alternates (conversationHistory (now sys)) = true).
Proof.
  apply (clicks_keep_the_conversation_in_turns (num := literal_numbers)).
  repeat constructor.
Defined.

Lemma every_message_gets_one_answer_witness :
  let es := [Types "a"; PressesEnter false; Types "b"; PressesEnter false;
             PostSettles 0 ChatRejected; ClicksSend] in
  let sys := run (num := literal_numbers) es boot in
  begun (num := literal_numbers) es boot = 2 /\
  finished_count (num := literal_numbers) es boot = 1 /\
  count_role "user" (conversationHistory (now sys)) = 2 /\
  count_role "assistant" (conversationHistory (now sys)) = 1 /\
  List.length (pending sys) = 1.
Proof.
  intros es sys.
  destruct (every_message_gets_one_answer (num := literal_numbers) es) as (A & B & C & _).
  fold sys in A, B, C.
  assert (Eb : begun (num := literal_numbers) es boot = 2) by (vm_compute; reflexivity).
  assert (Ef : finished_count (num := literal_numbers) es boot = 1)
    by (vm_compute; reflexivity).
  rewrite Eb, Ef in *. repeat split; auto; lia.
Defined.

End ChatSessionFacts.

(* ================================================================== *)
(** * dataset.js: uploads, ticks of the interval, rendering             *)
(* ================================================================== *)

Module DatasetJobFacts.
Import JS Http Dataset DatasetFacts.

(** ** An interval that runs has a job to ask about *)

Lemma updateJobStatus_resume_job jobId r (s : state) :
  currentJobId (updateJobStatus_resume jobId r s) = currentJobId s /\
  (jobStatusInterval (updateJobStatus_resume jobId r s) = None \/
   jobStatusInterval (updateJobStatus_resume jobId r s) = jobStatusInterval s).
Proof.
  destruct (updateJobStatus_resume_frame jobId r s) as (_ & J & I). auto.
Qed.

Lemma updateJobStatus_begin_job (s : state) :
  currentJobId (updateJobStatus_begin s) = currentJobId s /\
  jobStatusInterval (updateJobStatus_begin s) = jobStatusInterval s.
Proof.
  unfold updateJobStatus_begin.
  destruct (currentJobId s) as [id|] eqn:E; [destruct (nonempty id)|]; split; cbn; auto.
Qed.

Lemma handleFormSubmit_resume_cases (r : fetch_result upload_response) (s : state) :
  (exists ok code id d,
      r = Response ok code (Some {| job_id := Some id; detail := d |}) /\
      nonempty id = true /\
      handleFormSubmit_resume r s
        = startJobMonitoring
            (set_jobResults []
               (set_jobStatusContainer_hidden false (set_currentJobId (Some id) s))))
  \/ (exists text, handleFormSubmit_resume r s = alert text s).
Proof.
  unfold handleFormSubmit_resume.
  destruct r as [|ok code [[[id|] d]|]]; cbn [resume Api.uploadDataset Api.await_fetch
                                               Api.await_json job_id detail];
    try (right; eexists; reflexivity).
  destruct (nonempty id) eqn:N.
  - left. exists ok, code, id, d. auto.
  - right. eexists; reflexivity.
Qed.

Lemma step_has_a_job (e : event) (s : state) :
  (forall h, jobStatusInterval s = Some h ->
             exists id, currentJobId s = Some id /\ nonempty id = true) ->
  forall h, jobStatusInterval (step e s) = Some h ->
            exists id, currentJobId (step e s) = Some id /\ nonempty id = true.
Proof.
  intros H h. destruct e as [files count| |r|h0|jobId r]; simpl.
  - apply H.
  - unfold handleFormSubmit_begin. destruct (fileInput_files s); apply H.
  - destruct (handleFormSubmit_resume_cases r s)
      as [(ok & code & id & d & _ & N & ->) | (text & ->)].
    + intros _. exists id. split; [|exact N].
      unfold startJobMonitoring. cbn. destruct (jobStatusInterval s); reflexivity.
    + apply H.
  - destruct (active h0 s); [|apply H].
    destruct (updateJobStatus_begin_job s) as [J I]. rewrite J, I. apply H.
  - destruct (updateJobStatus_resume_job jobId r s) as [J [I | I]]; rewrite J, I.
    + discriminate.
    + apply H.
Qed.

Lemma run_has_a_job (es : list event) :
  forall s,
    (forall h, jobStatusInterval s = Some h ->
               exists id, currentJobId s = Some id /\ nonempty id = true) ->
    forall h, jobStatusInterval (run es s) = Some h ->
              exists id, currentJobId (run es s) = Some id /\ nonempty id = true.
Proof.
  induction es as [|e es IH]; intros s H; simpl; auto.
  apply IH. apply step_has_a_job. exact H.
Qed.

(** X18. In every state the module can reach, a tick of the interval it
    holds sends one status request, for the current job, and does nothing
    else; a tick of any other interval, one that was cleared or replaced,
    does nothing at all. *)
Theorem a_tick_asks_for_the_current_job (before : list event) (h : positive) :
  let s := run before initial in
  (jobStatusInterval s = Some h ->
   exists id,
     currentJobId s = Some id /\ id <> EmptyString /\
     step (IntervalFires h) s = send (issued (Api.fetchJobStatus id)) s) /\
  (jobStatusInterval s <> Some h -> step (IntervalFires h) s = s).
Proof.
  intros s.
  assert (H1 : one_interval s) by (apply run_one_interval; reflexivity).
  assert (H2 : forall h, jobStatusInterval s = Some h ->
                         exists id, currentJobId s = Some id /\ nonempty id = true).
  { apply run_has_a_job. intros h0 K. discriminate K. }
  unfold one_interval in H1. split.
  - intros K. destruct (H2 h K) as (id & J & N). exists id.
    split; [exact J|]. split.
    + intros ->. discriminate N.
    + unfold step, active. rewrite H1, K. cbn. rewrite Pos.eqb_refl. cbn.
      unfold updateJobStatus_begin. rewrite J, N. reflexivity.
  - intros K. unfold step, active. rewrite H1.
    destruct (jobStatusInterval s) as [h'|]; [|reflexivity].
    cbn. destruct (Pos.eqb h' h) eqn:E; [|reflexivity].
    apply Pos.eqb_eq in E. subst h'. contradiction K. reflexivity.
Qed.

(** X19. The answer to an upload. A body with a job id starts the
    monitoring whatever the status of the response, since [uploadDataset]
    does not look at it: the job becomes the current one, the status
    container is shown, the results container is emptied, and one interval
    of two seconds is running, that of the module; an interval that ran
    for an earlier job is gone. Any other outcome shows one alert and
    changes nothing else; for a body without job id the alert carries the
    [detail] of the body, or a standard text when there is none. *)
Theorem upload_answer_starts_the_job_or_alerts
    (before : list event) (r : fetch_result upload_response) :
  let s := run before initial in
  let s' := handleFormSubmit_resume r s in
  (forall ok code id d,
      r = Response ok code (Some {| job_id := Some id; detail := d |}) ->
      id <> EmptyString ->
      currentJobId s' = Some id /\
      jobStatusContainer_hidden s' = false /\
      jobResults s' = [] /\
      (exists h, jobStatusInterval s' = Some h /\ intervals s' = [(h, 2000)]) /\
      alerts s' = alerts s /\ requests s' = requests s) /\
  (forall ok code j d,
      r = Response ok code (Some {| job_id := j; detail := d |}) ->
      j = None \/ j = Some EmptyString ->
      s' = alert ("Error: "
                    ++ match d with
                       | Some t => if nonempty t then t else "Failed to start job."
                       | None => "Failed to start job."
                       end) s) /\
  (r = Rejected \/ (exists ok code, r = Response ok code None) ->
   exists text, s' = alert text s).
Proof.
  intros s s'.
  assert (H1 : one_interval s) by (apply run_one_interval; reflexivity).
  split; [|split].
  - intros ok code id d -> Hid.
    assert (N : nonempty id = true).
    { unfold nonempty. apply negb_true_iff. apply String.eqb_neq. exact Hid. }
    assert (E : s' = startJobMonitoring
                       (set_jobResults []
                          (set_jobStatusContainer_hidden false
                             (set_currentJobId (Some id) s)))).
    { unfold s', handleFormSubmit_resume. cbn. rewrite N. reflexivity. }
    assert (O : one_interval s').
    { rewrite E. apply startJobMonitoring_one_interval. exact H1. }
    unfold one_interval in O.
    assert (I : exists h, jobStatusInterval s' = Some h).
    { rewrite E. unfold startJobMonitoring. cbn. eexists. reflexivity. }
    destruct I as [h I]. rewrite I in O.
    split; [|split; [|split; [|split; [|split]]]].
    + rewrite E. unfold startJobMonitoring. cbn.
      destruct (jobStatusInterval s); reflexivity.
    + rewrite E. unfold startJobMonitoring. cbn.
      destruct (jobStatusInterval s); reflexivity.
    + rewrite E. unfold startJobMonitoring. cbn.
      destruct (jobStatusInterval s); reflexivity.
    + exists h. split; [exact I | exact O].
    + rewrite E. unfold startJobMonitoring. cbn.
      destruct (jobStatusInterval s); reflexivity.
    + rewrite E. unfold startJobMonitoring. cbn.
      destruct (jobStatusInterval s); reflexivity.
  - intros ok code j d -> [-> | ->]; unfold s', handleFormSubmit_resume; cbn;
      destruct d as [t|]; try destruct (nonempty t); reflexivity.
  - intros [-> | (ok & code & ->)]; eexists; reflexivity.
Qed.

(** ** Rendering *)

Lemma renderJobResults_state (results : list job_result) (s : state) :
  renderJobResults results s
    = set_jobResults
        (jobResults s ++ map resultEl (skipn (List.length (jobResults s)) results)) s.
Proof.
  unfold renderJobResults. f_equal. apply render_loop_skipn. reflexivity.
Qed.

(** X20. [renderJobResults] goes by the number of children alone: the
    children stay, and the results from that position on are appended, so
    that the container ends up with as many children as the longer of the
    two; results before that position are never rendered again, whatever
    they hold now. Rendering the same results twice is rendering them
    once. *)
Theorem rendering_goes_by_the_count (results : list job_result) (s : state) :
  jobResults (renderJobResults results s)
    = jobResults s ++ map resultEl (skipn (List.length (jobResults s)) results) /\
  List.length (jobResults (renderJobResults results s))
    = Nat.max (List.length (jobResults s)) (List.length results) /\
  renderJobResults results (renderJobResults results s) = renderJobResults results s.
Proof.
  assert (L : List.length (jobResults (renderJobResults results s))
              = Nat.max (List.length (jobResults s)) (List.length results)).
  { rewrite renderJobResults_appends, length_app, length_map, length_skipn. lia. }
  split; [apply renderJobResults_appends|]. split; [exact L|].
  rewrite (renderJobResults_state results (renderJobResults results s)).
  rewrite skipn_all2 by lia. cbn [map]. rewrite app_nil_r.
  rewrite renderJobResults_state. reflexivity.
Qed.

Lemma a_tick_asks_for_the_current_job_witness :
  let s := run job_started initial in
  (exists id,
      currentJobId s = Some id /\ id <> EmptyString /\
      step (IntervalFires 1) s = send (issued (Api.fetchJobStatus id)) s) /\
  step (IntervalFires 2) s = s.
Proof.
  intros s.
  destruct (a_tick_asks_for_the_current_job job_started 1%positive) as [A _].
  destruct (a_tick_asks_for_the_current_job job_started 2%positive) as [_ B].
  split; [apply A; reflexivity | apply B; discriminate].
Defined.

Lemma upload_answer_starts_the_job_or_alerts_witness :
  (let s := run job_started initial in
   let s' := handleFormSubmit_resume
               (Response false 500 (Some {| job_id := Some "9c1e"; detail := None |})) s in
   currentJobId s' = Some "9c1e" /\
   jobStatusContainer_hidden s' = false /\
   jobResults s' = [] /\
   (exists h, jobStatusInterval s' = Some h /\ intervals s' = [(h, 2000)]) /\
   alerts s' = alerts s /\ requests s' = requests s) /\
  (let s := run job_started initial in
   handleFormSubmit_resume
     (Response false 400 (Some {| job_id := None; detail := Some "Invalid JSON file." |})) s
     = alert "Error: Invalid JSON file." s) /\
  (let s := run job_started initial in
   exists text, handleFormSubmit_resume Rejected s = alert text s).
Proof.
  split; [|split].
  - intros s s'.
    destruct (upload_answer_starts_the_job_or_alerts job_started
                (Response false 500 (Some {| job_id := Some "9c1e"; detail := None |})))
      as [A _].
    apply (A false 500 "9c1e" None); [reflexivity | discriminate].
  - intros s.
    destruct (upload_answer_starts_the_job_or_alerts job_started
                (Response false 400
                   (Some {| job_id := None; detail := Some "Invalid JSON file." |})))
      as (_ & B & _).
    apply (B false 400 None (Some "Invalid JSON file.")); [reflexivity | left; reflexivity].
  - intros s.
    destruct (upload_answer_starts_the_job_or_alerts job_started Rejected) as (_ & _ & C).
    apply C. left. reflexivity.
Defined.

End DatasetJobFacts.

(* ================================================================== *)
(** * The UI module: the list of alerts                                 *)
(* ================================================================== *)

Module UiAlertsFacts.
Import JS JSTerms UiFacts JSConversionFacts.

Section WithNumbers.
Context {num : Numbers}.

Lemma alert_element_total (alert : json) :
  renders alert = true -> exists el, Ui.alert_element alert = Normal el.
Proof.
  intros H. pose proof (alert_element_renders alert) as R.
  destruct (Ui.alert_element alert) as [el|e]; [exists el; reflexivity|].
  destruct R as [_ R]. congruence.
Qed.

Lemma alert_element_fails (alert : json) :
  renders alert = false -> Ui.alert_element alert = Throw ETypeError.
Proof.
  intros H. pose proof (alert_element_renders alert) as R.
  destruct (Ui.alert_element alert) as [el|e]; [congruence|].
  destruct R as [-> _]. reflexivity.
Qed.

(** The [forEach] of [updateAlerts] on alerts that all render. *)
Lemma forEach_total (xs : list json) :
  Forall (fun x => renders x = true) xs ->
  forall acc,
    exists els,
      for_of xs
        (fun alert container =>
           match Ui.alert_element alert with
           | Normal el => (Normal tt, option_map (fun c => c ++ [el]) container)
           | Throw e => (Throw e, container)
           end) (Some acc) = (Normal tt, Some (acc ++ els)) /\
      Forall2 (fun x el => Ui.alert_element x = Normal el) xs els.
Proof.
  induction 1 as [|x xs Hx F IH]; intros acc.
  - exists []. rewrite app_nil_r. split; [reflexivity | constructor].
  - destruct (alert_element_total x Hx) as [el E].
    destruct (IH (acc ++ [el])) as (els & R & F2).
    exists (el :: els). split.
    + cbn [for_of]. unfold bind. rewrite E. cbn [option_map]. rewrite R.
      rewrite <- app_assoc. reflexivity.
    + constructor; assumption.
Qed.

Lemma forEach_stops (pre : list json) (bad : json) (post : list json) :
  Forall (fun x => renders x = true) pre ->
  renders bad = false ->
  forall acc,
    exists els,
      for_of (pre ++ bad :: post)
        (fun alert container =>
           match Ui.alert_element alert with
           | Normal el => (Normal tt, option_map (fun c => c ++ [el]) container)
           | Throw e => (Throw e, container)
           end) (Some acc) = (Throw ETypeError, Some (acc ++ els)) /\
      Forall2 (fun x el => Ui.alert_element x = Normal el) pre els.
Proof.
  intros F B. induction F as [|x xs Hx F IH]; intros acc.
  - exists []. rewrite app_nil_r. split; [|constructor].
    cbn [app for_of]. unfold bind. rewrite (alert_element_fails bad B). reflexivity.
  - destruct (alert_element_total x Hx) as [el E].
    destruct (IH (acc ++ [el])) as (els & R & F2).
    exists (el :: els). split.
    + cbn [for_of app]. unfold bind. rewrite E. cbn [option_map]. rewrite R.
      rewrite <- app_assoc. reflexivity.
    + constructor; assumption.
Qed.

(** X21. For an array of alerts each of which renders (it is not [null],
    and its level and its message convert to strings, as strings, numbers
    and missing members do), [updateAlerts] returns normally and replaces
    what the container held: by the paragraph that says there is no alert
    when the array is empty, and otherwise by one element for each alert,
    in the order of the array. *)
Theorem alerts_are_rendered_one_for_one (xs : list json) (c : list Ui.alert_node) :
  Forall (fun x => renders x = true) xs ->
  exists els,
    Ui.updateAlerts (JArray xs) (Some c)
      = (Normal tt,
         Some (match xs with
               | [] => [Ui.NoAlertParagraph]
               | _ :: _ => els
               end)) /\
    Forall2 (fun x el => Ui.alert_element x = Normal el) xs els.
Proof.
  intros F. destruct (forEach_total xs F []) as (els & R & F2).
  exists els. split; [|exact F2].
  destruct xs as [|x xs]; [reflexivity|].
  unfold Ui.updateAlerts. cbn [Ui.length_is_zero List.length Nat.eqb].
  exact R.
Qed.

(** X22. What makes [updateAlerts] throw, and what it leaves behind. The
    first alert that does not render (it is [null], or its level or its
    message is an object with a member [toString] of its own) stops the
    rendering with a [TypeError]: the container holds the elements of the
    alerts before it, the earlier content being gone. A value that is not
    an array and has no [length], such as the object of an error body,
    throws with the container left empty. Without a container nothing
    happens. *)
Theorem alerts_that_cannot_be_rendered
    (pre : list json) (bad : json) (post : list json)
    (ms : list (string * json)) (c : list Ui.alert_node) (alerts : json) :
  Forall (fun x => renders x = true) pre ->
  renders bad = false ->
  lookup_last "length" ms = None ->
  (exists els,
      Ui.updateAlerts (JArray (pre ++ bad :: post)) (Some c)
        = (Throw ETypeError, Some els) /\
      Forall2 (fun x el => Ui.alert_element x = Normal el) pre els) /\
  Ui.updateAlerts (JObject ms) (Some c) = (Throw ETypeError, Some []) /\
  Ui.updateAlerts alerts None = (Normal tt, None).
Proof.
  intros F B L. split; [|split; [|reflexivity]].
  - destruct (forEach_stops pre bad post F B []) as (els & R & F2).
    exists els. split; [|exact F2].
    unfold Ui.updateAlerts. cbn [Ui.length_is_zero].
    assert (Z : Nat.eqb (List.length (pre ++ bad :: post)) 0 = false).
    { rewrite length_app. cbn. apply Nat.eqb_neq. lia. }
    rewrite Z. exact R.
  - unfold Ui.updateAlerts. cbn [Ui.length_is_zero]. rewrite L. reflexivity.
Qed.

End WithNumbers.

Lemma alerts_are_rendered_one_for_one_witness :
  exists els,
    Ui.updateAlerts (num := literal_numbers)
      (JArray [JObject [("level", JString "严重"); ("message", JString "Node 2 offline")];
               JString "late"])
      (Some [Ui.NoAlertParagraph])
      = (Normal tt,
         Some (match [JObject [("level", JString "严重");
                               ("message", JString "Node 2 offline")];
                      JString "late"] with
               | [] => [Ui.NoAlertParagraph]
               | _ :: _ => els
               end)) /\
    Forall2 (fun x el => Ui.alert_element (num := literal_numbers) x = Normal el)
            [JObject [("level", JString "严重"); ("message", JString "Node 2 offline")];
             JString "late"]
            els.
Proof.
  apply (alerts_are_rendered_one_for_one (num := literal_numbers)).
  repeat constructor.
Defined.

Lemma alerts_that_cannot_be_rendered_witness :
  (exists els,
      Ui.updateAlerts (num := literal_numbers)
        (JArray ([JObject [("level", JString "警告"); ("message", JString "GPU 91 C")]]
                   ++ JObject [("level", JObject [("toString", JNumber "1")]);
                               ("message", JString "odd")]
                   :: [JString "late"]))
        (Some [Ui.NoAlertParagraph])
        = (Throw ETypeError, Some els) /\
      Forall2 (fun x el => Ui.alert_element (num := literal_numbers) x = Normal el)
              [JObject [("level", JString "警告"); ("message", JString "GPU 91 C")]]
              els) /\
  Ui.updateAlerts (num := literal_numbers) (JObject [("detail", JString "Not Found")])
    (Some [Ui.NoAlertParagraph])
    = (Throw ETypeError, Some []) /\
  Ui.updateAlerts (num := literal_numbers) (JArray []) None = (Normal tt, None).
Proof.
  apply (alerts_that_cannot_be_rendered (num := literal_numbers)).
  - repeat constructor.
  - reflexivity.
  - reflexivity.
Defined.

End UiAlertsFacts.

(* ================================================================== *)
(** * main.js: a tick that meets an error                               *)
(* ================================================================== *)

Module TickFacts.
Import JS Dashboard Tick DashboardFacts.
Local Open Scope js_scope.

Section WithPlatform.
Context {num : Numbers} {metric : Metric}.

Lemma updateDashboardCharts_throws (nodes : list node) (s : charts) :
  forallb (fun n => has_gpu n && has_memory n) (charted nodes) = false ->
  exists e s', updateDashboardCharts nodes s = (Throw e, s').
Proof.
  intros H. unfold updateDashboardCharts. fold (charted nodes).
  rewrite length_map.
  destruct (Nat.eqb (List.length (charted nodes)) 0) eqn:L.
  { apply Nat.eqb_eq, length_zero_iff_nil in L. rewrite L in H. discriminate H. }
  rewrite cpu_usage_charted, !gpu_member_charted, memory_percent_charted.
  destruct (forallb has_gpu (charted nodes)) eqn:Hg.
  - destruct (forallb has_memory (charted nodes)) eqn:Hm.
    + exfalso. rewrite forallb_forall in Hg, Hm.
      assert (T : forallb (fun n => has_gpu n && has_memory n) (charted nodes) = true).
      { apply forallb_forall. intros x Hx. rewrite (Hg x Hx), (Hm x Hx). reflexivity. }
      rewrite T in H. discriminate H.
    + eexists. eexists. reflexivity.
  - eexists. eexists. reflexivity.
Qed.

(** X23. [appTick] never throws out of its updates: the [catch] takes
    every error. The updates after the one that throws are not made: when
    an online node comes without its [gpu] or [memory] object, the node
    cards are brought up to date, and the alerts and the model selector
    stay as they were in that tick. *)
Theorem a_tick_stops_at_the_first_error
    (nodes : list node) (alerts : json) (models : list string) (p : page) :
  fst (appTick_update nodes alerts models p) = Normal tt /\
  (forallb (fun n => has_gpu n && has_memory n) (charted nodes) = false ->
   let p' := snd (appTick_update nodes alerts models p) in
   nodeStatusContainer p' = updateNodeCards nodes (nodeStatusContainer p) /\
   alertsContainer p' = alertsContainer p /\
   modelSelect p' = modelSelect p).
Proof.
  split.
  - unfold appTick_update, try_catch.
    match goal with |- fst (match ?m with _ => _ end) = _ => destruct m as [[[]|e] p'] end;
      reflexivity.
  - intros H p'. subst p'.
    unfold appTick_update, try_catch, bind, on_nodeStatusContainer, modify,
      on_dashboardCharts.
    cbn [dashboardCharts].
    destruct (updateDashboardCharts_throws nodes (dashboardCharts p) H) as (e & s' & E).
    rewrite E. repeat split.
Qed.

End WithPlatform.

Lemma a_tick_stops_at_the_first_error_witness :
  let p := {| nodeStatusContainer := Some [];
              dashboardCharts := blank_charts;
              alertsContainer := Some [Ui.NoAlertParagraph];
              modelSelect := Some {| options := [(EmptyString, "默认")];
                                     value_selected := EmptyString |} |} in
  let alerts := JArray [JObject [("level", JString "严重");
                                 ("message", JString "Node 2 offline")]] in
  let p' := snd (appTick_update (num := literal_numbers) rack_without_gpu alerts
                   ["llama3"] p) in
  nodeStatusContainer p' = updateNodeCards rack_without_gpu (nodeStatusContainer p) /\
  alertsContainer p' = alertsContainer p /\
  modelSelect p' = modelSelect p.
Proof.
  intros p alerts.
  apply (proj2 (a_tick_stops_at_the_first_error (num := literal_numbers)
                  rack_without_gpu alerts ["llama3"] p)).
  reflexivity.
Defined.

End TickFacts.

(* ================================================================== *)
(** * api.js: what each helper makes of an outcome                      *)
(* ================================================================== *)

Module ApiOutcomeFacts.
Import JS Http.

(** X24. The three dashboard helpers hand on the body of an ok response
    as it is and answer the empty array in every other case, an ok
    response with an unreadable body included. [uploadDataset] does not
    look at the status: it resolves to the body of any response that
    carries one. [fetchJobStatus] does: a response that is not ok throws
    an error that names the job, whatever its body. *)
Theorem helpers_by_outcome (r : fetch_result json) :
  let answer := match r with
                | Response true _ (Some v) => v
                | _ => JArray []
                end in
  resume Api.fetchNodeStatuses r = Normal answer /\
  resume Api.fetchAlerts r = Normal answer /\
  resume Api.fetchAvailableModels r = Normal answer /\
  (forall formData ok code b,
      resume (Api.uploadDataset formData) (Response ok code (Some b)) = Normal b) /\
  (forall jobId code b,
      resume (Api.fetchJobStatus jobId) (Response false code b)
        = Throw (EError ("Failed to fetch status for job " ++ jobId)) /\
      resume (Api.fetchJobStatus jobId) (Response true code b)
        = match b with Some v => Normal v | None => Throw ESyntaxError end).
Proof.
  intros answer. subst answer.
  repeat split; try reflexivity; destruct r as [|[|] code [v|]]; reflexivity.
Qed.

End ApiOutcomeFacts.
